(** * CleanAwsS3: the bulk clean / copy engine of [s3_cleaner.py]

    A shallow embedding of class [S3Cleaner] (file [src/s3_cleaner.py]) and
    the properties its specification states about it.

    Conventions of the embedding.
    - Python [str] is [string]; a list is [list]; a dictionary with a fixed
      set of keys is a record, and a key that may be absent from a response
      ([Contents], [Versions], [DeleteMarkers], [Deleted], [Errors]) is an
      [option] field.
    - The boto3 client is a record of functions, [S3Client]; a call either
      answers or raises ([Res]).  A paginator is the list of pages it yields
      followed, possibly, by the exception that ends the iteration.
    - [cancel_flag] and [pause_flag] are callables whose answer may change
      from one call to the next: each is the sequence of its answers, indexed
      by the number of calls made to it before.
    - The thread pool is observed through two oracles: which futures are still
      queued when [future.cancel()] is called on them, and the order in which
      [as_completed] yields the futures. *)

From Stdlib Require Import Arith Lia Bool ZArith DecimalString String Ascii List Permutation.
From Stdlib Require Import Sorted.
Import ListNotations.

(** ** Python strings *)

Module PyStr.
Local Open Scope string_scope.

(** [bool(s)]: a string is true when it is not empty. *)
Definition truthy (s : string) : bool :=
  match s with
  | EmptyString => false
  | String _ _ => true
  end.

Definition is_slash (c : ascii) : bool := Ascii.eqb c "/"%char.

(** [s.lstrip('/')] *)
Fixpoint lstrip (s : string) : string :=
  match s with
  | EmptyString => EmptyString
  | String c s' => if is_slash c then lstrip s' else s
  end.

(** [s.rstrip('/')] *)
Fixpoint rstrip (s : string) : string :=
  match s with
  | EmptyString => EmptyString
  | String c s' =>
      match rstrip s' with
      | EmptyString => if is_slash c then EmptyString else String c EmptyString
      | r => String c r
      end
  end.

(** [s.strip('/')] *)
Definition strip (s : string) : string := rstrip (lstrip s).

(** [s[n:]] *)
Fixpoint slice_from (n : nat) (s : string) : string :=
  match n, s with
  | 0, _ => s
  | S _, EmptyString => EmptyString
  | S n', String _ s' => slice_from n' s'
  end.

(** [s.startswith(p)] *)
Fixpoint startswith (p s : string) : bool :=
  match p, s with
  | EmptyString, _ => true
  | String _ _, EmptyString => false
  | String a p', String b s' => Ascii.eqb a b && startswith p' s'
  end.

End PyStr.

(** ** Destination keys of [copy_objects] (lines 449-501) *)

Module DestKey.
Import PyStr.
Local Open Scope string_scope.

(** [source_prefix.strip('/') if source_prefix else ''] *)
Definition normalize_prefix (prefix : string) : string :=
  if truthy prefix then strip prefix else "".

(** Lines 491-495, on the normalised [source_prefix]. *)
Definition relative_key (source_prefix source_key : string) : string :=
  if truthy source_prefix
  then lstrip (slice_from (String.length source_prefix) source_key)
  else source_key.

(** Lines 497-501, on the normalised [dest_prefix]. *)
Definition build_dest_key (dest_prefix relative_key : string) : string :=
  if truthy dest_prefix
  then (if truthy relative_key
        then dest_prefix ++ "/" ++ relative_key
        else dest_prefix)
  else relative_key.

(** The destination key [copy_objects] computes for [source_key] from the
    prefixes it was called with. *)
Definition dest_key (source_prefix dest_prefix source_key : string) : string :=
  let source_prefix := normalize_prefix source_prefix in
  let dest_prefix := normalize_prefix dest_prefix in
  build_dest_key dest_prefix (relative_key source_prefix source_key).

(** The derivation as the specification words it, on the prefixes as they
    are given: strip the source prefix from the key, strip leading slashes
    from what is left, and join with the destination prefix when one is
    set. *)
Definition strip_prefix_spec (srcPrefix srcKey : string) : string :=
  if startswith srcPrefix srcKey
  then slice_from (String.length srcPrefix) srcKey
  else srcKey.

Definition dest_key_spec (srcPrefix dstPrefix srcKey : string) : string :=
  let relativeKey := lstrip (strip_prefix_spec srcPrefix srcKey) in
  if truthy dstPrefix
  then (if truthy relativeKey
        then dstPrefix ++ "/" ++ relativeKey
        else dstPrefix)
  else relativeKey.

End DestKey.

(** ** The object store, as the engine sees it *)

Module Store.

(** Exceptions the boto3 client raises.  The source tells [ClientError]
    and [NoCredentialsError] apart from every other [Exception]. *)
Inductive Exn : Type :=
| ClientError (msg : string)
| NoCredentialsError
| ValueError (msg : string)
| OtherError (msg : string).

Definition is_ClientError (e : Exn) : bool :=
  match e with
  | ClientError _ => true
  | _ => false
  end.

(** The result of a client call. *)
Inductive Res (A : Type) : Type :=
| Ok (a : A)
| Raise (e : Exn).
Arguments Ok {A} a.
Arguments Raise {A} e.

(** An entry of a delete request: [{'Key': k}] or
    [{'Key': k, 'VersionId': v}]. *)
Record WorkItem : Type := { Key : string; VersionId : option string }.

(** An entry of [page['Contents']]. *)
Record ObjectSummary : Type := { obj_Key : string }.

(** An entry of [page['Versions']] or [page['DeleteMarkers']]. *)
Record VersionEntry : Type := { ver_Key : string; ver_VersionId : string }.

Record ObjectPage : Type := { Contents : option (list ObjectSummary) }.

Record VersionPage : Type :=
  { Versions : option (list VersionEntry);
    DeleteMarkers : option (list VersionEntry) }.

(** What iterating [paginator.paginate(...)] does: it yields [pages], then
    raises [failure] when there is one. *)
Record Paginated (P : Type) : Type :=
  { pages : list P; failure : option Exn }.
Arguments pages {P} _.
Arguments failure {P} _.

Record ErrorEntry : Type :=
  { err_Key : option string; err_Message : option string }.

Record DeleteResponse : Type :=
  { Deleted : option (list WorkItem); Errors : option (list ErrorEntry) }.

(** The boto3 client.  [Prefix] is an optional argument of the listings. *)
Record S3Client : Type :=
  { head_bucket : string -> Res unit;
    get_bucket_versioning : string -> Res (option string);
    list_objects_v2 : string -> option string -> Paginated ObjectPage;
    list_object_versions : string -> option string -> Paginated VersionPage;
    delete_objects : string -> list WorkItem -> Res DeleteResponse;
    copy_object : string -> string -> string -> string -> Res unit }.

(** [d.get(k, [])] on an optional list. *)
Definition get_list {A : Type} (o : option (list A)) : list A :=
  match o with
  | Some l => l
  | None => []
  end.

(** A [delete_objects] request as the store receives it: [Bucket] and the
    [Objects] of [Delete]. *)
Record DeleteRequest : Type :=
  { req_Bucket : string; req_Objects : list WorkItem }.

(** A [delete_objects] call: the request sent and what the store has
    answered. *)
Record DeleteCall : Type :=
  { call_request : DeleteRequest; call_answer : Res DeleteResponse }.


End Store.

(** ** Python lists: [range(0, n, step)] and [l[i:j]] *)

Module PyList.

(** [range(0, stop, step)] for a positive [step]. *)
Definition range0 (stop step : nat) : list nat :=
  map (fun k => k * step) (seq 0 ((stop + step - 1) / step)).

(** [l[i:j]] *)
Definition slice {A : Type} (l : list A) (i j : nat) : list A :=
  firstn (j - i) (skipn i l).

(** A list paired with its positions. *)
Definition indexed {A : Type} (l : list A) : list (nat * A) :=
  combine (seq 0 (List.length l)) l.

End PyList.

(** The S3 limit on the entries of one [delete_objects] call. *)
Definition batch_limit : nat := 1000.

(** [[l[i:i+1000] for i in range(0, len(l), 1000)]], the batches both
    cleaning loops cut a page's entries into (lines 247-248 and 354-355). *)
Definition split_batches {A : Type} (l : list A) : list (list A) :=
  map (fun i => PyList.slice l i (i + batch_limit))
      (PyList.range0 (List.length l) batch_limit).

(** ** What the engine shares between cleaning and copying *)

Module Runtime.
Import Store.

(** The messages handed to [progress_callback], one constructor per
    format string of the source. *)
Inductive Msg : Type :=
| VerifyingBucket (bucket : string)
| ErrorNoBucket (bucket : string)
| VersioningReport (is_versioned : bool)
| ErrorCleaning (e : Exn)
| DeletingStarted (versioned : bool) (max_workers : Z)
| OperationCancelled
| PageWithoutObjects (versioned : bool) (pages_processed : nat)
| CreatingBatch (pages_processed batches_created size : nat)
| TotalBatches (pages_processed batches_created : nat)
| DeletedSoFar (versioned : bool) (deleted_count completed_batches batches_created : nat)
| ErrorInBatch (e : Exn)
| CleanupCompleted (versioned : bool) (deleted_count : nat)
| ErrorDeleting (versioned : bool) (e : Exn)
| VerifyingBuckets
| ErrorNoSourceBucket (bucket : string)
| ErrorNoDestBucket (bucket : string)
| CopyingStarted (max_workers : Z)
| CopyPage (pages_processed objects_in_page total_objects_submitted : nat)
| TotalQueued (pages_processed total_objects_submitted : nat)
| CopiedSoFar (copied_count completed_count total_objects_submitted : nat)
| ErrorCopyingObject (e : Exn)
| CopyCompleted (copied_count : nat)
| ErrorCopying (e : Exn).

(** The records written to the module's [logger]. *)
Inductive LogRecord : Type :=
| LogCheckingVersioning (e : Exn)
| LogCountingObjects (e : Exn)
| LogCleaningBucket (e : Exn)
| LogDeleteItem (key message : option string)
| LogDeleteBatch (e : Exn)
| LogDeleting (versioned : bool) (e : Exn)
| LogDeletionThread (e : Exn)
| LogCopyItem (source_key : string) (e : Exn)
| LogCopyFailed
| LogCopyThread (e : Exn)
| LogCopyingObjects (e : Exn).

(** What the driving thread has done to the outside so far: the calls made
    to each flag, the progress messages and the log records, oldest
    first. *)
Record World : Type :=
  { cancel_polls : nat;
    pause_polls : nat;
    progress : list Msg;
    logged : list LogRecord }.

Definition world0 : World :=
  {| cancel_polls := 0; pause_polls := 0; progress := []; logged := [] |}.

(** The caller's arguments, other than bucket names and prefixes.
    [progress_callback] tells whether a callback was given; a flag is
    [None] when the argument is left out. *)
Record Caller : Type :=
  { progress_callback : bool;
    max_workers : Z;
    cancel_flag : option (nat -> bool);
    pause_flag : option (nat -> bool) }.

(** The thread pool, as far as the driving thread can observe it:
    [queued_at_cancel i] tells whether the [i]-th submitted future has not
    started when [future.cancel()] is called on it (the call then succeeds
    and the task never runs; a running or finished future is left alone);
    [as_completed] is the order in which the futures complete. *)
Record Pool : Type :=
  { queued_at_cancel : nat -> bool;
    as_completed : forall A : Type, list A -> list A }.

(** A pool whose [as_completed] yields every future once. *)
Definition yields_all (pool : Pool) : Prop :=
  forall (A : Type) (l : list A), Permutation (as_completed pool A l) l.

(** How a function of the engine ends.  [Spinning] is the pause loop still
    turning when the polls allotted to it are used up. *)
Inductive Exit : Type :=
| Returned (b : bool)
| Raised (e : Exn)
| Spinning.

Inductive PauseExit : Type :=
| Resumed
| CancelledWhilePaused
| StillPaused.

Definition log (r : LogRecord) (w : World) : World :=
  {| cancel_polls := cancel_polls w; pause_polls := pause_polls w;
     progress := progress w; logged := logged w ++ [r] |}.

Section Flags.
Variable caller : Caller.

(** [if progress_callback: progress_callback(m)] *)
Definition emit (m : Msg) (w : World) : World :=
  if progress_callback caller
  then {| cancel_polls := cancel_polls w; pause_polls := pause_polls w;
          progress := progress w ++ [m]; logged := logged w |}
  else w.

(** [if progress_callback and cond: progress_callback(m)] *)
Definition emit_if (cond : bool) (m : Msg) (w : World) : World :=
  if cond then emit m w else w.

(** [cancel_flag and cancel_flag()] *)
Definition poll_cancel (w : World) : bool * World :=
  match cancel_flag caller with
  | None => (false, w)
  | Some f =>
      (f (cancel_polls w),
       {| cancel_polls := S (cancel_polls w); pause_polls := pause_polls w;
          progress := progress w; logged := logged w |})
  end.

(** [pause_flag and pause_flag()] *)
Definition poll_pause (w : World) : bool * World :=
  match pause_flag caller with
  | None => (false, w)
  | Some f =>
      (f (pause_polls w),
       {| cancel_polls := cancel_polls w; pause_polls := S (pause_polls w);
          progress := progress w; logged := logged w |})
  end.

(** The pause loop (lines 230-233, 324-327, 477-480 and 530-533):
[[
while pause_flag and pause_flag():
   time.sleep(0.5)
   if cancel_flag and cancel_flag():
       return False
]]
    giving up after [n] sleeps. *)
Fixpoint wait_while_paused (n : nat) (w : World) : PauseExit * World :=
  let (paused, w1) := poll_pause w in
  if paused
  then
    match n with
    | 0 => (StillPaused, w1)
    | S n' =>
        let (cancelled, w2) := poll_cancel w1 in
        if cancelled then (CancelledWhilePaused, w2)
        else wait_while_paused n' w2
    end
  else (Resumed, w1).

(** No call of [cancel_flag] among the first [n] answered true. *)
Definition unobserved (n : nat) : Prop :=
  forall f, cancel_flag caller = Some f -> forall k, k < n -> f k = false.

(** Some call of [cancel_flag] among the first [n] answered true. *)
Definition observed (n : nat) : Prop :=
  exists f k, cancel_flag caller = Some f /\ k < n /\ f k = true.

(** [cancel_flag] is left out or never answers true. *)
Definition never_cancelled : Prop :=
  forall f, cancel_flag caller = Some f -> forall k, f k = false.


(** [pause_flag] is left out or, from any call on, answers false after at
    most [fuel] more calls. *)
Definition pause_released (fuel : nat) : Prop :=
  forall f, pause_flag caller = Some f ->
            forall n, exists k, k <= fuel /\ f (n + k) = false.

End Flags.

Section Probes.
Variable s3 : S3Client.

(** [bucket_exists], lines 75-89. *)
Definition bucket_exists (bucket_name : string) : Res bool :=
  match head_bucket s3 bucket_name with
  | Ok _ => Ok true
  | Raise e => if is_ClientError e then Ok false else Raise e
  end.

(** [is_versioned], lines 91-106. *)
Definition is_versioned (bucket_name : string) (w : World) : Res bool * World :=
  match get_bucket_versioning s3 bucket_name with
  | Ok status =>
      (Ok match status with
          | Some s => String.eqb s "Enabled"
          | None => false
          end, w)
  | Raise e =>
      if is_ClientError e
      then (Ok false, log (LogCheckingVersioning e) w)
      else (Raise e, w)
  end.

End Probes.

(** The futures on which [cancel()] does not succeed, among [futures] whose
    positions in [revoked] were cancelled while queued: the tasks the pool
    runs before the [with ThreadPoolExecutor(...)] block is left. *)
Definition not_revoked {A : Type} (revoked : list nat) (futures : list A) : list A :=
  map snd (filter (fun p => negb (existsb (Nat.eqb (fst p)) revoked))
                  (PyList.indexed futures)).

(** [for future in futures: future.cancel()]: the positions cancelled. *)
Definition cancel_all {A : Type} (pool : Pool) (futures : list A) : list nat :=
  map fst (filter (fun p => queued_at_cancel pool (fst p)) (PyList.indexed futures)).


End Runtime.

(** ** Cleaning a bucket *)

Module Clean.
Import Store Runtime.

(** The locals of [_clean_non_versioned_bucket] and
    [_clean_versioned_bucket], with the world.  [futures] holds the batch
    of every future, in submission order; [revoked] the positions of the
    futures cancelled while queued. *)
Record CleanState : Type :=
  { world : World;
    futures : list (list WorkItem);
    revoked : list nat;
    pages_processed : nat;
    batches_created : nat;
    completed_batches : nat;
    deleted_count : nat }.

Definition start (w : World) : CleanState :=
  {| world := w; futures := []; revoked := [];
     pages_processed := 0; batches_created := 0;
     completed_batches := 0; deleted_count := 0 |}.

Definition with_world (st : CleanState) (w : World) : CleanState :=
  {| world := w; futures := futures st; revoked := revoked st;
     pages_processed := pages_processed st;
     batches_created := batches_created st;
     completed_batches := completed_batches st;
     deleted_count := deleted_count st |}.

(** [pages_processed += 1] *)
Definition next_page (st : CleanState) : CleanState :=
  {| world := world st; futures := futures st; revoked := revoked st;
     pages_processed := S (pages_processed st);
     batches_created := batches_created st;
     completed_batches := completed_batches st;
     deleted_count := deleted_count st |}.

(** [executor.submit(self._delete_batch, bucket_name, batch, ...)],
    [futures.append(future)] and [batches_created += 1]. *)
Definition submitted (st : CleanState) (batch : list WorkItem) : CleanState :=
  {| world := world st; futures := futures st ++ [batch]; revoked := revoked st;
     pages_processed := pages_processed st;
     batches_created := S (batches_created st);
     completed_batches := completed_batches st;
     deleted_count := deleted_count st |}.

(** [completed_batches += 1] and [deleted_count += deleted]. *)
Definition completed (st : CleanState) (deleted : nat) : CleanState :=
  {| world := world st; futures := futures st; revoked := revoked st;
     pages_processed := pages_processed st;
     batches_created := batches_created st;
     completed_batches := S (completed_batches st);
     deleted_count := deleted_count st + deleted |}.

Definition with_revoked (st : CleanState) (r : list nat) : CleanState :=
  {| world := world st; futures := futures st; revoked := r;
     pages_processed := pages_processed st;
     batches_created := batches_created st;
     completed_batches := completed_batches st;
     deleted_count := deleted_count st |}.

(** The batches whose [_delete_batch] call runs: every submitted future
    that was not cancelled while queued (leaving the [with] block waits for
    them). *)
Definition executed (st : CleanState) : list (list WorkItem) :=
  not_revoked (revoked st) (futures st).

Record Counts : Type :=
  { objects : nat; versions : nat; delete_markers : nat }.

(** What one call of [_delete_batch] does: the value it returns, the
    records it logs and the calls it makes to the store. *)
Record BatchRun : Type :=
  { batch_deleted : nat;
    batch_log : list LogRecord;
    batch_calls : list DeleteCall }.

(** The entries one page of each listing turns into. *)
Definition plain_items (page : ObjectPage) : list WorkItem :=
  map (fun obj => {| Key := obj_Key obj; VersionId := None |})
      (get_list (Contents page)).

Definition version_item (v : VersionEntry) : WorkItem :=
  {| Key := ver_Key v; VersionId := Some (ver_VersionId v) |}.

Definition versioned_items (page : VersionPage) : list WorkItem :=
  map version_item (get_list (Versions page))
  ++ map version_item (get_list (DeleteMarkers page)).

Section WithEnv.
Variable s3 : S3Client.
Variable caller : Caller.
Variable pool : Pool.
Variable fuel : nat.

(** [_delete_batch], lines 182-198: its one call to the store, the
    number of entries the store's answer reports deleted, and what the
    worker logs. *)
Definition _delete_batch (bucket_name : string) (objects_batch : list WorkItem)
  : BatchRun :=
  let request := {| req_Bucket := bucket_name; req_Objects := objects_batch |} in
  match delete_objects s3 bucket_name objects_batch with
  | Ok response =>
      {| batch_deleted := List.length (get_list (Deleted response));
         batch_log :=
           map (fun error => LogDeleteItem (err_Key error) (err_Message error))
               (get_list (Errors response));
         batch_calls := [ {| call_request := request; call_answer := Ok response |} ] |}
  | Raise e =>
      {| batch_deleted := 0;
         batch_log := [LogDeleteBatch e];
         batch_calls := [ {| call_request := request; call_answer := Raise e |} ] |}
  end.

(** [future.result()] of a future of [_delete_batch]. *)
Definition future_result (bucket_name : string) (batch : list WorkItem) : Res nat :=
  Ok (batch_deleted (_delete_batch bucket_name batch)).

(** Lines 247-255 and 354-361: one batch of a page. *)
Definition submit_batch (st : CleanState) (batch : list WorkItem) : CleanState :=
  let st := submitted st batch in
  with_world st
    (emit_if caller (batches_created st mod 5 =? 0)
       (CreatingBatch (pages_processed st) (batches_created st) (List.length batch))
       (world st)).

Definition submit_page (st : CleanState) (items : list WorkItem) : CleanState :=
  fold_left submit_batch (split_batches items) st.

(** The head of both page loops (lines 220-235 and 314-329): the
    cancellation checkpoint, the pause loop and [pages_processed += 1]. *)
Definition enter_page (st : CleanState) : option Exit * CleanState :=
  let (cancelled, w1) := poll_cancel caller (world st) in
  if cancelled
  then (Some (Returned false),
        with_revoked (with_world st (emit caller OperationCancelled w1))
                     (cancel_all pool (futures st)))
  else
    match wait_while_paused caller fuel w1 with
    | (Resumed, w2) => (None, next_page (with_world st w2))
    | (CancelledWhilePaused, w2) => (Some (Returned false), with_world st w2)
    | (StillPaused, w2) => (Some Spinning, with_world st w2)
    end.

(** [for page in paginator.paginate(Bucket=bucket_name)], lines 219-255
    and 313-361.  The two loops differ in the listing they iterate, in
    how a page becomes entries ([items_of]) and in the text of the
    message for a page without entries. *)
Fixpoint page_loop {P : Type} (versioned : bool) (items_of : P -> list WorkItem)
         (pgs : list P) (st : CleanState) : option Exit * CleanState :=
  match pgs with
  | [] => (None, st)
  | page :: rest =>
      match enter_page st with
      | (Some exit, st1) => (Some exit, st1)
      | (None, st1) =>
          match items_of page with
          | [] =>
              page_loop versioned items_of rest
                (with_world st1
                   (emit_if caller (pages_processed st1 mod 10 =? 0)
                      (PageWithoutObjects versioned (pages_processed st1)) (world st1)))
          | objects_to_delete =>
              page_loop versioned items_of rest (submit_page st1 objects_to_delete)
          end
      end
  end.

(** [for future in as_completed(futures)], lines 262-280 and 368-386. *)
Fixpoint drain (versioned : bool) (bucket_name : string)
         (done : list (list WorkItem)) (st : CleanState)
  : option Exit * CleanState :=
  match done with
  | [] => (None, st)
  | future :: rest =>
      let (cancelled, w1) := poll_cancel caller (world st) in
      if cancelled
      then (Some (Returned false), with_world st (emit caller OperationCancelled w1))
      else
        match future_result bucket_name future with
        | Ok deleted =>
            let st1 := completed (with_world st w1) deleted in
            drain versioned bucket_name rest
              (with_world st1
                 (emit caller
                    (DeletedSoFar versioned (deleted_count st1)
                       (completed_batches st1) (batches_created st1))
                    (world st1)))
        | Raise e =>
            drain versioned bucket_name rest
              (with_world st
                 (emit caller (ErrorInBatch e) (log (LogDeletionThread e) w1)))
        end
  end.

(** What follows the page loop in both functions: the paginator's
    exception when it ends with one, else the summary, the draining loop
    and the final message; and the [except ClientError] clause. *)
Definition finish (versioned : bool) (bucket_name : string)
           (failure : option Exn) (r : option Exit * CleanState)
  : Exit * CleanState :=
  match r with
  | (Some exit, st) => (exit, st)
  | (None, st) =>
      match failure with
      | Some e =>
          if is_ClientError e
          then (Returned false,
                with_world st
                  (emit caller (ErrorDeleting versioned e)
                     (log (LogDeleting versioned e) (world st))))
          else (Raised e, st)
      | None =>
          let st1 :=
            with_world st
              (emit caller (TotalBatches (pages_processed st) (batches_created st))
                 (world st)) in
          match drain versioned bucket_name (as_completed pool _ (futures st1)) st1 with
          | (Some exit, st2) => (exit, st2)
          | (None, st2) =>
              (Returned true,
               with_world st2
                 (emit caller (CleanupCompleted versioned (deleted_count st2))
                    (world st2)))
          end
      end
  end.

(** [_clean_non_versioned_bucket], lines 200-292.
    [ThreadPoolExecutor(max_workers=n)] raises [ValueError] for [n <= 0]. *)
Definition _clean_non_versioned_bucket (bucket_name : string) (w : World)
  : Exit * CleanState :=
  let st := start (emit caller (DeletingStarted false (max_workers caller)) w) in
  if (max_workers caller <=? 0)%Z
  then (Raised (ValueError "max_workers must be greater than 0"), st)
  else
    let paginator := list_objects_v2 s3 bucket_name None in
    finish false bucket_name (failure paginator)
           (page_loop false plain_items (pages paginator) st).

(** [_clean_versioned_bucket], lines 294-398. *)
Definition _clean_versioned_bucket (bucket_name : string) (w : World)
  : Exit * CleanState :=
  let st := start (emit caller (DeletingStarted true (max_workers caller)) w) in
  if (max_workers caller <=? 0)%Z
  then (Raised (ValueError "max_workers must be greater than 0"), st)
  else
    let paginator := list_object_versions s3 bucket_name None in
    finish true bucket_name (failure paginator)
           (page_loop true versioned_items (pages paginator) st).

(** The [except Exception] clause of [clean_bucket], lines 175-180. *)
Definition clean_failed (e : Exn) (st : CleanState) : Exit * CleanState :=
  (Returned false,
   with_world st (emit caller (ErrorCleaning e) (log (LogCleaningBucket e) (world st)))).

(** [clean_bucket], lines 142-180. *)
Definition clean_bucket (bucket_name : string) : Exit * CleanState :=
  let w0 := emit caller (VerifyingBucket bucket_name) world0 in
  match bucket_exists s3 bucket_name with
  | Raise e => clean_failed e (start w0)
  | Ok false => (Returned false, start (emit caller (ErrorNoBucket bucket_name) w0))
  | Ok true =>
      match is_versioned s3 bucket_name w0 with
      | (Raise e, w1) => clean_failed e (start w1)
      | (Ok versioned, w1) =>
          let w2 := emit caller (VersioningReport versioned) w1 in
          match (if versioned
                 then _clean_versioned_bucket bucket_name w2
                 else _clean_non_versioned_bucket bucket_name w2) with
          | (Raised e, st) => clean_failed e st
          | r => r
          end
      end
  end.

(** What the workers log during a run. *)
Definition worker_log (bucket_name : string) (st : CleanState) : list LogRecord :=
  flat_map (fun batch => batch_log (_delete_batch bucket_name batch)) (executed st).

(** [count_objects], lines 108-140. *)
Definition count_objects (bucket_name : string) (prefix : option string) (w : World)
  : Res Counts * World :=
  let prefix := Some match prefix with
                     | Some p => p
                     | None => EmptyString
                     end in
  let failed e w := (Raise e, if is_ClientError e then log (LogCountingObjects e) w else w) in
  let plain := list_objects_v2 s3 bucket_name prefix in
  let objects :=
    list_sum (map (fun page => List.length (get_list (Contents page))) (pages plain)) in
  match failure plain with
  | Some e => failed e w
  | None =>
      match is_versioned s3 bucket_name w with
      | (Raise e, w1) => failed e w1
      | (Ok false, w1) =>
          (Ok {| objects := objects; versions := 0; delete_markers := 0 |}, w1)
      | (Ok true, w1) =>
          let listing := list_object_versions s3 bucket_name prefix in
          match failure listing with
          | Some e => failed e w1
          | None =>
              (Ok {| objects := objects;
                     versions :=
                       list_sum (map (fun page => List.length (get_list (Versions page)))
                                     (pages listing));
                     delete_markers :=
                       list_sum (map (fun page => List.length (get_list (DeleteMarkers page)))
                                     (pages listing)) |}, w1)
          end
      end
  end.

End WithEnv.

(** *** Vocabulary of the properties *)

(** What a step that submits the batches [bs] and nothing else does. *)
Definition submits (bs : list (list WorkItem)) (st st' : CleanState) : Prop :=
  futures st' = futures st ++ bs /\
  batches_created st' = batches_created st + length bs /\
  pages_processed st' = pages_processed st /\
  revoked st' = revoked st /\
  completed_batches st' = completed_batches st /\
  deleted_count st' = deleted_count st /\
  cancel_polls (world st') = cancel_polls (world st).

Section Batches.
Context {P : Type}.
Variable items_of : P -> list WorkItem.

(** The batches of a sequence of pages, page after page. *)
Definition batches_of (pgs : list P) : list (list WorkItem) :=
  flat_map (fun page => split_batches (items_of page)) pgs.

(** The locals of the page loop once it has gone through [done]. *)
Definition tallies (done : list P) (st : CleanState) : Prop :=
  pages_processed st = length done /\
  futures st = batches_of done /\
  batches_created st = length (futures st) /\
  completed_batches st = 0 /\
  deleted_count st = 0.

End Batches.

Section Runs.
Variable s3 : S3Client.
Variable caller : Caller.
Variable pool : Pool.
Variable fuel : nat.

(** What the store reports deleted for a batch. *)
Definition reported (bucket_name : string) (batch : list WorkItem) : nat :=
  batch_deleted (_delete_batch s3 bucket_name batch).




(** What a run of one of the two cleaning functions establishes, for the
    entries [page_items] of the pages of its listing. *)
Definition run_facts (page_items : list (list WorkItem)) (failure : option Exn)
           (bucket_name : string) (exit : Exit) (st : CleanState) : Prop :=
  exists done rest,
    page_items = done ++ rest /\
    pages_processed st = length done /\
    futures st = flat_map split_batches done /\
    batches_created st = length (futures st) /\
    (revoked st = [] \/
     (exit = Returned false /\ rest <> [] /\
      revoked st = cancel_all pool (futures st))) /\
    (exit = Returned false \/ unobserved caller (cancel_polls (world st))) /\
    (never_cancelled caller -> pause_released caller fuel -> exit <> Spinning) /\
    (exit = Returned true ->
     rest = [] /\ failure = None /\ revoked st = [] /\
     completed_batches st = length (as_completed pool _ (futures st)) /\
     deleted_count st =
       list_sum (map (reported bucket_name) (as_completed pool _ (futures st)))) /\
    (never_cancelled caller -> pause_released caller fuel ->
     (0 < max_workers caller)%Z ->
     rest = [] /\ revoked st = [] /\ (failure = None -> exit = Returned true)).

(** The entries of the pages [clean_bucket] goes through, and the
    exception that ends their listing, on each of its two paths. *)
Definition listed_items (bucket_name : string) (versioned : bool)
  : list (list WorkItem) :=
  if versioned
  then map versioned_items (pages (list_object_versions s3 bucket_name None))
  else map plain_items (pages (list_objects_v2 s3 bucket_name None)).

Definition listing_failure (bucket_name : string) (versioned : bool) : option Exn :=
  if versioned
  then failure (list_object_versions s3 bucket_name None)
  else failure (list_objects_v2 s3 bucket_name None).

(** The answer of the versioning check of [clean_bucket], and the path
    [clean_bucket] takes after it. *)
Definition versioning (bucket_name : string) : Res bool :=
  fst (is_versioned s3 bucket_name world0).

(** Every [delete_objects] call on the bucket answers, and reports the
    whole batch deleted. *)
Definition deletes_whole_batches (bucket_name : string) : Prop :=
  forall batch,
  exists response,
    delete_objects s3 bucket_name batch = Ok response /\
    get_list (Deleted response) = batch.

Definition path (bucket_name : string) : bool :=
  match versioning bucket_name with
  | Ok versioned => versioned
  | Raise _ => false
  end.

End Runs.

End Clean.

(** ** Copying between buckets *)

Module Copy.
Import Store Runtime.

(** A submitted copy: the arguments of [_copy_single_object]. *)
Record CopyTask : Type :=
  { task_source_key : string; task_dest_key : string }.

(** The locals of [copy_objects], with the world. *)
Record CopyState : Type :=
  { world : World;
    futures : list CopyTask;
    revoked : list nat;
    pages_processed : nat;
    total_objects_submitted : nat;
    copied_count : nat;
    completed_count : nat }.

Definition start (w : World) : CopyState :=
  {| world := w; futures := []; revoked := [];
     pages_processed := 0; total_objects_submitted := 0;
     copied_count := 0; completed_count := 0 |}.

Definition with_world (st : CopyState) (w : World) : CopyState :=
  {| world := w; futures := futures st; revoked := revoked st;
     pages_processed := pages_processed st;
     total_objects_submitted := total_objects_submitted st;
     copied_count := copied_count st;
     completed_count := completed_count st |}.

Definition with_revoked (st : CopyState) (r : list nat) : CopyState :=
  {| world := world st; futures := futures st; revoked := r;
     pages_processed := pages_processed st;
     total_objects_submitted := total_objects_submitted st;
     copied_count := copied_count st;
     completed_count := completed_count st |}.

(** [pages_processed += 1] *)
Definition next_page (st : CopyState) : CopyState :=
  {| world := world st; futures := futures st; revoked := revoked st;
     pages_processed := S (pages_processed st);
     total_objects_submitted := total_objects_submitted st;
     copied_count := copied_count st;
     completed_count := completed_count st |}.

(** [executor.submit(self._copy_single_object, ...)],
    [futures.append((future, source_key))] and
    [total_objects_submitted += 1]. *)
Definition submitted (st : CopyState) (task : CopyTask) : CopyState :=
  {| world := world st; futures := futures st ++ [task]; revoked := revoked st;
     pages_processed := pages_processed st;
     total_objects_submitted := S (total_objects_submitted st);
     copied_count := copied_count st;
     completed_count := completed_count st |}.

(** [completed_count += 1], with [copied_count += 1] for a copy that
    succeeded. *)
Definition completed (st : CopyState) (success : bool) : CopyState :=
  {| world := world st; futures := futures st; revoked := revoked st;
     pages_processed := pages_processed st;
     total_objects_submitted := total_objects_submitted st;
     copied_count := if success then S (copied_count st) else copied_count st;
     completed_count := S (completed_count st) |}.

Definition executed (st : CopyState) : list CopyTask :=
  not_revoked (revoked st) (futures st).

Section WithEnv.
Variable s3 : S3Client.
Variable caller : Caller.
Variable pool : Pool.
Variable fuel : nat.

(** [_copy_single_object], lines 400-413. *)
Definition _copy_single_object (source_bucket source_key dest_bucket dest_key : string)
  : bool * list LogRecord :=
  match copy_object s3 source_bucket source_key dest_bucket dest_key with
  | Ok _ => (true, [])
  | Raise e => (false, [LogCopyItem source_key e])
  end.

(** [future.result()] of a future of [_copy_single_object]. *)
Definition future_result (source_bucket dest_bucket : string) (task : CopyTask)
  : Res bool :=
  Ok (fst (_copy_single_object source_bucket (task_source_key task)
             dest_bucket (task_dest_key task))).

(** Lines 488-510: one object of a page, on the normalised prefixes. *)
Definition submit_object (source_prefix dest_prefix : string)
           (st : CopyState) (obj : ObjectSummary) : CopyState :=
  let source_key := obj_Key obj in
  let relative_key := DestKey.relative_key source_prefix source_key in
  let dest_key := DestKey.build_dest_key dest_prefix relative_key in
  submitted st {| task_source_key := source_key; task_dest_key := dest_key |}.

(** [for page in paginator.paginate(...)], lines 467-514. *)
Fixpoint copy_pages (source_prefix dest_prefix : string)
         (pgs : list ObjectPage) (st : CopyState) : option Exit * CopyState :=
  match pgs with
  | [] => (None, st)
  | page :: rest =>
      let (cancelled, w1) := poll_cancel caller (world st) in
      if cancelled
      then (Some (Returned false),
            with_revoked (with_world st (emit caller OperationCancelled w1))
                         (cancel_all pool (futures st)))
      else
        match wait_while_paused caller fuel w1 with
        | (CancelledWhilePaused, w2) => (Some (Returned false), with_world st w2)
        | (StillPaused, w2) => (Some Spinning, with_world st w2)
        | (Resumed, w2) =>
            match Contents page with
            | None => copy_pages source_prefix dest_prefix rest (with_world st w2)
            | Some contents =>
                let st1 :=
                  fold_left (submit_object source_prefix dest_prefix) contents
                            (next_page (with_world st w2)) in
                copy_pages source_prefix dest_prefix rest
                  (with_world st1
                     (emit caller
                        (CopyPage (pages_processed st1) (List.length contents)
                                  (total_objects_submitted st1))
                        (world st1)))
            end
        end
  end.

(** [for future in as_completed([f for f, _ in futures])],
    lines 522-551. *)
Fixpoint drain (source_bucket dest_bucket : string)
         (done : list CopyTask) (st : CopyState) : option Exit * CopyState :=
  match done with
  | [] => (None, st)
  | future :: rest =>
      let (cancelled, w1) := poll_cancel caller (world st) in
      if cancelled
      then (Some (Returned false), with_world st (emit caller OperationCancelled w1))
      else
        match wait_while_paused caller fuel w1 with
        | (CancelledWhilePaused, w2) => (Some (Returned false), with_world st w2)
        | (StillPaused, w2) => (Some Spinning, with_world st w2)
        | (Resumed, w2) =>
            match future_result source_bucket dest_bucket future with
            | Ok true =>
                let st1 := completed (with_world st w2) true in
                drain source_bucket dest_bucket rest
                  (with_world st1
                     (emit_if caller (copied_count st1 mod 50 =? 0)
                        (CopiedSoFar (copied_count st1) (completed_count st1)
                                     (total_objects_submitted st1))
                        (world st1)))
            | Ok false =>
                drain source_bucket dest_bucket rest
                  (completed (with_world st (log LogCopyFailed w2)) false)
            | Raise e =>
                drain source_bucket dest_bucket rest
                  (completed
                     (with_world st
                        (emit caller (ErrorCopyingObject e) (log (LogCopyThread e) w2)))
                     false)
            end
        end
  end.

(** The [except Exception] clause of [copy_objects], lines 558-563. *)
Definition copy_failed (e : Exn) (st : CopyState) : Exit * CopyState :=
  (Returned false,
   with_world st (emit caller (ErrorCopying e) (log (LogCopyingObjects e) (world st)))).

(** [copy_objects], lines 415-563. *)
Definition copy_objects (source_bucket source_prefix dest_bucket dest_prefix : string)
  : Exit * CopyState :=
  let w0 := emit caller VerifyingBuckets world0 in
  match bucket_exists s3 source_bucket with
  | Raise e => copy_failed e (start w0)
  | Ok false =>
      (Returned false, start (emit caller (ErrorNoSourceBucket source_bucket) w0))
  | Ok true =>
      match bucket_exists s3 dest_bucket with
      | Raise e => copy_failed e (start w0)
      | Ok false =>
          (Returned false, start (emit caller (ErrorNoDestBucket dest_bucket) w0))
      | Ok true =>
          let source_prefix := DestKey.normalize_prefix source_prefix in
          let dest_prefix := DestKey.normalize_prefix dest_prefix in
          let st := start (emit caller (CopyingStarted (max_workers caller)) w0) in
          if (max_workers caller <=? 0)%Z
          then copy_failed (ValueError "max_workers must be greater than 0") st
          else
            let paginator := list_objects_v2 s3 source_bucket (Some source_prefix) in
            match copy_pages source_prefix dest_prefix (pages paginator) st with
            | (Some exit, st1) => (exit, st1)
            | (None, st1) =>
                match failure paginator with
                | Some e => copy_failed e st1
                | None =>
                    let st2 :=
                      with_world st1
                        (emit caller
                           (TotalQueued (pages_processed st1) (total_objects_submitted st1))
                           (world st1)) in
                    match drain source_bucket dest_bucket
                                (as_completed pool _ (futures st2)) st2 with
                    | (Some exit, st3) => (exit, st3)
                    | (None, st3) =>
                        (Returned true,
                         with_world st3
                           (emit caller (CopyCompleted (copied_count st3)) (world st3)))
                    end
                end
            end
      end
  end.

(** What the workers log during a run. *)
Definition worker_log (source_bucket dest_bucket : string) (st : CopyState)
  : list LogRecord :=
  flat_map (fun task =>
              snd (_copy_single_object source_bucket (task_source_key task)
                     dest_bucket (task_dest_key task)))
           (executed st).

End WithEnv.

(** *** Vocabulary of the properties *)

(** The copy submitted for one listed object, on the normalised prefixes. *)
Definition task_of (source_prefix dest_prefix : string) (obj : ObjectSummary) : CopyTask :=
  {| task_source_key := obj_Key obj;
     task_dest_key :=
       DestKey.build_dest_key dest_prefix
         (DestKey.relative_key source_prefix (obj_Key obj)) |}.

(** The copies of a sequence of pages, page after page. *)
Definition tasks_of (source_prefix dest_prefix : string) (pgs : list ObjectPage)
  : list CopyTask :=
  flat_map (fun page => map (task_of source_prefix dest_prefix) (get_list (Contents page)))
           pgs.

(** What a run of [copy_objects] establishes, for the listing [listing] of
    the source bucket under the normalised prefixes. *)
Definition copy_facts (caller : Caller) (pool : Pool) (fuel : nat)
           (source_prefix dest_prefix : string) (listing : Paginated ObjectPage)
           (exit : Exit) (st : CopyState) : Prop :=
  exists done rest,
    pages listing = done ++ rest /\
    futures st = tasks_of source_prefix dest_prefix done /\
    (revoked st = [] \/
     (exit = Returned false /\ revoked st = cancel_all pool (futures st))) /\
    (exit = Returned false \/ unobserved caller (cancel_polls (world st))) /\
    (never_cancelled caller -> pause_released caller fuel -> exit <> Spinning) /\
    (exit = Returned true ->
     rest = [] /\ failure listing = None /\ revoked st = [] /\
     completed_count st = length (as_completed pool _ (futures st))) /\
    (never_cancelled caller -> pause_released caller fuel ->
     (0 < max_workers caller)%Z ->
     rest = [] /\ revoked st = [] /\ (failure listing = None -> exit = Returned true)).


End Copy.

(** ** Concrete stores, callers and pools *)

Module Demo.
Import Store Runtime.

Definition key (i : nat) : string :=
  String "k" (NilEmpty.string_of_uint (Nat.to_uint i)).

(** [n] entries of a plain listing, numbered from [first]. *)
Definition objects (first n : nat) : list ObjectSummary :=
  map (fun i => {| obj_Key := key i |}) (seq first n).

Definition page (first n : nat) : ObjectPage :=
  {| Contents := Some (objects first n) |}.

(** A store call that deletes the whole batch. *)
Definition delete_all (bucket : string) (batch : list WorkItem) : Res DeleteResponse :=
  Ok {| Deleted := Some batch; Errors := None |}.

(** A bucket without versioning whose listing is [pgs]. *)
Definition plain_store (pgs : list ObjectPage) : S3Client :=
  {| head_bucket := fun _ => Ok tt;
     get_bucket_versioning := fun _ => Ok None;
     list_objects_v2 := fun _ _ => {| pages := pgs; failure := None |};
     list_object_versions := fun _ _ => {| pages := []; failure := None |};
     delete_objects := delete_all;
     copy_object := fun _ _ _ _ => Ok tt |}.


(** A caller with a progress callback, ten workers and no flags. *)
Definition plain_caller : Caller :=
  {| progress_callback := true; max_workers := 10;
     cancel_flag := None; pause_flag := None |}.

(** A caller with one worker whose [cancel_flag] answers true from its
    [n]-th call on. *)
Definition cancelling_caller (n : nat) : Caller :=
  {| progress_callback := true; max_workers := 1;
     cancel_flag := Some (fun k => n <=? k); pause_flag := None |}.

(** A pool that completes the futures in submission order and has started
    every future but those at the positions [queued]. *)
Definition pool_with_queued (queued : list nat) : Pool :=
  {| queued_at_cancel := fun i => existsb (Nat.eqb i) queued;
     as_completed := fun _ l => l |}.

(** A pool that completes the futures in reverse order. *)
Definition reversing_pool : Pool :=
  {| queued_at_cancel := fun _ => false;
     as_completed := fun _ l => rev l |}.




(** A bucket whose versioning query raises [e] and whose plain listing is
    [pgs]. *)
Definition probe_failing_store (e : Exn) (pgs : list ObjectPage) : S3Client :=
  {| head_bucket := fun _ => Ok tt;
     get_bucket_versioning := fun _ => Raise e;
     list_objects_v2 := fun _ _ => {| pages := pgs; failure := None |};
     list_object_versions := fun _ _ => {| pages := []; failure := None |};
     delete_objects := delete_all;
     copy_object := fun _ _ _ _ => Ok tt |}.

(** A bucket without versioning whose listing yields [pgs] and then raises
    [e]. *)
Definition listing_failing_store (pgs : list ObjectPage) (e : Exn) : S3Client :=
  {| head_bucket := fun _ => Ok tt;
     get_bucket_versioning := fun _ => Ok None;
     list_objects_v2 := fun _ _ => {| pages := pgs; failure := Some e |};
     list_object_versions := fun _ _ => {| pages := []; failure := None |};
     delete_objects := delete_all;
     copy_object := fun _ _ _ _ => Ok tt |}.

(** A bucket without versioning whose [delete_objects] and [copy_object]
    calls all raise. *)
Definition refusing_store (pgs : list ObjectPage) : S3Client :=
  {| head_bucket := fun _ => Ok tt;
     get_bucket_versioning := fun _ => Ok None;
     list_objects_v2 := fun _ _ => {| pages := pgs; failure := None |};
     list_object_versions := fun _ _ => {| pages := []; failure := None |};
     delete_objects := fun _ _ => Raise (ClientError "AccessDenied");
     copy_object := fun _ _ _ _ => Raise (ClientError "AccessDenied") |}.


End Demo.

(** ** Shapes of keys and prefixes *)

Module Keys.
Import PyStr.

(** The string does not start with a slash. *)
Definition no_leading_slash (s : string) : Prop :=
  match s with
  | EmptyString => True
  | String c _ => is_slash c = false
  end.

(** [p + "/" + rest] *)
Definition under (p rest : string) : string :=
  (p ++ String "/" rest)%string.

End Keys.

(** ** The operation thread of the interface ([gui.py]) *)

Module Gui.
Import Store Runtime.

(** [operation_type] with the keyword arguments the window passes. *)
Inductive Operation : Type :=
| CleanOperation (bucket_name : string)
| CopyOperation (source_bucket source_prefix dest_bucket dest_prefix : string)
| OtherOperation.

(** The text of the [finished] signal. *)
Inductive FinishedMessage : Type :=
| CancelledByUser
| CleanupCompletedSuccessfully
| ErrorDuringCleanup
| CopyCompletedSuccessfully
| ErrorDuringCopy
| ErrorText (e : Exn).

(** How [S3OperationThread.run] ends: with the [finished] signal, without
    it (an operation type that is neither ['clean'] nor ['copy']), or not at
    all (the engine still in its pause loop). *)
Inductive RunEnd : Type :=
| Finished (success : bool) (message : FinishedMessage)
| NoSignal
| StillRunning.

(** The arguments [run] gives the engine: its own [_progress_callback], and
    the lambdas reading [_cancelled] and [_paused]. *)
Definition thread_caller (max_workers : Z) (cancelled paused : nat -> bool) : Caller :=
  {| progress_callback := true;
     max_workers := max_workers;
     cancel_flag := Some cancelled;
     pause_flag := Some paused |}.

(** Lines 64-68 and 82-86: what is signalled once the engine has returned,
    [cancelled_now] being [self._cancelled] at that moment. *)
Definition report (cancelled_now : bool) (succeeded failed : FinishedMessage)
           (exit : Exit) : RunEnd :=
  match exit with
  | Returned success =>
      if cancelled_now then Finished false CancelledByUser
      else Finished success (if success then succeeded else failed)
  | Raised e => Finished false (ErrorText e)
  | Spinning => StillRunning
  end.

(** [S3OperationThread.run], lines 50-91.  [connect] is what building the
    [S3Cleaner] gives: the client, or the exception of [_connect]. *)
Definition run (connect : Res S3Client) (max_workers : Z)
           (cancelled paused : nat -> bool) (cancelled_now : bool)
           (pool : Pool) (fuel : nat) (operation : Operation) : RunEnd :=
  match connect with
  | Raise e => Finished false (ErrorText e)
  | Ok s3 =>
      let caller := thread_caller max_workers cancelled paused in
      match operation with
      | CleanOperation bucket_name =>
          report cancelled_now CleanupCompletedSuccessfully ErrorDuringCleanup
                 (fst (Clean.clean_bucket s3 caller pool fuel bucket_name))
      | CopyOperation source_bucket source_prefix dest_bucket dest_prefix =>
          report cancelled_now CopyCompletedSuccessfully ErrorDuringCopy
                 (fst (Copy.copy_objects s3 caller pool fuel
                         source_bucket source_prefix dest_bucket dest_prefix))
      | OtherOperation => NoSignal
      end
  end.

(** What the engine returns for an operation of [run], with the number of
    calls it has made to [cancel_flag]. *)
Definition engine (s3 : S3Client) (caller : Caller) (pool : Pool) (fuel : nat)
           (operation : Operation) : option (Exit * nat) :=
  match operation with
  | CleanOperation bucket_name =>
      let r := Clean.clean_bucket s3 caller pool fuel bucket_name in
      Some (fst r, cancel_polls (Clean.world (snd r)))
  | CopyOperation source_bucket source_prefix dest_bucket dest_prefix =>
      let r := Copy.copy_objects s3 caller pool fuel
                 source_bucket source_prefix dest_bucket dest_prefix in
      Some (fst r, cancel_polls (Copy.world (snd r)))
  | OtherOperation => None
  end.

(** The text signalled for an operation that succeeded, and for one that
    failed. *)
Definition succeeded (operation : Operation) : FinishedMessage :=
  match operation with
  | CopyOperation _ _ _ _ => CopyCompletedSuccessfully
  | _ => CleanupCompletedSuccessfully
  end.

Definition failed (operation : Operation) : FinishedMessage :=
  match operation with
  | CopyOperation _ _ _ _ => ErrorDuringCopy
  | _ => ErrorDuringCleanup
  end.

End Gui.

(** ** Tallies of a copy *)

Module Tally.
Import Store Runtime.

(** Whether the copy of a task succeeds. *)
Definition copy_succeeds (s3 : S3Client) (source_bucket dest_bucket : string)
           (task : Copy.CopyTask) : bool :=
  fst (Copy._copy_single_object s3 source_bucket (Copy.task_source_key task)
         dest_bucket (Copy.task_dest_key task)).

(** The number of tasks whose copy succeeds. *)
Definition successes (s3 : S3Client) (source_bucket dest_bucket : string)
           (tasks : list Copy.CopyTask) : nat :=
  list_sum (map (fun task => Nat.b2n (copy_succeeds s3 source_bucket dest_bucket task))
                tasks).

(** The keys listed on a page. *)
Definition keys_of (page : ObjectPage) : list string :=
  map obj_Key (get_list (Contents page)).



(** The copy of the object [source_key], for the prefixes [copy_objects] is
    called with. *)
Definition copy_of (source_prefix dest_prefix source_key : string) : Copy.CopyTask :=
  {| Copy.task_source_key := source_key;
     Copy.task_dest_key := DestKey.dest_key source_prefix dest_prefix source_key |}.

End Tally.


(** ** Progress messages of the draining loops *)

Module Trace.
Import Store Runtime.

(** The messages of the loop over the completed futures of a cleaning run
    (lines 262-276 and 368-382): one per future, with the counts as they
    stand after it; [results] holds what the futures return, in completion
    order. *)
Fixpoint deleted_so_far (versioned : bool) (batches_created : nat)
         (deleted_count completed_batches : nat) (results : list nat) : list Msg :=
  match results with
  | [] => []
  | deleted :: rest =>
      DeletedSoFar versioned (deleted_count + deleted) (S completed_batches) batches_created
      :: deleted_so_far versioned batches_created
           (deleted_count + deleted) (S completed_batches) rest
  end.

(** None of the messages tells of a cancellation. *)
Definition silent (w : World) : Prop := ~ In OperationCancelled (progress w).

End Trace.



(** ** Runs compared up to the calls made to the flags *)

Module Quiet.
Import Store Runtime.

(** The caller with both flags left out. *)
Definition without_flags (caller : Caller) : Caller :=
  {| progress_callback := progress_callback caller;
     max_workers := max_workers caller;
     cancel_flag := None;
     pause_flag := None |}.

(** Two worlds with the same messages and the same log records: they
    differ at most in the number of calls made to the flags. *)
Definition same_world (w w' : World) : Prop :=
  progress w = progress w' /\ logged w = logged w'.

Definition same_clean (st st' : Clean.CleanState) : Prop :=
  Clean.futures st = Clean.futures st' /\
  Clean.revoked st = Clean.revoked st' /\
  Clean.pages_processed st = Clean.pages_processed st' /\
  Clean.batches_created st = Clean.batches_created st' /\
  Clean.completed_batches st = Clean.completed_batches st' /\
  Clean.deleted_count st = Clean.deleted_count st' /\
  same_world (Clean.world st) (Clean.world st').

Definition same_copy (st st' : Copy.CopyState) : Prop :=
  Copy.futures st = Copy.futures st' /\
  Copy.revoked st = Copy.revoked st' /\
  Copy.pages_processed st = Copy.pages_processed st' /\
  Copy.total_objects_submitted st = Copy.total_objects_submitted st' /\
  Copy.copied_count st = Copy.copied_count st' /\
  Copy.completed_count st = Copy.completed_count st' /\
  same_world (Copy.world st) (Copy.world st').

End Quiet.



(** ** The account: [test_connection] and [list_buckets] (lines 46-73) *)

Module Account.
Import Store.

(** An entry of [response['Buckets']]. *)
Record Bucket : Type := { Name : string }.

(** The response of [s3_client.list_buckets()]. *)
Record ListBucketsResponse : Type := { Buckets : option (list Bucket) }.

(** The records the two functions write to the module's [logger]. *)
Inductive AccountLog : Type :=
| LogConnectionError (e : Exn)
| LogListingBuckets (e : Exn).

(** [except (ClientError, NoCredentialsError)] *)
Definition is_caught (e : Exn) : bool :=
  match e with
  | ClientError _ | NoCredentialsError => true
  | _ => false
  end.

(** [sorted(l)] on strings, which Python compares character by character:
    each name is inserted before the first name that is not smaller. *)
Fixpoint insert (s : string) (l : list string) : list string :=
  match l with
  | [] => [s]
  | x :: l' => if String.leb s x then s :: l else x :: insert s l'
  end.

Fixpoint sorted (l : list string) : list string :=
  match l with
  | [] => []
  | x :: l' => insert x (sorted l')
  end.

(** [test_connection], lines 46-58; [call] is what
    [self.s3_client.list_buckets()] does. *)
Definition test_connection (call : Res ListBucketsResponse)
  : Res bool * list AccountLog :=
  match call with
  | Ok _ => (Ok true, [])
  | Raise e =>
      if is_caught e then (Ok false, [LogConnectionError e]) else (Raise e, [])
  end.

(** [list_buckets], lines 60-73. *)
Definition list_buckets (call : Res ListBucketsResponse)
  : Res (list string) * list AccountLog :=
  match call with
  | Ok response => (Ok (sorted (map Name (get_list (Buckets response)))), [])
  | Raise e =>
      if is_caught e then (Ok [], [LogListingBuckets e]) else (Raise e, [])
  end.

End Account.



(** * Properties *)

Ltac splits := repeat match goal with |- _ /\ _ => split end.

(** ** Batches *)

Section Chunks.
Context {A : Type}.

Lemma firstn_plus (a b : nat) (l : list A) :
  firstn (a + b) l = firstn a l ++ firstn b (skipn a l).
Proof.
  revert l; induction a as [|a IH]; intros l; simpl.
  - reflexivity.
  - destruct l as [|x l]; simpl.
    + now rewrite firstn_nil.
    + now rewrite IH.
Qed.

Lemma slice_step (l : list A) (i s : nat) :
  PyList.slice l i (i + s) = firstn s (skipn i l).
Proof. unfold PyList.slice. now replace (i + s - i) with s by lia. Qed.

Lemma chunks_prefix (s n : nat) (l : list A) :
  concat (map (fun i => PyList.slice l i (i + s)) (map (fun k => k * s) (seq 0 n)))
  = firstn (n * s) l.
Proof.
  induction n as [|n IH].
  - reflexivity.
  - rewrite seq_S, !map_app, concat_app, IH. simpl.
    rewrite app_nil_r, slice_step.
    replace (s + n * s) with (n * s + s) by lia.
    now rewrite firstn_plus.
Qed.

Lemma range0_covers (stop s : nat) :
  0 < s -> stop <= (stop + s - 1) / s * s.
Proof.
  intros Hs.
  pose proof (Nat.div_mod_eq (stop + s - 1) s) as E.
  pose proof (Nat.mod_upper_bound (stop + s - 1) s ltac:(lia)) as B.
  nia.
Qed.

Lemma split_batches_concat (l : list A) : concat (split_batches l) = l.
Proof.
  unfold split_batches, PyList.range0.
  rewrite chunks_prefix. apply firstn_all2.
  apply range0_covers. unfold batch_limit. lia.
Qed.

Lemma split_batches_bound (l : list A) :
  Forall (fun batch => List.length batch <= batch_limit) (split_batches l).
Proof.
  unfold split_batches. apply Forall_forall. intros batch Hin.
  apply in_map_iff in Hin. destruct Hin as [i [<- _]].
  rewrite slice_step. apply firstn_le_length.
Qed.

Lemma split_batches_nil : split_batches (@nil A) = [].
Proof. reflexivity. Qed.

Lemma split_batches_single (l : list A) :
  0 < List.length l <= batch_limit -> split_batches l = [l].
Proof.
  intros [Hpos Hle]. unfold split_batches, PyList.range0.
  assert (E : (List.length l + batch_limit - 1) / batch_limit = 1).
  { symmetry. apply Nat.div_unique with (r := List.length l - 1);
      unfold batch_limit in *; lia. }
  rewrite E. cbn [seq map]. rewrite slice_step, Nat.mul_0_l, skipn_O.
  now rewrite firstn_all2 by lia.
Qed.

Lemma split_batches_within (l batch : list A) (x : A) :
  In batch (split_batches l) -> In x batch -> In x l.
Proof.
  intros Hb Hx. rewrite <- (split_batches_concat l).
  apply in_concat. now exists batch.
Qed.

End Chunks.

(** ** Destination keys *)

Section DestKeyFacts.
Import PyStr DestKey.
Local Open Scope string_scope.

Lemma slice_from_app (p rest : string) :
  slice_from (String.length p) (p ++ rest) = rest.
Proof. induction p as [|c p IH]; simpl; [now destruct rest | exact IH]. Qed.

Lemma normalize_prefix_strip (p : string) : normalize_prefix p = strip p.
Proof. now destruct p. Qed.

Lemma truthy_false (s : string) : truthy s = false -> s = "".
Proof. now destruct s. Qed.

Lemma relative_key_of_listed (sp rest : string) :
  relative_key sp (sp ++ rest) = if truthy sp then lstrip rest else rest.
Proof.
  unfold relative_key. destruct (truthy sp) eqn:E.
  - now rewrite slice_from_app.
  - now rewrite (truthy_false _ E).
Qed.

End DestKeyFacts.

(** ** Flags *)

Section FlagFacts.
Import Store Runtime.
Variable caller : Caller.

Lemma observed_not_unobserved (n : nat) : observed caller n -> unobserved caller n -> False.
Proof.
  intros (f & k & Hf & Hk & Ht) Hu. specialize (Hu f Hf k Hk). congruence.
Qed.

Lemma never_cancelled_unobserved (n : nat) : never_cancelled caller -> unobserved caller n.
Proof. intros H f Hf k _. now apply (H f). Qed.

Lemma cancel_polls_emit m w : cancel_polls (emit caller m w) = cancel_polls w.
Proof. unfold emit. now destruct (progress_callback caller). Qed.

Lemma pause_polls_emit m w : pause_polls (emit caller m w) = pause_polls w.
Proof. unfold emit. now destruct (progress_callback caller). Qed.

Lemma cancel_polls_emit_if c m w : cancel_polls (emit_if caller c m w) = cancel_polls w.
Proof. destruct c; simpl; [apply cancel_polls_emit | reflexivity]. Qed.

Lemma pause_polls_emit_if c m w : pause_polls (emit_if caller c m w) = pause_polls w.
Proof. destruct c; simpl; [apply pause_polls_emit | reflexivity]. Qed.

Lemma poll_cancel_spec (w : World) :
  let r := poll_cancel caller w in
  pause_polls (snd r) = pause_polls w /\
  cancel_polls w <= cancel_polls (snd r) /\
  (unobserved caller (cancel_polls w) -> fst r = false -> unobserved caller (cancel_polls (snd r))) /\
  (fst r = true -> observed caller (cancel_polls (snd r))) /\
  (never_cancelled caller -> fst r = false).
Proof.
  unfold poll_cancel. destruct (cancel_flag caller) as [f|] eqn:Ef; simpl.
  - split; [reflexivity|]. split; [lia|]. split; [|split].
    + intros Hu Hfalse g Hg k Hk. rewrite Ef in Hg. injection Hg as <-.
      destruct (Nat.eq_dec k (cancel_polls w)) as [->|Hne]; [assumption|].
      apply (Hu f); [assumption | lia].
    + intros Ht. exists f, (cancel_polls w). repeat split; auto.
    + intros Hn. now apply (Hn f).
  - split; [reflexivity|]. split; [lia|]. split; [|split]; auto; discriminate.
Qed.

Lemma poll_cancel_keeps (w : World) :
  progress (snd (poll_cancel caller w)) = progress w /\
  logged (snd (poll_cancel caller w)) = logged w.
Proof. unfold poll_cancel. now destruct (cancel_flag caller). Qed.

Lemma poll_pause_spec (w : World) :
  let r := poll_pause caller w in
  cancel_polls (snd r) = cancel_polls w /\
  progress (snd r) = progress w /\
  logged (snd r) = logged w /\
  pause_polls w <= pause_polls (snd r) /\
  (forall f, pause_flag caller = Some f ->
             fst r = f (pause_polls w) /\ pause_polls (snd r) = S (pause_polls w)) /\
  (pause_flag caller = None -> fst r = false).
Proof.
  unfold poll_pause. destruct (pause_flag caller) as [f|]; simpl.
  - repeat split; auto; try discriminate; injection H as <-; reflexivity.
  - repeat split; auto; discriminate.
Qed.

Lemma wait_while_paused_spec (n : nat) :
  forall w,
    let r := wait_while_paused caller n w in
    cancel_polls w <= cancel_polls (snd r) /\
    progress (snd r) = progress w /\
    logged (snd r) = logged w /\
    (fst r = CancelledWhilePaused -> observed caller (cancel_polls (snd r))) /\
    (unobserved caller (cancel_polls w) -> fst r <> CancelledWhilePaused ->
     unobserved caller (cancel_polls (snd r))).
Proof.
  induction n as [|n IH]; intros w; simpl;
    destruct (poll_pause_spec w) as (Hc & Hp & Hl & _);
    destruct (poll_pause caller w) as [paused w1]; simpl in *;
    destruct paused; simpl;
    try (rewrite Hc; splits; auto; (lia || discriminate)).
  destruct (poll_cancel_spec w1) as (_ & Hle & Hu & Ho & _).
  destruct (poll_cancel_keeps w1) as (Hp2 & Hl2).
  destruct (poll_cancel caller w1) as [c w2]; simpl in *.
  destruct c; simpl.
  - splits; try lia; try congruence; auto.
  - specialize (IH w2). simpl in IH.
    destruct IH as (IH1 & IH2 & IH3 & IH4 & IH5).
    splits; try lia; try congruence; auto.
    intros Hun. apply IH5, Hu; auto. now rewrite Hc.
Qed.

Lemma wait_while_paused_resumes (fuel : nat) :
  never_cancelled caller -> pause_released caller fuel ->
  forall w, fst (wait_while_paused caller fuel w) = Resumed.
Proof.
  intros Hn Hp.
  assert (G : forall n w,
             (forall f, pause_flag caller = Some f ->
                        exists k, k <= n /\ f (pause_polls w + k) = false) ->
             fst (wait_while_paused caller n w) = Resumed).
  { induction n as [|n IH]; intros w Hrel; simpl;
      destruct (poll_pause_spec w) as (_ & _ & _ & _ & Hsome & Hnone);
      destruct (poll_pause caller w) as [paused w1]; simpl in *;
      destruct paused; simpl; auto;
      destruct (pause_flag caller) as [f|] eqn:Ef;
      try (specialize (Hnone eq_refl); discriminate);
      destruct (Hsome f eq_refl) as (Hv & Hnext);
      destruct (Hrel f eq_refl) as (k & Hk & Hfalse).
    - replace k with 0 in Hfalse by lia. rewrite Nat.add_0_r in Hfalse. congruence.
    - destruct (poll_cancel_spec w1) as (Hpp & _ & _ & _ & Hnc).
      specialize (Hnc Hn).
      destruct (poll_cancel caller w1) as [c w2]; simpl in *. subst c.
      apply IH. intros g Hg. injection Hg as <-.
      destruct k as [|k].
      + rewrite Nat.add_0_r in Hfalse. congruence.
      + exists k. split; [lia|]. rewrite Hpp, Hnext.
        now replace (S (pause_polls w) + k) with (pause_polls w + S k) by lia. }
  intros w. apply G. intros f Hf. apply (Hp f Hf).
Qed.

End FlagFacts.

(** ** The cleaning loops *)

Section CleanFacts.
Import Store Runtime Clean.
Variable s3 : S3Client.
Variable caller : Caller.
Variable pool : Pool.
Variable fuel : nat.

Local Abbreviation polls st := (cancel_polls (world st)).

Lemma submit_batches_spec (bs : list (list WorkItem)) :
  forall st, submits bs st (fold_left (submit_batch caller) bs st).
Proof.
  induction bs as [|b bs IH]; intros st; simpl.
  - unfold submits. rewrite app_nil_r. splits; auto.
  - destruct (IH (submit_batch caller st b)) as (H1 & H2 & H3 & H4 & H5 & H6 & H7).
    unfold submits. rewrite H1, H2, H3, H4, H5, H6, H7. simpl.
    rewrite cancel_polls_emit_if. simpl.
    rewrite <- app_assoc. splits; auto; lia.
Qed.

Lemma submit_page_spec (st : CleanState) (items : list WorkItem) :
  submits (split_batches items) st (submit_page caller st items).
Proof. apply submit_batches_spec. Qed.

(** How the head of a page's processing leaves the state. *)
Lemma enter_page_spec (st : CleanState) (r : option Exit) (st' : CleanState) :
  enter_page caller pool fuel st = (r, st') ->
  futures st' = futures st /\
  batches_created st' = batches_created st /\
  completed_batches st' = completed_batches st /\
  deleted_count st' = deleted_count st /\
  match r with
  | None =>
      pages_processed st' = S (pages_processed st) /\
      revoked st' = revoked st /\
      (unobserved caller (polls st) -> unobserved caller (polls st'))
  | Some exit =>
      pages_processed st' = pages_processed st /\
      ((exit = Returned false /\ observed caller (polls st') /\
        (revoked st' = revoked st \/ revoked st' = cancel_all pool (futures st)))
       \/ (exit = Spinning /\ revoked st' = revoked st /\
           (unobserved caller (polls st) -> unobserved caller (polls st'))))
  end /\
  (never_cancelled caller -> pause_released caller fuel -> r = None).
Proof.
  unfold enter_page.
  destruct (poll_cancel_spec caller (world st)) as (_ & Hle & Hu & Ho & Hnc).
  destruct (poll_cancel caller (world st)) as [c w1]; simpl in *.
  destruct c.
  - intros E. injection E as <- <-. simpl. rewrite cancel_polls_emit.
    splits; auto.
    intros Hn _. specialize (Hnc Hn). discriminate.
  - destruct (wait_while_paused_spec caller fuel w1) as (Hle2 & _ & _ & Ho2 & Hu2).
    pose proof (fun a b => wait_while_paused_resumes caller fuel a b w1) as Hres.
    destruct (wait_while_paused caller fuel w1) as [p w2]; simpl in *.
    destruct p; intros E; injection E as <- <-; simpl; splits; auto;
      try (intros Hn Hp; specialize (Hres Hn Hp); discriminate).
    + intros Hun. apply Hu2; [auto | discriminate].
    + right. splits; auto. intros Hun. apply Hu2; [auto | discriminate].
Qed.

Section Pages.
Context {P : Type}.
Variable versioned : bool.
Variable items_of : P -> list WorkItem.

Lemma batches_of_snoc (done : list P) (page : P) :
  batches_of items_of (done ++ [page]) = batches_of items_of done ++ split_batches (items_of page).
Proof. unfold batches_of. rewrite flat_map_app. simpl. now rewrite app_nil_r. Qed.

Lemma tallies_submits (done : list P) (page : P) (st st' : CleanState) :
  tallies items_of done st ->
  pages_processed st' = S (length done) ->
  futures st' = futures st ++ split_batches (items_of page) ->
  batches_created st' = batches_created st + length (split_batches (items_of page)) ->
  completed_batches st' = completed_batches st ->
  deleted_count st' = deleted_count st ->
  tallies items_of (done ++ [page]) st'.
Proof.
  intros (T1 & T2 & T3 & T4 & T5) H1 H2 H3 H4 H5. unfold tallies.
  rewrite batches_of_snoc, length_app, H1, H2, H3, H4, H5, T2, T3, T2, length_app.
  simpl. splits; auto; lia.
Qed.

(** One page that is entered: its batches are submitted, nothing else
    changes. *)
Lemma page_body_spec (page : P) (st1 : CleanState) :
  submits (split_batches (items_of page)) st1
    match items_of page with
    | [] =>
        with_world st1
          (emit_if caller (pages_processed st1 mod 10 =? 0)
             (PageWithoutObjects versioned (pages_processed st1)) (world st1))
    | _ :: _ => submit_page caller st1 (items_of page)
    end.
Proof.
  destruct (items_of page) as [|x l] eqn:E.
  - unfold submits. simpl. rewrite app_nil_r, cancel_polls_emit_if.
    splits; auto.
  - apply submit_page_spec.
Qed.

Lemma page_loop_spec (pgs : list P) :
  forall done st r st',
    tallies items_of done st -> revoked st = [] ->
    page_loop caller pool fuel versioned items_of pgs st = (r, st') ->
    exists done' rest',
      done ++ pgs = done' ++ rest' /\ tallies items_of done' st' /\
      match r with
      | None =>
          rest' = [] /\ revoked st' = [] /\
          (unobserved caller (polls st) -> unobserved caller (polls st'))
      | Some exit =>
          (exit = Returned false /\ observed caller (polls st') /\
           (revoked st' = [] \/
            (rest' <> [] /\ revoked st' = cancel_all pool (futures st'))))
          \/ (exit = Spinning /\ revoked st' = [] /\
              (unobserved caller (polls st) -> unobserved caller (polls st')))
      end /\
      (never_cancelled caller -> pause_released caller fuel -> r = None).
Proof.
  induction pgs as [|page rest IH]; intros done st r st' T R E; simpl in E.
  - injection E as <- <-. exists done, []. splits; auto.
  - destruct (enter_page caller pool fuel st) as [r1 st1] eqn:E1.
    apply enter_page_spec in E1.
    destruct E1 as (F1 & F2 & F3 & F4 & F5 & F6).
    destruct r1 as [exit|].
    + injection E as <- <-. exists done, (page :: rest).
      destruct F5 as (F5 & [(-> & Ho & Hr)|(-> & Hr & Hu)]).
      * split; [reflexivity|]. split.
        { destruct T as (T1 & T2 & T3 & T4 & T5). unfold tallies.
          rewrite F1, F2, F3, F4, F5. auto. }
        split; [|intros Hn Hp; specialize (F6 Hn Hp); discriminate].
        left. splits; auto. rewrite F1.
        destruct Hr as [Hr|Hr]; [left; congruence | right; split; [discriminate | congruence]].
      * split; [reflexivity|]. split.
        { destruct T as (T1 & T2 & T3 & T4 & T5). unfold tallies.
          rewrite F1, F2, F3, F4, F5. auto. }
        split; [|intros Hn Hp; specialize (F6 Hn Hp); discriminate].
        right. splits; auto. congruence.
    + destruct F5 as (F5 & Hr & Hu).
      pose proof (page_body_spec page st1) as (B1 & B2 & B3 & B4 & B5 & B6 & B7).
      assert (E' : page_loop caller pool fuel versioned items_of rest
                     match items_of page with
                     | [] =>
                         with_world st1
                           (emit_if caller (pages_processed st1 mod 10 =? 0)
                              (PageWithoutObjects versioned (pages_processed st1))
                              (world st1))
                     | _ :: _ => submit_page caller st1 (items_of page)
                     end = (r, st')).
      { destruct (items_of page); exact E. }
      clear E.
      eapply (IH (done ++ [page])) in E'.
      * destruct E' as (done' & rest' & Eq & T' & M & N).
        exists done', rest'. rewrite <- app_assoc in Eq. simpl in Eq.
        splits; auto.
        destruct r as [exit|].
        -- destruct M as [M|(-> & Hr' & Hu')]; [left; exact M|].
           right. splits; auto. intros Hun. apply Hu'. rewrite B7. auto.
        -- destruct M as (M1 & M2 & M3). splits; auto.
           intros Hun. apply M3. rewrite B7. auto.
      * destruct T as (T1 & T2 & T3 & T4 & T5).
        apply tallies_submits with (st := st); unfold tallies; auto; congruence.
      * congruence.
Qed.

End Pages.

Lemma drain_spec (versioned : bool) (bucket_name : string) (done : list (list WorkItem)) :
  forall st r st',
    drain s3 caller versioned bucket_name done st = (r, st') ->
    futures st' = futures st /\
    revoked st' = revoked st /\
    pages_processed st' = pages_processed st /\
    batches_created st' = batches_created st /\
    match r with
    | None =>
        completed_batches st' = completed_batches st + length done /\
        deleted_count st' = deleted_count st + list_sum (map (reported s3 bucket_name) done) /\
        (unobserved caller (polls st) -> unobserved caller (polls st'))
    | Some exit => exit = Returned false /\ observed caller (polls st')
    end /\
    (never_cancelled caller -> r = None).
Proof.
  induction done as [|future rest IH]; intros st r st' E; simpl in E.
  - injection E as <- <-. simpl. splits; auto.
  - destruct (poll_cancel_spec caller (world st)) as (_ & Hle & Hu & Ho & Hnc).
    destruct (poll_cancel caller (world st)) as [c w1]; simpl in *.
    destruct c.
    + injection E as <- <-. simpl. rewrite cancel_polls_emit. splits; auto.
      intros Hn. specialize (Hnc Hn). discriminate.
    + apply IH in E. simpl in E. rewrite cancel_polls_emit in E.
      destruct E as (E1 & E2 & E3 & E4 & E5 & E6).
      splits; auto.
      destruct r as [exit|]; [exact E5|].
      destruct E5 as (C1 & C2 & C3). fold (reported s3 bucket_name future) in C2.
      splits; auto; lia.
Qed.

Lemma batches_of_map {P : Type} (items_of : P -> list WorkItem) (pgs : list P) :
  batches_of items_of pgs = flat_map split_batches (map items_of pgs).
Proof.
  unfold batches_of. induction pgs as [|p pgs IH]; simpl; [reflexivity|].
  now rewrite IH.
Qed.

Lemma finish_spec {P : Type} (versioned : bool) (items_of : P -> list WorkItem)
      (pgs : list P) (failure : option Exn) (bucket_name : string) (w : World)
      (exit : Exit) (st : CleanState) :
  unobserved caller (cancel_polls w) ->
  finish s3 caller pool versioned bucket_name failure
         (page_loop caller pool fuel versioned items_of pgs (start w)) = (exit, st) ->
  run_facts s3 caller pool fuel (map items_of pgs) failure bucket_name exit st.
Proof.
  intros Hw E.
  destruct (page_loop caller pool fuel versioned items_of pgs (start w))
    as [r st1] eqn:E1.
  apply (page_loop_spec versioned items_of pgs []) in E1;
    [|unfold tallies; simpl; auto | reflexivity].
  destruct E1 as (done & rest & Eq & (T1 & T2 & T3 & T4 & T5) & M & N).
  simpl in Eq. rewrite batches_of_map in T2.
  exists (map items_of done), (map items_of rest).
  rewrite <- map_app, <- Eq, length_map.
  unfold finish in E. destruct r as [exit1|].
  - injection E as <- <-.
    destruct M as [(-> & Ho & Hr)|(-> & Hr & Hu)]; splits; auto;
      try discriminate;
      try (intros Hn Hp Hz; specialize (N Hn Hp); discriminate).
    destruct Hr as [Hr|(Hne & Hr)]; auto.
    right. splits; auto. intros Hnil. apply map_eq_nil in Hnil. contradiction.
  - destruct M as (-> & Hr & Hu). simpl in Hu. specialize (Hu Hw).
    destruct failure as [e|].
    + destruct (is_ClientError e); injection E as <- <-; simpl;
        rewrite ?cancel_polls_emit; simpl; splits; auto; try discriminate;
        intros; splits; auto; congruence.
    + match type of E with
      | context [drain _ _ _ _ ?l ?s] =>
          destruct (drain s3 caller versioned bucket_name l s) as [r2 st2] eqn:E2
      end.
      apply drain_spec in E2. simpl in E2. rewrite cancel_polls_emit in E2.
      destruct E2 as (D1 & D2 & D3 & D4 & D5 & D6).
      destruct r2 as [exit2|]; injection E as <- <-; simpl;
        rewrite ?cancel_polls_emit.
      * destruct D5 as (-> & Ho). splits; auto; try congruence; try discriminate.
        -- left. congruence.
        -- intros Hn _ _. specialize (D6 Hn). discriminate.
      * destruct D5 as (C1 & C2 & C3).
        splits; auto; try congruence.
        -- left. congruence.
        -- intros _. rewrite D1. splits; auto; try congruence; lia.
        -- intros _ _ _. splits; auto; congruence.
Qed.

Lemma clean_functions_spec (versioned : bool) (bucket_name : string) (w : World)
      (exit : Exit) (st : CleanState) :
  unobserved caller (cancel_polls w) ->
  (if versioned
   then _clean_versioned_bucket s3 caller pool fuel bucket_name w
   else _clean_non_versioned_bucket s3 caller pool fuel bucket_name w) = (exit, st) ->
  run_facts s3 caller pool fuel (listed_items s3 bucket_name versioned)
            (listing_failure s3 bucket_name versioned) bucket_name exit st.
Proof.
  intros Hw E.
  assert (Hw' : forall m, unobserved caller (cancel_polls (emit caller m w)))
    by (intros m; now rewrite cancel_polls_emit).
  unfold _clean_versioned_bucket, _clean_non_versioned_bucket in E.
  destruct (max_workers caller <=? 0)%Z eqn:Ez.
  - apply Z.leb_le in Ez.
    assert (Est : exists m, exit = Raised (ValueError "max_workers must be greater than 0")
                            /\ st = start (emit caller m w)).
    { destruct versioned; injection E as <- <-; eexists; split; reflexivity. }
    destruct Est as (m & -> & ->).
    exists [], (listed_items s3 bucket_name versioned). simpl.
    splits; auto; try discriminate. intros _ _ Hz. lia.
  - destruct versioned; simpl; eapply finish_spec; try exact E; apply Hw'.
Qed.

Lemma is_versioned_spec (bucket_name : string) (w : World) :
  fst (is_versioned s3 bucket_name w) = versioning s3 bucket_name /\
  cancel_polls (snd (is_versioned s3 bucket_name w)) = cancel_polls w.
Proof.
  unfold versioning, is_versioned.
  destruct (get_bucket_versioning s3 bucket_name) as [status|e]; simpl; auto.
  destruct (is_ClientError e); simpl; auto.
Qed.

(** [clean_bucket] never raises; it runs one of the two cleaning functions
    when the bucket exists and the versioning check answers, and otherwise
    returns [False] without submitting anything. *)
Lemma clean_bucket_spec (bucket_name : string) (exit : Exit) (st : CleanState) :
  clean_bucket s3 caller pool fuel bucket_name = (exit, st) ->
  (forall e, exit <> Raised e) /\
  match bucket_exists s3 bucket_name, versioning s3 bucket_name with
  | Ok true, Ok versioned =>
      run_facts s3 caller pool fuel (listed_items s3 bucket_name versioned)
                (listing_failure s3 bucket_name versioned) bucket_name exit st
  | _, _ =>
      exit = Returned false /\ futures st = [] /\ revoked st = [] /\
      pages_processed st = 0 /\ batches_created st = 0
  end.
Proof.
  unfold clean_bucket. intros E.
  destruct (bucket_exists s3 bucket_name) as [[|]|e].
  - match type of E with
    | context [is_versioned s3 bucket_name ?w0] =>
        destruct (is_versioned_spec bucket_name w0) as (Hv & Hp);
        destruct (is_versioned s3 bucket_name w0) as [v w1]
    end.
    simpl in Hv, Hp. rewrite <- Hv.
    destruct v as [versioned|e].
    + match type of E with
      | context [emit caller (VersioningReport versioned) w1] =>
          set (w2 := emit caller (VersioningReport versioned) w1) in *
      end.
      assert (Hw2 : unobserved caller (cancel_polls w2)).
      { subst w2. rewrite cancel_polls_emit, Hp, cancel_polls_emit. simpl.
        intros f _ k Hk. lia. }
      destruct (if versioned
                then _clean_versioned_bucket s3 caller pool fuel bucket_name w2
                else _clean_non_versioned_bucket s3 caller pool fuel bucket_name w2)
        as [exit1 st1] eqn:E1.
      apply clean_functions_spec in E1; [|exact Hw2].
      destruct exit1 as [b|e|]; try (injection E as <- <-; split; [discriminate|exact E1]).
      unfold clean_failed in E. injection E as <- <-. split; [discriminate|].
      destruct E1 as (done & rest & F1 & F2 & F3 & F4 & F5 & F6 & F6' & F7 & F8).
      exists done, rest. simpl. splits; auto; try discriminate.
      * destruct F5 as [F5|(F5 & _)]; [auto | discriminate].
      * intros Hn Hp' Hz. destruct (F8 Hn Hp' Hz) as (G1 & G2 & G3).
        splits; auto. intros Hnone. specialize (G3 Hnone). discriminate.
    + unfold clean_failed in E. injection E as <- <-. simpl.
      split; [discriminate|splits; auto].
  - injection E as <- <-. simpl. split; [discriminate|splits; auto].
  - unfold clean_failed in E. injection E as <- <-. simpl.
    split; [discriminate|splits; auto].
Qed.

Lemma clean_bucket_path (bucket_name : string) (exit : Exit) (st : CleanState) :
  clean_bucket s3 caller pool fuel bucket_name = (exit, st) ->
  futures st =
    flat_map split_batches
      (firstn (pages_processed st) (listed_items s3 bucket_name (path s3 bucket_name))) /\
  batches_created st = length (futures st).
Proof.
  intros E. apply clean_bucket_spec in E. destruct E as (_ & E). unfold path.
  destruct (bucket_exists s3 bucket_name) as [[|]|e];
    destruct (versioning s3 bucket_name) as [versioned|e'];
    try (destruct E as (_ & -> & _ & -> & ->); split; reflexivity).
  destruct E as (done & rest & -> & -> & -> & -> & _).
  now rewrite firstn_app, Nat.sub_diag, firstn_O, firstn_all, app_nil_r.
Qed.

End CleanFacts.

(** ** Lists of futures *)

Section PoolFacts.
Context {A : Type}.

Lemma indexed_from (l : list A) :
  forall a i x,
    In (i, x) (combine (seq a (length l)) l) <-> a <= i /\ nth_error l (i - a) = Some x.
Proof.
  induction l as [|y l IH]; intros a i x; simpl.
  - split; [tauto|]. intros [_ H]. now destruct (i - a).
  - rewrite IH. split.
    + intros [E|[Hle Hn]].
      * injection E as <- <-. rewrite Nat.sub_diag. auto.
      * split; [lia|]. replace (i - a) with (S (i - S a)) by lia. exact Hn.
    + intros [Hle Hn]. destruct (Nat.eq_dec a i) as [->|Hne].
      * rewrite Nat.sub_diag in Hn. simpl in Hn. injection Hn as ->. now left.
      * right. split; [lia|]. replace (i - a) with (S (i - S a)) in Hn by lia.
        exact Hn.
Qed.

Lemma indexed_spec (l : list A) (i : nat) (x : A) :
  In (i, x) (PyList.indexed l) <-> nth_error l i = Some x.
Proof.
  unfold PyList.indexed. rewrite indexed_from, Nat.sub_0_r.
  split; [tauto | split; [lia | assumption]].
Qed.

Lemma map_snd_indexed (l : list A) : map snd (PyList.indexed l) = l.
Proof.
  unfold PyList.indexed. generalize 0.
  induction l as [|x l IH]; intros a; simpl; [reflexivity|]. now rewrite IH.
Qed.

Lemma not_revoked_nil (l : list A) : Runtime.not_revoked [] l = l.
Proof.
  unfold Runtime.not_revoked. simpl.
  rewrite forallb_filter_id; [apply map_snd_indexed|].
  now apply forallb_forall.
Qed.

Lemma not_revoked_incl (r : list nat) (l : list A) (x : A) :
  In x (Runtime.not_revoked r l) -> In x l.
Proof.
  unfold Runtime.not_revoked. intros H. apply in_map_iff in H.
  destruct H as ([i y] & <- & H). apply filter_In in H. destruct H as [H _].
  apply indexed_spec in H. simpl. eapply nth_error_In; eauto.
Qed.

Lemma not_revoked_keeps (r : list nat) (l : list A) (i : nat) (x : A) :
  nth_error l i = Some x -> ~ In i r -> In x (Runtime.not_revoked r l).
Proof.
  intros Hn Hr. unfold Runtime.not_revoked. apply in_map_iff.
  exists (i, x). split; [reflexivity|]. apply filter_In. split.
  - now apply indexed_spec.
  - simpl. apply negb_true_iff. apply not_true_is_false. intros H.
    apply existsb_exists in H. destruct H as (k & Hk & Ek).
    apply Nat.eqb_eq in Ek. subst k. contradiction.
Qed.

Lemma cancel_all_spec (pool : Runtime.Pool) (l : list A) (i : nat) :
  In i (Runtime.cancel_all pool l) <->
  i < length l /\ Runtime.queued_at_cancel pool i = true.
Proof.
  unfold Runtime.cancel_all. rewrite in_map_iff. split.
  - intros ([k x] & <- & H). apply filter_In in H. destruct H as [H Q].
    apply indexed_spec in H. simpl in *. split; [|exact Q].
    apply nth_error_Some. congruence.
  - intros [Hlt Q]. destruct (nth_error l i) as [x|] eqn:E.
    + exists (i, x). split; [reflexivity|]. apply filter_In.
      split; [now apply indexed_spec | exact Q].
    + apply nth_error_None in E. lia.
Qed.

End PoolFacts.

Lemma list_sum_permutation (l l' : list nat) :
  Permutation l l' -> list_sum l = list_sum l'.
Proof. induction 1; simpl; lia. Qed.

Lemma concat_split_batches {A : Type} (l : list (list A)) :
  concat (flat_map split_batches l) = concat l.
Proof.
  induction l as [|x l IH]; simpl; [reflexivity|].
  now rewrite concat_app, split_batches_concat, IH.
Qed.


Lemma flat_map_split_batches_bound {A : Type} (l : list (list A)) :
  Forall (fun batch => length batch <= batch_limit) (flat_map split_batches l).
Proof.
  apply Forall_flat_map. apply Forall_forall. intros x _. apply split_batches_bound.
Qed.

(** ** Runs of [clean_bucket] *)

Section CleanRuns.
Import Store Runtime Clean.
Variable s3 : S3Client.
Variable caller : Caller.
Variable pool : Pool.
Variable fuel : nat.
Variable bucket_name : string.

Lemma bucket_exists_head :
  head_bucket s3 bucket_name = Ok tt -> bucket_exists s3 bucket_name = Ok true.
Proof. unfold bucket_exists. now intros ->. Qed.

Lemma reported_whole (batch : list WorkItem) :
  deletes_whole_batches s3 bucket_name ->
  reported s3 bucket_name batch = length batch.
Proof.
  intros H. destruct (H batch) as (response & E & D).
  unfold reported, _delete_batch. rewrite E. simpl. now rewrite D.
Qed.

(** A run that nothing interrupts, on the path [versioned]: every page is
    processed, every batch runs, and the run succeeds when the listing
    does. *)
Lemma uninterrupted_run (versioned : bool) (exit : Exit) (st : CleanState) :
  clean_bucket s3 caller pool fuel bucket_name = (exit, st) ->
  bucket_exists s3 bucket_name = Ok true ->
  versioning s3 bucket_name = Ok versioned ->
  (0 < max_workers caller)%Z ->
  never_cancelled caller -> pause_released caller fuel ->
  futures st = flat_map split_batches (listed_items s3 bucket_name versioned) /\
  executed st = futures st /\
  batches_created st = length (futures st) /\
  (listing_failure s3 bucket_name versioned = None ->
   exit = Returned true /\
   completed_batches st = length (as_completed pool _ (futures st)) /\
   deleted_count st =
     list_sum (map (reported s3 bucket_name) (as_completed pool _ (futures st)))).
Proof.
  intros E Hb Hv Hz Hn Hp. apply clean_bucket_spec in E. destruct E as (_ & E).
  rewrite Hb, Hv in E.
  destruct E as (done & rest & F1 & F2 & F3 & F4 & F5 & F6 & F6' & F7 & F8).
  destruct (F8 Hn Hp Hz) as (-> & Hr & Hok). rewrite app_nil_r in F1. subst done.
  unfold executed. rewrite Hr, not_revoked_nil. splits; auto.
  intros Hnone. specialize (Hok Hnone). destruct (F7 Hok) as (_ & _ & _ & G1 & G2).
  splits; auto.
Qed.

End CleanRuns.

(** ** The copying loops *)

Section CopyFacts.
Import Store Runtime Copy.
Variable s3 : S3Client.
Variable caller : Caller.
Variable pool : Pool.
Variable fuel : nat.

Local Abbreviation polls st := (cancel_polls (world st)).

Lemma submit_objects_spec (sp dp : string) (contents : list ObjectSummary) :
  forall st,
    let st' := fold_left (submit_object sp dp) contents st in
    futures st' = futures st ++ map (task_of sp dp) contents /\
    revoked st' = revoked st /\
    world st' = world st /\
    copied_count st' = copied_count st /\
    completed_count st' = completed_count st.
Proof.
  induction contents as [|obj contents IH]; intros st; simpl.
  - rewrite app_nil_r. splits; auto.
  - destruct (IH (submit_object sp dp st obj)) as (H1 & H2 & H3 & H4 & H5).
    rewrite H1, H2, H3, H4, H5. simpl. rewrite <- app_assoc. splits; auto.
Qed.

Lemma copy_pages_spec (sp dp : string) (pgs : list ObjectPage) :
  forall st r st',
    copy_pages caller pool fuel sp dp pgs st = (r, st') ->
    exists done rest,
      pgs = done ++ rest /\
      futures st' = futures st ++ tasks_of sp dp done /\
      copied_count st' = copied_count st /\
      completed_count st' = completed_count st /\
      match r with
      | None =>
          rest = [] /\ revoked st' = revoked st /\
          (unobserved caller (polls st) -> unobserved caller (polls st'))
      | Some exit =>
          (exit = Returned false /\ observed caller (polls st') /\
           (revoked st' = revoked st \/ revoked st' = cancel_all pool (futures st')))
          \/ (exit = Spinning /\ revoked st' = revoked st /\
              (unobserved caller (polls st) -> unobserved caller (polls st')))
      end /\
      (never_cancelled caller -> pause_released caller fuel -> r = None).
Proof.
  induction pgs as [|page pgs IH]; intros st r st' E; simpl in E.
  - injection E as <- <-. exists [], []. simpl. rewrite app_nil_r. splits; auto.
  - destruct (poll_cancel_spec caller (world st)) as (_ & Hle & Hu & Ho & Hnc).
    destruct (poll_cancel caller (world st)) as [c w1]; simpl in *.
    destruct c.
    + injection E as <- <-. exists [], (page :: pgs). simpl.
      rewrite app_nil_r, cancel_polls_emit. splits; auto.
      intros Hn _. specialize (Hnc Hn). discriminate.
    + destruct (wait_while_paused_spec caller fuel w1) as (Hle2 & _ & _ & Ho2 & Hu2).
      pose proof (fun a b => wait_while_paused_resumes caller fuel a b w1) as Hres.
      destruct (wait_while_paused caller fuel w1) as [p w2]; simpl in *.
      destruct p.
      * assert (E' : exists st1,
                   copy_pages caller pool fuel sp dp pgs st1 = (r, st') /\
                   futures st1
                   = futures st ++ map (task_of sp dp) (get_list (Contents page)) /\
                   revoked st1 = revoked st /\
                   polls st1 = cancel_polls w2 /\
                   copied_count st1 = copied_count st /\
                   completed_count st1 = completed_count st).
        { destruct (Contents page) as [contents|]; simpl.
          - eexists. split; [exact E|].
            match goal with
            | |- context [fold_left _ contents ?s] =>
                destruct (submit_objects_spec sp dp contents s) as (S1 & S2 & S3 & S4 & S5)
            end.
            simpl. rewrite cancel_polls_emit, S1, S2, S3, S4, S5. simpl. splits; auto.
          - eexists. split; [exact E|]. simpl. rewrite app_nil_r. splits; auto. }
        clear E. destruct E' as (st1 & E & T1 & T2 & T3 & T4 & T5).
        apply IH in E.
        destruct E as (done & rest & -> & F1 & F2 & F3 & F4 & F5).
        exists (page :: done), rest.
        assert (Hun : unobserved caller (polls st) -> unobserved caller (polls st1)).
        { intros H. rewrite T3. apply Hu2; [auto | discriminate]. }
        splits; auto; try congruence.
        -- simpl. now rewrite F1, T1, <- app_assoc.
        -- destruct r as [exit|].
           ++ destruct F4 as [(-> & G1 & G2)|(-> & G1 & G2)]; [left|right]; splits; auto.
              ** rewrite <- T2. exact G2.
              ** congruence.
           ++ destruct F4 as (G1 & G2 & G3). splits; auto. congruence.
      * injection E as <- <-. exists [], (page :: pgs). simpl. rewrite app_nil_r.
        splits; auto.
        intros Hn Hp. specialize (Hres Hn Hp). discriminate.
      * injection E as <- <-. exists [], (page :: pgs). simpl. rewrite app_nil_r.
        splits; auto.
        -- right. splits; auto. intros H. apply Hu2; [auto | discriminate].
        -- intros Hn Hp. specialize (Hres Hn Hp). discriminate.
Qed.

Lemma copy_drain_spec (source_bucket dest_bucket : string) (done : list CopyTask) :
  forall st r st',
    drain s3 caller fuel source_bucket dest_bucket done st = (r, st') ->
    futures st' = futures st /\
    revoked st' = revoked st /\
    match r with
    | None =>
        completed_count st' = completed_count st + length done /\
        (unobserved caller (polls st) -> unobserved caller (polls st'))
    | Some exit =>
        (exit = Returned false /\ observed caller (polls st'))
        \/ (exit = Spinning /\
            (unobserved caller (polls st) -> unobserved caller (polls st')))
    end /\
    (never_cancelled caller -> pause_released caller fuel -> r = None).
Proof.
  induction done as [|future rest IH]; intros st r st' E; simpl in E.
  - injection E as <- <-. simpl. splits; auto.
  - destruct (poll_cancel_spec caller (world st)) as (_ & Hle & Hu & Ho & Hnc).
    destruct (poll_cancel caller (world st)) as [c w1]; simpl in *.
    destruct c.
    + injection E as <- <-. simpl. rewrite cancel_polls_emit. splits; auto.
      intros Hn _. specialize (Hnc Hn). discriminate.
    + destruct (wait_while_paused_spec caller fuel w1) as (Hle2 & _ & _ & Ho2 & Hu2).
      pose proof (fun a b => wait_while_paused_resumes caller fuel a b w1) as Hres.
      destruct (wait_while_paused caller fuel w1) as [p w2]; simpl in *.
      destruct p.
      * assert (E' : exists st1,
                   drain s3 caller fuel source_bucket dest_bucket rest st1 = (r, st') /\
                   futures st1 = futures st /\
                   revoked st1 = revoked st /\
                   polls st1 = cancel_polls w2 /\
                   completed_count st1 = S (completed_count st)).
        { destruct (fst (_copy_single_object s3 source_bucket (task_source_key future)
                           dest_bucket (task_dest_key future)));
            eexists; (split; [exact E|]); simpl;
            rewrite ?cancel_polls_emit_if; simpl; splits; auto. }
        clear E. destruct E' as (st1 & E & T1 & T2 & T3 & T4).
        apply IH in E. destruct E as (F1 & F2 & F3 & F4).
        assert (Hun : unobserved caller (polls st) -> unobserved caller (polls st1)).
        { intros H. rewrite T3. apply Hu2; [auto | discriminate]. }
        splits; auto; try congruence.
        destruct r as [exit|].
        -- destruct F3 as [F3|(-> & G)]; [left; exact F3 | right; auto].
        -- destruct F3 as (G1 & G2). splits; auto. lia.
      * injection E as <- <-. simpl. splits; auto.
        intros Hn Hp. specialize (Hres Hn Hp). discriminate.
      * injection E as <- <-. simpl. splits; auto.
        -- right. splits; auto. intros H. apply Hu2; [auto | discriminate].
        -- intros Hn Hp. specialize (Hres Hn Hp). discriminate.
Qed.

(** [copy_objects] never raises; it lists the source bucket when both
    buckets exist, and otherwise returns [False] without submitting
    anything. *)
Lemma copy_objects_spec (source_bucket source_prefix dest_bucket dest_prefix : string)
      (exit : Exit) (st : CopyState) :
  copy_objects s3 caller pool fuel source_bucket source_prefix dest_bucket dest_prefix
  = (exit, st) ->
  (forall e, exit <> Raised e) /\
  match bucket_exists s3 source_bucket, bucket_exists s3 dest_bucket with
  | Ok true, Ok true =>
      copy_facts caller pool fuel
        (DestKey.normalize_prefix source_prefix) (DestKey.normalize_prefix dest_prefix)
        (list_objects_v2 s3 source_bucket (Some (DestKey.normalize_prefix source_prefix)))
        exit st
  | _, _ => exit = Returned false /\ futures st = [] /\ revoked st = []
  end.
Proof.
  unfold copy_objects. intros E.
  destruct (bucket_exists s3 source_bucket) as [[|]|e];
    [|injection E as <- <-; simpl; split; [discriminate|splits; auto]
     |injection E as <- <-; simpl; split; [discriminate|splits; auto]].
  destruct (bucket_exists s3 dest_bucket) as [[|]|e];
    [|injection E as <- <-; simpl; split; [discriminate|splits; auto]
     |injection E as <- <-; simpl; split; [discriminate|splits; auto]].
  set (sp := DestKey.normalize_prefix source_prefix) in *.
  set (dp := DestKey.normalize_prefix dest_prefix) in *.
  set (listing := list_objects_v2 s3 source_bucket (Some sp)) in *.
  assert (H0 : unobserved caller 0) by (intros f _ k Hk; lia).
  destruct (max_workers caller <=? 0)%Z eqn:Ez.
  - apply Z.leb_le in Ez. injection E as <- <-. split; [discriminate|].
    exists [], (pages listing). simpl. splits; auto; try discriminate.
    intros _ _ Hz. lia.
  - match type of E with
    | context [copy_pages caller pool fuel sp dp (pages listing) ?s] =>
        destruct (copy_pages caller pool fuel sp dp (pages listing) s)
          as [r st1] eqn:E1; apply copy_pages_spec in E1
    end.
    simpl in E1. rewrite !cancel_polls_emit in E1. simpl in E1.
    destruct E1 as (done & rest & Eq & F1 & F2 & F3 & F4 & F5).
    destruct r as [exit1|].
    + injection E as <- <-. split.
      { destruct F4 as [(-> & _)|(-> & _)]; discriminate. }
      exists done, rest.
      destruct F4 as [(-> & Ho & Hr)|(-> & Hr & Hu)]; splits; auto;
        try discriminate;
        try (intros Hn Hp; specialize (F5 Hn Hp); discriminate).
      destruct Hr as [Hr|Hr]; auto.
    + destruct F4 as (-> & Hr & Hu). rewrite app_nil_r in Eq. subst done.
      specialize (Hu H0).
      destruct (failure listing) as [e|] eqn:Ef.
      * injection E as <- <-. split; [discriminate|].
        exists (pages listing), []. rewrite app_nil_r. simpl.
        splits; auto; try discriminate.
        intros _ _ _. splits; auto. intros; congruence.
      * match type of E with
        | context [drain s3 caller fuel source_bucket dest_bucket ?l ?s] =>
            destruct (drain s3 caller fuel source_bucket dest_bucket l s)
              as [r2 st2] eqn:E2; apply copy_drain_spec in E2
        end.
        simpl in E2. rewrite cancel_polls_emit in E2.
        destruct E2 as (D1 & D2 & D3 & D4).
        destruct r2 as [exit2|]; injection E as <- <-.
        -- split; [destruct D3 as [(-> & _)|(-> & _)]; discriminate|].
           exists (pages listing), []. rewrite app_nil_r.
           destruct D3 as [(-> & Ho)|(-> & Hu2)]; splits; auto;
             try congruence; try discriminate;
             try (intros Hn Hp; specialize (D4 Hn Hp); discriminate);
             try (left; congruence);
             try (intros Hn Hp Hz; specialize (D4 Hn Hp); discriminate).
        -- split; [discriminate|].
           exists (pages listing), []. rewrite app_nil_r. simpl.
           rewrite cancel_polls_emit.
           destruct D3 as (C1 & C2).
           splits; auto; try congruence; try discriminate.
           ++ left. congruence.
           ++ intros _. splits; auto; try congruence. rewrite D1. lia.
           ++ intros _ _ _. splits; auto; congruence.
Qed.

(** Every copy submitted goes to the key [dest_key] gives for its source
    key and the prefixes [copy_objects] was called with. *)
Lemma copy_objects_dest_keys
      (source_bucket source_prefix dest_bucket dest_prefix : string) :
  Forall (fun task =>
            task_dest_key task
            = DestKey.dest_key source_prefix dest_prefix (task_source_key task))
         (futures (snd (copy_objects s3 caller pool fuel
                          source_bucket source_prefix dest_bucket dest_prefix))).
Proof.
  destruct (copy_objects s3 caller pool fuel
              source_bucket source_prefix dest_bucket dest_prefix) as [exit st] eqn:E.
  apply copy_objects_spec in E. destruct E as (_ & E). simpl.
  destruct (bucket_exists s3 source_bucket) as [[|]|e];
    destruct (bucket_exists s3 dest_bucket) as [[|]|e'];
    try (destruct E as (_ & -> & _); constructor).
  destruct E as (done & rest & _ & -> & _).
  apply Forall_forall. intros task Hin. unfold tasks_of in Hin.
  apply in_flat_map in Hin. destruct Hin as (page & _ & Hin).
  apply in_map_iff in Hin. destruct Hin as (obj & <- & _). reflexivity.
Qed.


End CopyFacts.


(** ** Cancellation and the pool *)

Section CancelFacts.
Import Store Runtime Clean.
Variable s3 : S3Client.
Variable caller : Caller.
Variable pool : Pool.
Variable fuel : nat.
Variable bucket_name : string.

Lemma clean_bucket_observed (exit : Exit) (st : CleanState) :
  clean_bucket s3 caller pool fuel bucket_name = (exit, st) ->
  observed caller (cancel_polls (world st)) ->
  exit = Returned false.
Proof.
  intros E Ho. apply clean_bucket_spec in E. destruct E as (_ & E).
  destruct (bucket_exists s3 bucket_name) as [[|]|e];
    destruct (versioning s3 bucket_name) as [versioned|e'];
    try (destruct E as (E & _); exact E).
  destruct E as (done & rest & _ & _ & _ & _ & _ & [F|F] & _); [exact F|].
  destruct (observed_not_unobserved _ _ Ho F).
Qed.




(** Every batch comes from one page. *)
Lemma batch_within_page (exit : Exit) (st : CleanState) (batch : list WorkItem) :
  clean_bucket s3 caller pool fuel bucket_name = (exit, st) ->
  In batch (futures st) ->
  exists k items,
    nth_error (listed_items s3 bucket_name (path s3 bucket_name)) k = Some items /\
    k < pages_processed st /\
    In batch (split_batches items).
Proof.
  intros E Hin. apply clean_bucket_path in E. destruct E as (E & _).
  rewrite E in Hin. apply in_flat_map in Hin. destruct Hin as (items & Hi & Hb).
  apply In_nth_error in Hi. destruct Hi as (k & Hk).
  assert (Hlt : k < pages_processed st).
  { assert (H : nth_error (firstn (pages_processed st)
                             (listed_items s3 bucket_name (path s3 bucket_name))) k <> None)
      by congruence.
    apply nth_error_Some in H. rewrite length_firstn in H. lia. }
  exists k, items. splits; auto.
  rewrite nth_error_firstn in Hk.
  apply Nat.ltb_lt in Hlt. now rewrite Hlt in Hk.
Qed.

End CancelFacts.

(** Two different pages of a listing without repetition share no entry. *)
Lemma pages_disjoint {A : Type} (l : list (list A)) :
  NoDup (concat l) ->
  forall i j p q x,
    nth_error l i = Some p -> nth_error l j = Some q ->
    In x p -> In x q -> i = j.
Proof.
  induction l as [|a l IH]; intros Hnd i j p q x Hi Hj Hp Hq.
  - now destruct i.
  - simpl in Hnd.
    assert (Hdis : forall y r k, In y a -> nth_error l k = Some r -> In y r -> False).
    { intros y r k Hy Hk Hr.
      assert (Hc : In y (concat l)).
      { apply in_concat. exists r. split; [|exact Hr]. eapply nth_error_In; eauto. }
      clear - Hnd Hy Hc. induction a as [|z a IHa]; [contradiction|].
      simpl in Hnd. inversion Hnd as [|? ? Hz Hnd']; subst.
      destruct Hy as [->|Hy]; [|now apply IHa].
      apply Hz. apply in_or_app. now right. }
    destruct i as [|i], j as [|j]; simpl in Hi, Hj.
    + reflexivity.
    + injection Hi as <-. destruct (Hdis x q j Hp Hj Hq).
    + injection Hj as <-. destruct (Hdis x p i Hq Hi Hp).
    + f_equal. apply (IH (NoDup_app_remove_l _ _ Hnd) i j p q x); assumption.
Qed.


(** ** The pause loop and the start of a run *)

Section PauseFacts.
Import Store Runtime Clean.
Variable s3 : S3Client.
Variable caller : Caller.
Variable pool : Pool.
Variable fuel : nat.

Lemma silent_emit (m : Msg) (w : World) :
  m <> OperationCancelled -> Trace.silent w -> Trace.silent (emit caller m w).
Proof.
  unfold Trace.silent, emit. intros Hm Hw.
  destruct (progress_callback caller); simpl; [|exact Hw].
  intros Hin. apply in_app_or in Hin. destruct Hin as [Hin|[Hin|[]]]; auto.
Qed.

Lemma silent_emit_if (c : bool) (m : Msg) (w : World) :
  m <> OperationCancelled -> Trace.silent w -> Trace.silent (emit_if caller c m w).
Proof. destruct c; simpl; [apply silent_emit | auto]. Qed.

Lemma submit_batches_world (bs : list (list WorkItem)) :
  forall st,
    let st' := fold_left (submit_batch caller) bs st in
    pause_polls (world st') = pause_polls (world st) /\
    (Trace.silent (world st) -> Trace.silent (world st')).
Proof.
  induction bs as [|b bs IH]; intros st; simpl; [auto|].
  destruct (IH (submit_batch caller st b)) as (H1 & H2).
  rewrite H1. simpl. rewrite pause_polls_emit_if. simpl. split; [reflexivity|].
  intros Hs. apply H2. simpl. apply silent_emit_if; [discriminate | exact Hs].
Qed.

Lemma page_body_world {P : Type} (versioned : bool) (items_of : P -> list WorkItem)
      (page : P) (st1 : CleanState) :
  let st2 :=
    match items_of page with
    | [] =>
        with_world st1
          (emit_if caller (pages_processed st1 mod 10 =? 0)
             (PageWithoutObjects versioned (pages_processed st1)) (world st1))
    | _ :: _ => submit_page caller st1 (items_of page)
    end in
  pause_polls (world st2) = pause_polls (world st1) /\
  (Trace.silent (world st1) -> Trace.silent (world st2)).
Proof.
  destruct (items_of page) as [|x l]; simpl.
  - rewrite pause_polls_emit_if. split; [reflexivity|].
    apply silent_emit_if. discriminate.
  - apply submit_batches_world.
Qed.

(** The head of a page when neither flag answers true. *)
Lemma enter_page_resumes (f g : nat -> bool) (st : CleanState) :
  cancel_flag caller = Some f -> pause_flag caller = Some g ->
  f (cancel_polls (world st)) = false ->
  g (pause_polls (world st)) = false ->
  enter_page caller pool fuel st
  = (None,
     next_page
       (with_world st
          {| cancel_polls := S (cancel_polls (world st));
             pause_polls := S (pause_polls (world st));
             progress := progress (world st); logged := logged (world st) |})).
Proof.
  intros Hf Hg Hc Hp. unfold enter_page, poll_cancel. rewrite Hf, Hc.
  destruct fuel; simpl; unfold poll_pause; rewrite Hg; simpl; rewrite Hp; reflexivity.
Qed.

(** The head of a page when the pause flag answers true and the cancel
    flag answers true after the first sleep. *)
Lemma enter_page_stopped (f g : nat -> bool) (st : CleanState) :
  cancel_flag caller = Some f -> pause_flag caller = Some g -> 0 < fuel ->
  f (cancel_polls (world st)) = false ->
  g (pause_polls (world st)) = true ->
  f (S (cancel_polls (world st))) = true ->
  enter_page caller pool fuel st
  = (Some (Returned false),
     with_world st
       {| cancel_polls := S (S (cancel_polls (world st)));
          pause_polls := S (pause_polls (world st));
          progress := progress (world st); logged := logged (world st) |}).
Proof.
  intros Hf Hg Hfuel Hc Hp Hc'. unfold enter_page, poll_cancel. rewrite Hf, Hc.
  destruct fuel as [|n]; [lia|].
  simpl. unfold poll_pause. rewrite Hg. simpl. rewrite Hp.
  unfold poll_cancel. rewrite Hf. simpl. rewrite Hc'. reflexivity.
Qed.

Lemma page_loop_stopped_in_pause {P : Type} (versioned : bool)
      (items_of : P -> list WorkItem) (f g : nat -> bool) :
  cancel_flag caller = Some f -> pause_flag caller = Some g -> 0 < fuel ->
  forall k pgs st,
    k < length pgs ->
    (forall i, i <= k -> f (cancel_polls (world st) + i) = false) ->
    f (cancel_polls (world st) + S k) = true ->
    (forall i, i < k -> g (pause_polls (world st) + i) = false) ->
    g (pause_polls (world st) + k) = true ->
    exists st',
      page_loop caller pool fuel versioned items_of pgs st = (Some (Returned false), st') /\
      futures st' = futures st ++ batches_of items_of (firstn k pgs) /\
      pages_processed st' = pages_processed st + k /\
      revoked st' = revoked st /\
      (Trace.silent (world st) -> Trace.silent (world st')).
Proof.
  intros Hf Hg Hfuel. induction k as [|k IH]; intros pgs st Hk Hc Hc' Hp Hp';
    (destruct pgs as [|page rest]; [simpl in Hk; lia|]).
  - simpl. rewrite (enter_page_stopped f g st Hf Hg Hfuel).
    + eexists. split; [reflexivity|]. simpl. unfold batches_of. simpl.
      rewrite app_nil_r, Nat.add_0_r. splits; auto.
    + rewrite <- (Hc 0) by lia. f_equal. lia.
    + rewrite <- Hp'. f_equal. lia.
    + rewrite <- Hc'. f_equal. lia.
  - cbn [page_loop]. rewrite (enter_page_resumes f g st Hf Hg).
    + match goal with
      | |- context [next_page ?s] => set (st1 := next_page s)
      end.
      pose proof (page_body_spec caller versioned items_of page st1)
        as (B1 & _ & B3 & B4 & _ & _ & B7).
      pose proof (page_body_world versioned items_of page st1) as (W1 & W2).
      cbv zeta in W1, W2.
      assert (E : exists st2,
                 st2 = match items_of page with
                       | [] =>
                           with_world st1
                             (emit_if caller (pages_processed st1 mod 10 =? 0)
                                (PageWithoutObjects versioned (pages_processed st1))
                                (world st1))
                       | _ :: _ => submit_page caller st1 (items_of page)
                       end) by (eexists; reflexivity).
      destruct E as (st2 & E). rewrite <- E in B1, B3, B4, B7, W1, W2.
      assert (Hloop :
               match items_of page with
               | [] =>
                   page_loop caller pool fuel versioned items_of rest
                     (with_world st1
                        (emit_if caller (pages_processed st1 mod 10 =? 0)
                           (PageWithoutObjects versioned (pages_processed st1))
                           (world st1)))
               | x :: l =>
                   page_loop caller pool fuel versioned items_of rest
                     (submit_page caller st1 (x :: l))
               end
               = page_loop caller pool fuel versioned items_of rest st2).
      { rewrite E. now destruct (items_of page). }
      rewrite Hloop.
      destruct (IH rest st2) as (st' & L1 & L2 & L3 & L4 & L5).
      * simpl in Hk. lia.
      * intros i Hi. rewrite B7. subst st1. simpl.
        rewrite <- (Hc (S i)) by lia. f_equal. lia.
      * rewrite B7. subst st1. simpl. rewrite <- Hc'. f_equal. lia.
      * intros i Hi. rewrite W1. subst st1. simpl.
        rewrite <- (Hp (S i)) by lia. f_equal. lia.
      * rewrite W1. subst st1. simpl. rewrite <- Hp'. f_equal. lia.
      * exists st'. split; [exact L1|]. rewrite L2, L3, L4, B1, B3, B4.
        subst st1. simpl. unfold batches_of. simpl. rewrite <- app_assoc.
        splits; auto; lia.
    + rewrite <- (Hc 0) by lia. f_equal. lia.
    + rewrite <- (Hp 0) by lia. f_equal. lia.
Qed.

Lemma is_versioned_world (bucket_name : string) (w : World) :
  pause_polls (snd (is_versioned s3 bucket_name w)) = pause_polls w /\
  progress (snd (is_versioned s3 bucket_name w)) = progress w.
Proof.
  unfold is_versioned.
  destruct (get_bucket_versioning s3 bucket_name) as [status|e]; simpl; auto.
  destruct (is_ClientError e); simpl; auto.
Qed.

End PauseFacts.

Section StartFacts.
Import Store Runtime.

(** [clean_bucket] once the bucket has passed verification and the
    versioning check has answered: the page loop starts from a world in
    which no flag has been called and no cancellation reported. *)
Lemma clean_bucket_unfold
  (s3 : S3Client) (caller : Caller) (pool : Pool) (fuel : nat)
  (bucket_name : string) (versioned : bool) :
  bucket_exists s3 bucket_name = Ok true ->
  Clean.versioning s3 bucket_name = Ok versioned ->
  (0 < max_workers caller)%Z ->
  exists w,
    cancel_polls w = 0 /\ pause_polls w = 0 /\ Trace.silent w /\
    Clean.clean_bucket s3 caller pool fuel bucket_name
    = match (if versioned
             then Clean.finish s3 caller pool true bucket_name
                    (failure (list_object_versions s3 bucket_name None))
                    (Clean.page_loop caller pool fuel true Clean.versioned_items
                       (pages (list_object_versions s3 bucket_name None)) (Clean.start w))
             else Clean.finish s3 caller pool false bucket_name
                    (failure (list_objects_v2 s3 bucket_name None))
                    (Clean.page_loop caller pool fuel false Clean.plain_items
                       (pages (list_objects_v2 s3 bucket_name None)) (Clean.start w)))
      with
      | (Raised e, st) => Clean.clean_failed caller e st
      | r => r
      end.
Proof.
  intros Hb Hv Hz. unfold Clean.clean_bucket. rewrite Hb.
  set (w0 := emit caller (VerifyingBucket bucket_name) world0).
  destruct (is_versioned_spec s3 bucket_name w0) as (V1 & V2).
  destruct (is_versioned_world s3 bucket_name w0) as (V3 & V4).
  destruct (is_versioned s3 bucket_name w0) as [v w1]. simpl in V1, V2, V3, V4.
  rewrite Hv in V1. subst v.
  assert (Hs : Trace.silent w1).
  { unfold Trace.silent. rewrite V4. apply silent_emit; [discriminate|].
    intros []. }
  exists (emit caller (DeletingStarted versioned (max_workers caller))
            (emit caller (VersioningReport versioned) w1)).
  rewrite !cancel_polls_emit, !pause_polls_emit, V2, V3.
  unfold w0. rewrite cancel_polls_emit, pause_polls_emit. simpl.
  splits; auto.
  - apply silent_emit; [discriminate|]. apply silent_emit; [discriminate | exact Hs].
  - unfold Clean._clean_versioned_bucket, Clean._clean_non_versioned_bucket.
    assert (Hz' : (max_workers caller <=? 0)%Z = false) by (apply Z.leb_gt; lia).
    rewrite Hz'. now destruct versioned.
Qed.

End StartFacts.


(** ** The requests the store receives *)

Section StoreFacts.
Import Store Runtime Clean.
Variable s3 : S3Client.
Variable bucket_name : string.






End StoreFacts.

(** ** The checkpoint at the head of a page *)


Section CheckpointFacts.
Import Store Runtime Clean.
Variable s3 : S3Client.
Variable caller : Caller.
Variable pool : Pool.
Variable fuel : nat.







End CheckpointFacts.




(** * The properties of the specification *)

Section Specification.
Import Store Runtime.

(** C2. In every run of [clean_bucket], on either path, every batch handed
  to the executor, and so every batch that reaches the store's
  multi-delete call, holds at most 1000 entries. *)
Theorem C2_batches_hold_at_most_1000
(s3 : S3Client) (caller : Caller) (pool : Pool) (fuel : nat) (bucket_name : string) :
let st := snd (Clean.clean_bucket s3 caller pool fuel bucket_name) in
Forall (fun batch => length batch <= 1000) (Clean.futures st) /\
Forall (fun batch => length batch <= 1000) (Clean.executed st).
Proof.
simpl. destruct (Clean.clean_bucket s3 caller pool fuel bucket_name) as [exit st] eqn:E.
apply clean_bucket_path in E. destruct E as (E & _). simpl.
assert (H : Forall (fun batch => length batch <= 1000) (Clean.futures st)).
{ rewrite E. apply flat_map_split_batches_bound. }
split; [exact H|].
apply Forall_forall. intros batch Hin.
apply not_revoked_incl in Hin. revert batch Hin. now apply Forall_forall.
Qed.

(** C9. A run of [clean_bucket] that returns [True], that is, that completes
  without observing a cancellation, has completed as many batches as it
  created. *)
Theorem C9_completed_equals_created
(s3 : S3Client) (caller : Caller) (pool : Pool) (fuel : nat) (bucket_name : string) :
yields_all pool ->
fst (Clean.clean_bucket s3 caller pool fuel bucket_name) = Returned true ->
let st := snd (Clean.clean_bucket s3 caller pool fuel bucket_name) in
Clean.completed_batches st = Clean.batches_created st.
Proof.
intros Hy. simpl.
destruct (Clean.clean_bucket s3 caller pool fuel bucket_name) as [exit st] eqn:E.
simpl. intros ->. apply clean_bucket_spec in E. destruct E as (_ & E).
destruct (bucket_exists s3 bucket_name) as [[|]|e];
  destruct (Clean.versioning s3 bucket_name) as [versioned|e'];
  try (destruct E as (E & _); discriminate).
destruct E as (done & rest & F1 & F2 & F3 & F4 & F5 & F6 & F6' & F7 & F8).
destruct (F7 eq_refl) as (_ & _ & _ & G1 & _).
rewrite G1, F4. apply Permutation_length, Hy.
Qed.

Lemma C9_completed_equals_created_witness :
let run :=
  Clean.clean_bucket (Demo.plain_store [Demo.page 0 1000; Demo.page 1000 3])
    Demo.plain_caller Demo.reversing_pool 0 "bucket" in
yields_all Demo.reversing_pool /\
fst run = Returned true /\
Clean.completed_batches (snd run) = Clean.batches_created (snd run).
Proof.
intros run.
assert (Hy : yields_all Demo.reversing_pool).
{ intros A l. simpl. apply Permutation_sym, Permutation_rev. }
assert (Hr : fst run = Returned true) by (vm_compute; reflexivity).
split; [exact Hy|]. split; [exact Hr|].
exact (C9_completed_equals_created _ _ _ _ _ Hy Hr).
Defined.



(** The empty bucket: one page without [Contents]. *)
Example clean_empty_bucket :
  let run :=
    Clean.clean_bucket (Demo.plain_store [{| Contents := None |}])
      Demo.plain_caller Demo.reversing_pool 0 "bucket" in
  fst run = Returned true /\
  Clean.deleted_count (snd run) = 0 /\
  Clean.batches_created (snd run) = 0.
Proof. vm_compute. auto. Qed.






(** C4, amended. For deletion, the entries of each page are cut, in order,
    into slices of at most 1000 and one batch is submitted per slice while
    that page is processed: the batches submitted are those of the pages
    gone through so far, page after page, every batch is a slice of one
    page, and a page with 1 to 1000 entries gives exactly one batch, its
    own entries. *)
Theorem C4_batches_are_slices_of_one_page
  (s3 : S3Client) (caller : Caller) (pool : Pool) (fuel : nat) (bucket_name : string) :
  let st := snd (Clean.clean_bucket s3 caller pool fuel bucket_name) in
  let page_items := Clean.listed_items s3 bucket_name (Clean.path s3 bucket_name) in
  Clean.futures st
  = flat_map split_batches (firstn (Clean.pages_processed st) page_items) /\
  Forall (fun batch =>
            exists k items,
              nth_error page_items k = Some items /\ In batch (split_batches items))
         (Clean.futures st) /\
  Forall (fun items : list WorkItem =>
            concat (split_batches items) = items /\
            Forall (fun batch => length batch <= 1000) (split_batches items) /\
            (0 < length items <= 1000 -> split_batches items = [items]))
         page_items.
Proof.
  simpl. destruct (Clean.clean_bucket s3 caller pool fuel bucket_name) as [exit st] eqn:E.
  simpl. splits.
  - now apply clean_bucket_path in E.
  - apply Forall_forall. intros batch Hin.
    destruct (batch_within_page _ _ _ _ _ _ _ _ E Hin) as (k & items & Hk & _ & Hb).
    now exists k, items.
  - apply Forall_forall. intros items _. splits.
    + apply split_batches_concat.
    + apply split_batches_bound.
    + apply split_batches_single.
Qed.

(** C4, as stated, fails: for no listing without repeated entries does a
    batch hold entries of two different pages. *)
Lemma C4_no_batch_spans_two_pages :
  ~ exists (s3 : S3Client) (caller : Caller) (pool : Pool) (fuel : nat)
           (bucket_name : string) (batch : list WorkItem) (i j : nat)
           (p q : list WorkItem) (x y : WorkItem),
      let st := snd (Clean.clean_bucket s3 caller pool fuel bucket_name) in
      let page_items := Clean.listed_items s3 bucket_name (Clean.path s3 bucket_name) in
      Forall (fun items => length items < 1000) page_items /\
      NoDup (concat page_items) /\
      In batch (Clean.futures st) /\
      i <> j /\
      nth_error page_items i = Some p /\ nth_error page_items j = Some q /\
      In x p /\ In x batch /\ In y q /\ In y batch.
Proof.
  intros (s3 & caller & pool & fuel & bucket_name & batch & i & j & p & q & x & y & H).
  simpl in H.
  destruct (Clean.clean_bucket s3 caller pool fuel bucket_name) as [exit st] eqn:E.
  simpl in H. destruct H as (_ & Hnd & Hb & Hij & Hp & Hq & Hxp & Hxb & Hyq & Hyb).
  destruct (batch_within_page _ _ _ _ _ _ _ _ E Hb) as (k & items & Hk & _ & Hs).
  apply Hij. transitivity k.
  - apply (pages_disjoint _ Hnd i k p items x); auto.
    eapply split_batches_within; eauto.
  - symmetry. apply (pages_disjoint _ Hnd j k q items y); auto.
    eapply split_batches_within; eauto.
Qed.

(** Two pages of one object each give two batches of one entry. *)
Example clean_two_short_pages :
  Clean.futures
    (snd (Clean.clean_bucket (Demo.plain_store [Demo.page 0 1; Demo.page 1 1])
            Demo.plain_caller Demo.reversing_pool 0 "bucket"))
  = [ [ {| Key := "k0"; VersionId := None |} ];
      [ {| Key := "k1"; VersionId := None |} ] ].
Proof. vm_compute. reflexivity. Qed.




(** C3, amended. The destination key is a function of the two prefixes and
    the source key: both prefixes are first stripped of their leading and
    trailing slashes; when the stripped source prefix is not empty, the
    relative key is what follows it in the source key, without its leading
    slashes, and otherwise the source key itself; the destination key is the
    stripped destination prefix, a slash and the relative key (the prefix
    alone when the relative key is empty), or the relative key when the
    stripped destination prefix is empty.  Every copy [copy_objects] submits
    goes to that key.  In particular "a/b", "x/y" and "a/b/c.txt" give
    "x/y/c.txt", and with both prefixes empty the destination key is the
    source key. *)
Theorem C3_dest_key_from_stripped_prefixes
  (s3 : S3Client) (caller : Caller) (pool : Pool) (fuel : nat)
  (source_bucket dest_bucket source_prefix dest_prefix rest : string) :
  let sp := PyStr.strip source_prefix in
  let dp := PyStr.strip dest_prefix in
  let source_key := (sp ++ rest)%string in
  let relative_key := if PyStr.truthy sp then PyStr.lstrip rest else source_key in
  DestKey.dest_key source_prefix dest_prefix source_key
  = (if PyStr.truthy dp
     then (if PyStr.truthy relative_key then dp ++ "/" ++ relative_key else dp)
     else relative_key)%string /\
  Forall (fun task =>
            Copy.task_dest_key task
            = DestKey.dest_key source_prefix dest_prefix (Copy.task_source_key task))
         (Copy.futures
            (snd (Copy.copy_objects s3 caller pool fuel
                    source_bucket source_prefix dest_bucket dest_prefix))) /\
  DestKey.dest_key "a/b" "x/y" "a/b/c.txt" = "x/y/c.txt"%string /\
  (forall key, DestKey.dest_key "" "" key = key).
Proof.
  simpl. splits.
  - unfold DestKey.dest_key. rewrite !normalize_prefix_strip, relative_key_of_listed.
    unfold DestKey.build_dest_key.
    destruct (PyStr.truthy (PyStr.strip source_prefix)) eqn:E; [reflexivity|].
    now rewrite (truthy_false _ E).
  - apply copy_objects_dest_keys.
  - reflexivity.
  - reflexivity.
Qed.

(** C3, as stated, fails on a destination prefix that ends with a slash:
    joining the prefix as it is given, a slash and the relative key gives
    "x/y//c.txt", and [copy_objects] copies to "x/y/c.txt". *)
Lemma C3_trailing_slash_is_stripped :
  DestKey.dest_key "a/b" "x/y/" "a/b/c.txt" = "x/y/c.txt"%string /\
  DestKey.dest_key_spec "a/b" "x/y/" "a/b/c.txt" = "x/y//c.txt"%string /\
  DestKey.dest_key "a/b" "x/y/" "a/b/c.txt"
  <> DestKey.dest_key_spec "a/b" "x/y/" "a/b/c.txt" /\
  Copy.futures
    (snd (Copy.copy_objects
            (Demo.plain_store [ {| Contents := Some [ {| obj_Key := "a/b/c.txt" |} ] |} ])
            Demo.plain_caller Demo.reversing_pool 0 "source" "a/b" "target" "x/y/"))
  = [ {| Copy.task_source_key := "a/b/c.txt"; Copy.task_dest_key := "x/y/c.txt" |} ].
Proof. splits; try (vm_compute; reflexivity). vm_compute. discriminate. Qed.

Example dest_key_logs :
  DestKey.dest_key "logs/2023" "archive" "logs/2023/01/a.log" = "archive/01/a.log"%string.
Proof. reflexivity. Qed.

(** C10, amended. When the versioning query raises a [ClientError], the
    check logs it and reports not versioned, and [clean_bucket] goes on with
    the function for buckets without versioning, so that the run returns
    [True] when nothing else fails; when it raises any other exception, the
    exception reaches the handler of [clean_bucket], which returns [False]
    without having submitted a batch. *)
Theorem C10_probe_client_error_means_not_versioned
  (s3 : S3Client) (caller : Caller) (pool : Pool) (fuel : nat) (bucket_name : string)
  (e : Exn) :
  head_bucket s3 bucket_name = Ok tt ->
  get_bucket_versioning s3 bucket_name = Raise e ->
  let w0 := emit caller (VerifyingBucket bucket_name) world0 in
  let run := Clean.clean_bucket s3 caller pool fuel bucket_name in
  if is_ClientError e
  then
    is_versioned s3 bucket_name w0 = (Ok false, log (LogCheckingVersioning e) w0) /\
    run = match Clean._clean_non_versioned_bucket s3 caller pool fuel bucket_name
                  (emit caller (VersioningReport false) (log (LogCheckingVersioning e) w0))
          with
          | (Raised e', st) => Clean.clean_failed caller e' st
          | r => r
          end /\
    ((0 < max_workers caller)%Z ->
     never_cancelled caller ->
     pause_released caller fuel ->
     failure (list_objects_v2 s3 bucket_name None) = None ->
     fst run = Returned true)
  else
    is_versioned s3 bucket_name w0 = (Raise e, w0) /\
    run = Clean.clean_failed caller e (Clean.start w0) /\
    fst run = Returned false /\
    Clean.futures (snd run) = [].
Proof.
  intros Hb Hv w0 run.
  assert (Hrun : run = Clean.clean_bucket s3 caller pool fuel bucket_name) by reflexivity.
  unfold Clean.clean_bucket in Hrun.
  rewrite (bucket_exists_head _ _ Hb) in Hrun. fold w0 in Hrun.
  unfold is_versioned in *. rewrite Hv in *.
  destruct (is_ClientError e) eqn:Ec.
  - splits; auto.
    intros Hz Hn Hp Hf.
    destruct run as [exit st] eqn:E. unfold run in E. simpl.
    assert (Hver : Clean.versioning s3 bucket_name = Ok false).
    { unfold Clean.versioning, is_versioned. now rewrite Hv, Ec. }
    destruct (uninterrupted_run _ _ _ _ _ false _ _ E (bucket_exists_head _ _ Hb)
                Hver Hz Hn Hp) as (_ & _ & _ & F4).
    now destruct (F4 Hf).
  - splits; auto; now rewrite Hrun.
Qed.

Lemma C10_probe_client_error_means_not_versioned_witness :
  let s3 := Demo.probe_failing_store (ClientError "AccessDenied") [Demo.page 0 3] in
  let run := Clean.clean_bucket s3 Demo.plain_caller Demo.reversing_pool 0 "bucket" in
  head_bucket s3 "bucket" = Ok tt /\
  get_bucket_versioning s3 "bucket" = Raise (ClientError "AccessDenied") /\
  fst run = Returned true /\
  Clean.deleted_count (snd run) = 3.
Proof.
  intros s3 run. split; [reflexivity|]. split; [reflexivity|].
  pose proof (C10_probe_client_error_means_not_versioned s3 Demo.plain_caller
                Demo.reversing_pool 0 "bucket" (ClientError "AccessDenied")
                eq_refl eq_refl) as H.
  simpl in H. destruct H as (_ & _ & H).
  split.
  - apply H.
    + reflexivity.
    + intros f Hf. discriminate.
    + intros f Hf. discriminate.
    + reflexivity.
  - vm_compute. reflexivity.
Defined.

(** C10, as stated, fails: the versioning query raises an exception that is
    not a [ClientError] (the endpoint cannot be reached); the check does not
    report not versioned, and [clean_bucket] returns [False] without
    deleting anything from a bucket that holds three objects. *)
Lemma C10_other_probe_error_fails_the_run :
  let s3 := Demo.probe_failing_store (OtherError "EndpointConnectionError")
                                     [Demo.page 0 3] in
  let run := Clean.clean_bucket s3 Demo.plain_caller Demo.reversing_pool 0 "bucket" in
  get_bucket_versioning s3 "bucket" = Raise (OtherError "EndpointConnectionError") /\
  fst (is_versioned s3 "bucket" world0) <> Ok false /\
  fst run = Returned false /\
  Clean.futures (snd run) = [] /\
  Clean.pages_processed (snd run) = 0.
Proof.
  intros s3 run. splits; try (vm_compute; reflexivity). vm_compute. discriminate.
Qed.

(** C8. In a run that is not cancelled, whose pause is always released,
    whose buckets pass the verification and whose listing does not fail,
    what the store answers to the delete and copy calls does not matter:
    every batch and every copy is run, the failure of a batch, of an entry
    of a batch or of a copy is logged by the worker, and [clean_bucket] and
    [copy_objects] return [True]. *)
Theorem C8_item_failures_do_not_fail_the_run
  (s3 : S3Client) (caller : Caller) (pool : Pool) (fuel : nat)
  (bucket_name source_bucket source_prefix dest_bucket dest_prefix : string) :
  (0 < max_workers caller)%Z ->
  never_cancelled caller ->
  pause_released caller fuel ->
  (forall versioned,
      bucket_exists s3 bucket_name = Ok true ->
      Clean.versioning s3 bucket_name = Ok versioned ->
      Clean.listing_failure s3 bucket_name versioned = None ->
      let run := Clean.clean_bucket s3 caller pool fuel bucket_name in
      fst run = Returned true /\
      Clean.executed (snd run)
      = flat_map split_batches (Clean.listed_items s3 bucket_name versioned) /\
      (forall batch e,
          In batch (Clean.executed (snd run)) ->
          delete_objects s3 bucket_name batch = Raise e ->
          In (LogDeleteBatch e) (Clean.worker_log s3 bucket_name (snd run))) /\
      (forall batch response error,
          In batch (Clean.executed (snd run)) ->
          delete_objects s3 bucket_name batch = Ok response ->
          In error (get_list (Errors response)) ->
          In (LogDeleteItem (err_Key error) (err_Message error))
             (Clean.worker_log s3 bucket_name (snd run)))) /\
  (bucket_exists s3 source_bucket = Ok true ->
   bucket_exists s3 dest_bucket = Ok true ->
   let sp := DestKey.normalize_prefix source_prefix in
   let dp := DestKey.normalize_prefix dest_prefix in
   let listing := list_objects_v2 s3 source_bucket (Some sp) in
   failure listing = None ->
   let run := Copy.copy_objects s3 caller pool fuel
                source_bucket source_prefix dest_bucket dest_prefix in
   fst run = Returned true /\
   Copy.executed (snd run) = Copy.tasks_of sp dp (pages listing) /\
   (forall task e,
       In task (Copy.executed (snd run)) ->
       copy_object s3 source_bucket (Copy.task_source_key task)
                   dest_bucket (Copy.task_dest_key task) = Raise e ->
       In (LogCopyItem (Copy.task_source_key task) e)
          (Copy.worker_log s3 source_bucket dest_bucket (snd run)))).
Proof.
  intros Hz Hn Hp. split.
  - intros versioned Hb Hv Hf run.
    destruct run as [exit st] eqn:E. unfold run in E. simpl.
    destruct (uninterrupted_run _ _ _ _ _ versioned _ _ E Hb Hv Hz Hn Hp)
      as (F1 & F2 & F3 & F4).
    destruct (F4 Hf) as (G1 & _). splits; auto.
    + congruence.
    + intros batch e Hin Hr. unfold Clean.worker_log. apply in_flat_map.
      exists batch. split; [exact Hin|]. unfold Clean._delete_batch. rewrite Hr.
      now left.
    + intros batch response error Hin Hr He. unfold Clean.worker_log.
      apply in_flat_map. exists batch. split; [exact Hin|].
      unfold Clean._delete_batch. rewrite Hr. simpl.
      apply in_map_iff. now exists error.
  - intros Hs Hd sp dp listing Hf run.
    destruct run as [exit st] eqn:E. unfold run in E. simpl.
    apply copy_objects_spec in E. destruct E as (_ & E). rewrite Hs, Hd in E.
    destruct E as (done & rest & F1 & F2 & F3 & F4 & F5 & F6 & F7).
    destruct (F7 Hn Hp Hz) as (-> & Hr & Hok).
    rewrite app_nil_r in F1. fold sp in F1. fold listing in F1.
    assert (Hex : Copy.executed st = Copy.tasks_of sp dp (pages listing)).
    { unfold Copy.executed. rewrite Hr, not_revoked_nil, F2, <- F1. reflexivity. }
    splits; auto.
    intros task e Hin Hraise. unfold Copy.worker_log. apply in_flat_map.
    exists task. split; [exact Hin|]. unfold Copy._copy_single_object.
    rewrite Hraise. now left.
Qed.

Lemma C8_item_failures_do_not_fail_the_run_witness :
  let s3 := Demo.refusing_store [Demo.page 0 2] in
  let clean := Clean.clean_bucket s3 Demo.plain_caller Demo.reversing_pool 0 "bucket" in
  let copy := Copy.copy_objects s3 Demo.plain_caller Demo.reversing_pool 0
                "bucket" "" "target" "" in
  (0 < max_workers Demo.plain_caller)%Z /\
  never_cancelled Demo.plain_caller /\
  pause_released Demo.plain_caller 0 /\
  fst clean = Returned true /\
  Clean.deleted_count (snd clean) = 0 /\
  In (LogDeleteBatch (ClientError "AccessDenied")) (Clean.worker_log s3 "bucket" (snd clean)) /\
  fst copy = Returned true /\
  Copy.copied_count (snd copy) = 0 /\
  Copy.completed_count (snd copy) = 2.
Proof.
  intros s3 clean copy.
  assert (Hz : (0 < max_workers Demo.plain_caller)%Z) by reflexivity.
  assert (Hn : never_cancelled Demo.plain_caller) by (intros f Hf; discriminate).
  assert (Hp : pause_released Demo.plain_caller 0) by (intros f Hf; discriminate).
  destruct (C8_item_failures_do_not_fail_the_run s3 Demo.plain_caller Demo.reversing_pool
              0 "bucket" "bucket" "" "target" "" Hz Hn Hp) as (Hclean & Hcopy).
  destruct (Hclean false eq_refl eq_refl eq_refl) as (H1 & _).
  destruct (Hcopy eq_refl eq_refl eq_refl) as (H2 & _).
  splits; auto; try (vm_compute; reflexivity).
  vm_compute. auto.
Defined.

(** C7, amended. [clean_bucket] and [copy_objects] return a boolean and
    never raise: a run that observed a cancellation at a checkpoint returns
    [False], and so does a run stopped by a failed verification, by an
    exception of the versioning check or by a listing that fails.  The value
    returned does not tell a cancelled run from a failed one. *)
Theorem C7_cancelled_and_failed_runs_return_false
  (s3 : S3Client) (caller : Caller) (pool : Pool) (fuel : nat)
  (bucket_name source_bucket source_prefix dest_bucket dest_prefix : string) :
  let clean := Clean.clean_bucket s3 caller pool fuel bucket_name in
  let copy := Copy.copy_objects s3 caller pool fuel
                source_bucket source_prefix dest_bucket dest_prefix in
  let listing :=
    list_objects_v2 s3 source_bucket (Some (DestKey.normalize_prefix source_prefix)) in
  ((forall e, fst clean <> Raised e) /\
   (observed caller (cancel_polls (Clean.world (snd clean))) ->
    fst clean = Returned false) /\
   (bucket_exists s3 bucket_name <> Ok true -> fst clean = Returned false) /\
   (forall e, Clean.versioning s3 bucket_name = Raise e -> fst clean = Returned false) /\
   (never_cancelled caller -> pause_released caller fuel ->
    Clean.listing_failure s3 bucket_name (Clean.path s3 bucket_name) <> None ->
    fst clean = Returned false)) /\
  ((forall e, fst copy <> Raised e) /\
   (observed caller (cancel_polls (Copy.world (snd copy))) ->
    fst copy = Returned false) /\
   (bucket_exists s3 source_bucket <> Ok true -> fst copy = Returned false) /\
   (bucket_exists s3 dest_bucket <> Ok true -> fst copy = Returned false) /\
   (never_cancelled caller -> pause_released caller fuel ->
    failure listing <> None ->
    fst copy = Returned false)).
Proof.
  simpl. split.
  - destruct (Clean.clean_bucket s3 caller pool fuel bucket_name) as [exit st] eqn:E.
    simpl. pose proof (clean_bucket_observed _ _ _ _ _ _ _ E) as Hobs.
    apply clean_bucket_spec in E. destruct E as (Hraise & E).
    unfold Clean.path. splits; auto.
    + intros Hb. destruct (bucket_exists s3 bucket_name) as [[|]|e];
        try tauto; destruct (Clean.versioning s3 bucket_name); tauto.
    + intros e Hv. rewrite Hv in E.
      destruct (bucket_exists s3 bucket_name) as [[|]|e']; tauto.
    + intros Hn Hp Hf.
      destruct (bucket_exists s3 bucket_name) as [[|]|e];
        destruct (Clean.versioning s3 bucket_name) as [versioned|e'];
        try tauto.
      destruct E as (done & rest & _ & _ & _ & _ & _ & _ & F6 & F7 & _).
      destruct exit as [[|]|e|]; auto.
      * destruct (F7 eq_refl) as (_ & F & _). contradiction.
      * destruct (Hraise e eq_refl).
      * destruct (F6 Hn Hp eq_refl).
  - destruct (Copy.copy_objects s3 caller pool fuel
                source_bucket source_prefix dest_bucket dest_prefix) as [exit st] eqn:E.
    simpl. apply copy_objects_spec in E. destruct E as (Hraise & E).
    splits; auto.
    + intros Ho.
      destruct (bucket_exists s3 source_bucket) as [[|]|e];
        destruct (bucket_exists s3 dest_bucket) as [[|]|e'];
        try tauto.
      destruct E as (done & rest & _ & _ & _ & [F|F] & _); [exact F|].
      destruct (observed_not_unobserved _ _ Ho F).
    + intros Hb. destruct (bucket_exists s3 source_bucket) as [[|]|e];
        try tauto; destruct (bucket_exists s3 dest_bucket) as [[|]|e']; tauto.
    + intros Hb. destruct (bucket_exists s3 source_bucket) as [[|]|e];
        destruct (bucket_exists s3 dest_bucket) as [[|]|e']; tauto.
    + intros Hn Hp Hf.
      destruct (bucket_exists s3 source_bucket) as [[|]|e];
        destruct (bucket_exists s3 dest_bucket) as [[|]|e'];
        try tauto.
      destruct E as (done & rest & _ & _ & _ & _ & F6 & F7 & _).
      destruct exit as [[|]|e|]; auto.
      * destruct (F7 eq_refl) as (_ & F & _). contradiction.
      * destruct (Hraise e eq_refl).
      * destruct (F6 Hn Hp eq_refl).
Qed.

(** C7, as stated, fails: a run of [clean_bucket] that observes the
    cancellation at its first checkpoint and a run whose listing raises a
    [ClientError] return the same value, [False]; so do the two such runs of
    [copy_objects]. *)
Lemma C7_return_value_is_the_same :
  let cancelling := Demo.cancelling_caller 0 in
  let pool := Demo.pool_with_queued [] in
  let failing := Demo.listing_failing_store [] (ClientError "AccessDenied") in
  let cancelled_clean :=
    Clean.clean_bucket (Demo.plain_store [Demo.page 0 3]) cancelling pool 0 "bucket" in
  let failed_clean := Clean.clean_bucket failing Demo.plain_caller pool 0 "bucket" in
  let cancelled_copy :=
    Copy.copy_objects (Demo.plain_store [Demo.page 0 3]) cancelling pool 0
      "bucket" "" "target" "" in
  let failed_copy :=
    Copy.copy_objects failing Demo.plain_caller pool 0 "bucket" "" "target" "" in
  observed cancelling (cancel_polls (Clean.world (snd cancelled_clean))) /\
  never_cancelled Demo.plain_caller /\
  fst cancelled_clean = Returned false /\
  fst failed_clean = Returned false /\
  fst cancelled_clean = fst failed_clean /\
  observed cancelling (cancel_polls (Copy.world (snd cancelled_copy))) /\
  fst cancelled_copy = Returned false /\
  fst failed_copy = Returned false /\
  fst cancelled_copy = fst failed_copy.
Proof.
  intros cancelling pool failing cancelled_clean failed_clean cancelled_copy failed_copy.
  splits; try (vm_compute; reflexivity).
  - exists (fun k => 0 <=? k), 0. vm_compute. auto.
  - intros f Hf. discriminate.
  - exists (fun k => 0 <=? k), 0. vm_compute. auto.
Qed.

End Specification.

(** * Further properties of the engine *)

(** ** Prefixes and destination keys *)

Section KeyFacts.
Import PyStr DestKey Keys.
Local Open Scope string_scope.

Lemma lstrip_no_leading_slash (s : string) : no_leading_slash (lstrip s).
Proof.
  induction s as [|c s IH]; simpl; [exact I|].
  destruct (is_slash c) eqn:E; [exact IH | exact E].
Qed.

Lemma lstrip_fixed (s : string) : no_leading_slash s -> lstrip s = s.
Proof. destruct s as [|c s]; simpl; [reflexivity|]. now intros ->. Qed.

Lemma rstrip_cons (c : ascii) (s : string) :
  rstrip (String c s)
  = match rstrip s with
    | EmptyString => if is_slash c then EmptyString else String c EmptyString
    | String d r => String c (String d r)
    end.
Proof. reflexivity. Qed.

Lemma rstrip_no_leading_slash (s : string) :
  no_leading_slash s -> no_leading_slash (rstrip s).
Proof.
  destruct s as [|c s]; [exact (fun H => H)|].
  rewrite rstrip_cons. simpl. intros H.
  destruct (rstrip s); [rewrite H|]; exact H.
Qed.

Lemma rstrip_idempotent (s : string) : rstrip (rstrip s) = rstrip s.
Proof.
  induction s as [|c s IH]; [reflexivity|].
  rewrite rstrip_cons. destruct (rstrip s) as [|d r] eqn:E.
  - destruct (is_slash c) eqn:Ec; [reflexivity|].
    rewrite rstrip_cons. simpl. now rewrite Ec.
  - rewrite rstrip_cons, IH. reflexivity.
Qed.

Lemma strip_no_leading_slash (s : string) : lstrip (strip s) = strip s.
Proof.
  apply lstrip_fixed, rstrip_no_leading_slash, lstrip_no_leading_slash.
Qed.

Lemma strip_idempotent (s : string) : strip (strip s) = strip s.
Proof.
  unfold strip at 1. rewrite strip_no_leading_slash. apply rstrip_idempotent.
Qed.

Lemma startswith_append (p x : string) : startswith p (p ++ x) = true.
Proof.
  induction p as [|c p IH]; simpl; [reflexivity|].
  now rewrite Ascii.eqb_refl, IH.
Qed.

Lemma startswith_refl (p : string) : startswith p p = true.
Proof.
  induction p as [|c p IH]; simpl; [reflexivity|].
  now rewrite Ascii.eqb_refl, IH.
Qed.

Lemma append_cancel (p x y : string) : p ++ x = p ++ y -> x = y.
Proof.
  induction p as [|c p IH]; simpl; [exact (fun H => H)|].
  intros H. injection H as H. now apply IH.
Qed.

Lemma slash_changes (rest : string) : String "/" rest <> rest.
Proof.
  induction rest as [|c r IH]; [discriminate|].
  intros H. injection H as Hc Hr. subst c. exact (IH Hr).
Qed.

Lemma dest_key_under (a b rest : string) :
  truthy (strip a) = true ->
  truthy (strip b) = true ->
  truthy rest = true ->
  no_leading_slash rest ->
  dest_key a b (under (strip a) rest) = under (strip b) rest.
Proof.
  intros Ha Hb Hr Hn. unfold dest_key, under.
  rewrite !normalize_prefix_strip, relative_key_of_listed, Ha.
  change (lstrip (String "/" rest)) with (lstrip rest).
  rewrite (lstrip_fixed _ Hn). unfold build_dest_key. now rewrite Hb, Hr.
Qed.

End KeyFacts.

Section KeyProperties.
Import Store Runtime PyStr DestKey Keys.
Local Open Scope string_scope.

(** X1. Whatever the prefixes and the key, the destination key starts with
    the destination prefix stripped of its slashes, and so does the
    destination of every copy [copy_objects] submits. *)
Theorem X1_destination_lies_under_dest_prefix
  (s3 : S3Client) (caller : Caller) (pool : Pool) (fuel : nat)
  (source_bucket dest_bucket source_prefix dest_prefix : string) :
  (forall source_key,
      startswith (strip dest_prefix) (dest_key source_prefix dest_prefix source_key)
      = true) /\
  Forall (fun task => startswith (strip dest_prefix) (Copy.task_dest_key task) = true)
         (Copy.futures
            (snd (Copy.copy_objects s3 caller pool fuel
                    source_bucket source_prefix dest_bucket dest_prefix))).
Proof.
  assert (H : forall source_key,
             startswith (strip dest_prefix)
                        (dest_key source_prefix dest_prefix source_key) = true).
  { intros source_key. unfold dest_key. rewrite !normalize_prefix_strip.
    unfold build_dest_key.
    destruct (truthy (strip dest_prefix)) eqn:E.
    - destruct (truthy (relative_key (strip source_prefix) source_key));
        [apply startswith_append | apply startswith_refl].
    - now rewrite (truthy_false _ E). }
  split; [exact H|].
  pose proof (copy_objects_dest_keys s3 caller pool fuel
                source_bucket source_prefix dest_bucket dest_prefix) as K.
  rewrite Forall_forall in K. apply Forall_forall. intros task Hin.
  rewrite (K task Hin). apply H.
Qed.

(** X2. Normalising a prefix is idempotent: a normalised prefix neither
    starts nor ends with a slash, normalising it again changes nothing, and
    [copy_objects] derives the same destination keys from normalised
    prefixes as from the prefixes as given. *)
Theorem X2_normalising_prefixes_is_idempotent
  (prefix source_prefix dest_prefix source_key : string) :
  normalize_prefix (normalize_prefix prefix) = normalize_prefix prefix /\
  lstrip (normalize_prefix prefix) = normalize_prefix prefix /\
  rstrip (normalize_prefix prefix) = normalize_prefix prefix /\
  dest_key (normalize_prefix source_prefix) (normalize_prefix dest_prefix) source_key
  = dest_key source_prefix dest_prefix source_key.
Proof.
  rewrite !normalize_prefix_strip. splits.
  - apply strip_idempotent.
  - apply strip_no_leading_slash.
  - apply rstrip_idempotent.
  - unfold dest_key. now rewrite !normalize_prefix_strip, !strip_idempotent.
Qed.

(** X3. Under a source prefix that is not empty, the slashes that follow the
    prefix in a key are dropped: two different source keys that differ only
    by such a slash are copied to the same destination key. *)
Theorem X3_slash_after_prefix_collides
  (source_prefix dest_prefix rest : string) :
  truthy (strip source_prefix) = true ->
  strip source_prefix ++ String "/" rest <> strip source_prefix ++ rest /\
  dest_key source_prefix dest_prefix (strip source_prefix ++ String "/" rest)
  = dest_key source_prefix dest_prefix (strip source_prefix ++ rest).
Proof.
  intros Hp. split.
  - intros H. apply append_cancel in H. exact (slash_changes _ H).
  - unfold dest_key. rewrite !normalize_prefix_strip, !relative_key_of_listed, Hp.
    reflexivity.
Qed.

Lemma X3_slash_after_prefix_collides_witness :
  truthy (strip "logs/") = true /\
  "logs//a.log" <> "logs/a.log" /\
  dest_key "logs/" "archive" "logs//a.log" = dest_key "logs/" "archive" "logs/a.log".
Proof.
  split; [reflexivity|].
  exact (X3_slash_after_prefix_collides "logs/" "archive" "/a.log" eq_refl).
Defined.

(** X4. Copying from prefix [a] to prefix [b] and back from [b] to [a]
    gives the key back: a key [a/rest], with [rest] not empty and without
    leading slash, goes to [b/rest], and [b/rest] comes back to [a/rest]. *)
Theorem X4_copy_there_and_back (a b rest : string) :
  truthy (strip a) = true ->
  truthy (strip b) = true ->
  truthy rest = true ->
  no_leading_slash rest ->
  dest_key a b (under (strip a) rest) = under (strip b) rest /\
  dest_key b a (dest_key a b (under (strip a) rest)) = under (strip a) rest.
Proof.
  intros Ha Hb Hr Hn. rewrite (dest_key_under a b rest Ha Hb Hr Hn).
  split; [reflexivity|]. now apply dest_key_under.
Qed.

Lemma X4_copy_there_and_back_witness :
  truthy (strip "/logs/2023/") = true /\
  truthy (strip "archive") = true /\
  dest_key "/logs/2023/" "archive" "logs/2023/01/a.log" = "archive/01/a.log" /\
  dest_key "archive" "/logs/2023/" "archive/01/a.log" = "logs/2023/01/a.log".
Proof.
  split; [reflexivity|]. split; [reflexivity|].
  destruct (X4_copy_there_and_back "/logs/2023/" "archive" "01/a.log"
              eq_refl eq_refl eq_refl eq_refl) as (H1 & H2).
  split; [exact H1|]. rewrite H1 in H2. exact H2.
Defined.

End KeyProperties.

(** ** Batches of a page *)

Section BatchFacts.
Context {A : Type}.

Lemma range0_bound (stop s k : nat) :
  0 < s -> k < (stop + s - 1) / s -> k * s < stop.
Proof.
  intros Hs Hk.
  pose proof (Nat.Div0.mul_div_le (stop + s - 1) s) as H. nia.
Qed.

(** The [k]-th batch of a page. *)
Lemma split_batches_nth (l : list A) (k : nat) (batch : list A) :
  nth_error (split_batches l) k = Some batch ->
  k * batch_limit < length l /\
  batch = firstn batch_limit (skipn (k * batch_limit) l).
Proof.
  unfold split_batches, PyList.range0. rewrite !nth_error_map, nth_error_seq.
  destruct (k <? (length l + batch_limit - 1) / batch_limit) eqn:E; [|discriminate].
  apply Nat.ltb_lt in E. cbn [option_map Nat.add]. intros H. injection H as <-.
  split.
  - apply range0_bound; [unfold batch_limit; lia | exact E].
  - apply slice_step.
Qed.

Lemma split_batches_size (l : list A) (k : nat) (batch : list A) :
  nth_error (split_batches l) k = Some batch ->
  length batch = Nat.min batch_limit (length l - k * batch_limit) /\
  0 < length batch.
Proof.
  intros H. apply split_batches_nth in H. destruct H as (Hlt & ->).
  rewrite length_firstn, length_skipn. split; [reflexivity|].
  unfold batch_limit in *. lia.
Qed.

Lemma split_batches_not_empty (l : list A) :
  Forall (fun batch => batch <> []) (split_batches l).
Proof.
  apply Forall_forall. intros batch Hin. apply In_nth_error in Hin.
  destruct Hin as (k & Hk). apply split_batches_size in Hk.
  destruct Hk as (_ & Hpos). intros ->. simpl in Hpos. lia.
Qed.

Lemma split_batches_count (l : list A) :
  length (split_batches l) = (length l + batch_limit - 1) / batch_limit.
Proof.
  unfold split_batches, PyList.range0. now rewrite !length_map, length_seq.
Qed.


End BatchFacts.


Section BatchProperties.
Import Store Runtime.

(** X5. In every run of [clean_bucket], cancelled or not, no batch handed to
    the executor is empty: a page without entries submits nothing. *)
Theorem X5_no_empty_batch
  (s3 : S3Client) (caller : Caller) (pool : Pool) (fuel : nat) (bucket_name : string) :
  Forall (fun batch => batch <> [])
         (Clean.futures (snd (Clean.clean_bucket s3 caller pool fuel bucket_name))).
Proof.
  destruct (Clean.clean_bucket s3 caller pool fuel bucket_name) as [exit st] eqn:E.
  apply clean_bucket_path in E. destruct E as (E & _). simpl. rewrite E.
  apply Forall_flat_map. apply Forall_forall. intros items _.
  apply split_batches_not_empty.
Qed.

(** X6. A page of n entries is cut into ceil(n / 1000) batches; the k-th one
    holds the entries from position 1000 k on, min(1000, n - 1000 k) of
    them, so that every batch but the last is full. *)
Theorem X6_batches_of_a_page (items : list WorkItem) :
  length (split_batches items) = (length items + 999) / 1000 /\
  (forall k batch,
      nth_error (split_batches items) k = Some batch ->
      batch = firstn 1000 (skipn (k * 1000) items) /\
      length batch = Nat.min 1000 (length items - k * 1000) /\
      0 < length batch) /\
  (forall k, (k + 1) * 1000 <= length items ->
             exists batch, nth_error (split_batches items) k = Some batch /\
                           length batch = 1000).
Proof.
  splits.
  - rewrite split_batches_count. unfold batch_limit.
    now replace (length items + 1000 - 1) with (length items + 999) by lia.
  - intros k batch H. pose proof (split_batches_size _ _ _ H) as (H1 & H2).
    apply split_batches_nth in H. destruct H as (_ & H). splits; auto.
  - intros k Hk.
    destruct (nth_error (split_batches items) k) as [batch|] eqn:E.
    + exists batch. split; [reflexivity|].
      apply split_batches_size in E. destruct E as (E & _). rewrite E.
      unfold batch_limit. lia.
    + apply nth_error_None in E. rewrite split_batches_count in E.
      unfold batch_limit in E.
      assert (H : k < (length items + 1000 - 1) / 1000).
      { apply Nat.div_le_lower_bound; lia. }
      lia.
Qed.




End BatchProperties.

(** ** Counting the objects of a bucket *)

Section CountFacts.
Import Store Runtime.

Lemma plain_items_count (pgs : list ObjectPage) :
  length (flat_map Clean.plain_items pgs)
  = list_sum (map (fun page => length (get_list (Contents page))) pgs).
Proof.
  induction pgs as [|page pgs IH]; simpl; [reflexivity|].
  rewrite length_app, IH. unfold Clean.plain_items. now rewrite length_map.
Qed.

(** What [count_objects] does, case by case. *)
Lemma count_objects_cases
  (s3 : S3Client) (bucket_name : string) (prefix : option string) (w : World) :
  let p := Some match prefix with
                | Some p => p
                | None => EmptyString
                end in
  let plain := list_objects_v2 s3 bucket_name p in
  let listing := list_object_versions s3 bucket_name p in
  let objects := list_sum (map (fun page => length (get_list (Contents page))) (pages plain)) in
  let failed e w := (Raise e, if is_ClientError e then log (LogCountingObjects e) w else w) in
  Clean.count_objects s3 bucket_name prefix w
  = match failure plain with
    | Some e => failed e w
    | None =>
        match Clean.versioning s3 bucket_name with
        | Raise e => failed e w
        | Ok false =>
            (Ok {| Clean.objects := objects; Clean.versions := 0;
                   Clean.delete_markers := 0 |},
             snd (is_versioned s3 bucket_name w))
        | Ok true =>
            match failure listing with
            | Some e => failed e w
            | None =>
                (Ok {| Clean.objects := objects;
                       Clean.versions :=
                         list_sum (map (fun page => length (get_list (Versions page)))
                                       (pages listing));
                       Clean.delete_markers :=
                         list_sum (map (fun page => length (get_list (DeleteMarkers page)))
                                       (pages listing)) |}, w)
            end
        end
    end.
Proof.
  cbv zeta. unfold Clean.count_objects, Clean.versioning, is_versioned.
  destruct (failure (list_objects_v2 s3 bucket_name _)) as [e|]; [reflexivity|].
  destruct (get_bucket_versioning s3 bucket_name) as [status|e]; simpl.
  - destruct status as [s|]; [|reflexivity].
    destruct (String.eqb s "Enabled"); reflexivity.
  - destruct (is_ClientError e) eqn:Ee; simpl; [reflexivity|]. now rewrite Ee.
Qed.

End CountFacts.

Section CountProperties.
Import Store Runtime.

(** X9. On a bucket without versioning, when nothing fails or interrupts
    the run and the listing is the one [count_objects] saw, the deletions
    [clean_bucket] counts are the objects [count_objects] reports, and
    [count_objects] reports no version and no delete marker. *)
Theorem X9_plain_clean_matches_count
  (s3 : S3Client) (caller : Caller) (pool : Pool) (fuel : nat) (bucket_name : string)
  (counts : Clean.Counts) (w0 w1 : World) :
  (0 < max_workers caller)%Z ->
  head_bucket s3 bucket_name = Ok tt ->
  Clean.versioning s3 bucket_name = Ok false ->
  list_objects_v2 s3 bucket_name (Some EmptyString) = list_objects_v2 s3 bucket_name None ->
  Clean.count_objects s3 bucket_name None w0 = (Ok counts, w1) ->
  Clean.deletes_whole_batches s3 bucket_name ->
  never_cancelled caller ->
  pause_released caller fuel ->
  yields_all pool ->
  let run := Clean.clean_bucket s3 caller pool fuel bucket_name in
  fst run = Returned true /\
  Clean.deleted_count (snd run) = Clean.objects counts /\
  Clean.versions counts = 0 /\
  Clean.delete_markers counts = 0.
Proof.
  intros Hz Hb Hv Hsame Hc Hd Hn Hp Hy run.
  rewrite count_objects_cases in Hc. cbv zeta in Hc. rewrite Hv, Hsame in Hc.
  destruct (failure (list_objects_v2 s3 bucket_name None)) as [e|] eqn:Hf;
    [discriminate|].
  injection Hc as <- _. simpl.
  destruct run as [exit st] eqn:E. unfold run in E. simpl.
  destruct (uninterrupted_run _ _ _ _ _ false _ _ E (bucket_exists_head _ _ Hb) Hv Hz Hn Hp)
    as (F1 & F2 & F3 & F4).
  destruct (F4 Hf) as (G1 & G2 & G3).
  splits; auto.
  rewrite <- plain_items_count, G3.
  rewrite (map_ext _ (@length WorkItem)) by (intros batch; now apply reported_whole).
  rewrite (list_sum_permutation _ _ (Permutation_map _ (Hy _ _))).
  rewrite <- length_concat, F1, concat_split_batches. unfold Clean.listed_items.
  now rewrite flat_map_concat_map.
Qed.

Lemma X9_plain_clean_matches_count_witness :
  let s3 := Demo.plain_store [Demo.page 0 1000; Demo.page 1000 200] in
  let run := Clean.clean_bucket s3 Demo.plain_caller Demo.reversing_pool 0 "bucket" in
  Clean.count_objects s3 "bucket" None world0
  = (Ok {| Clean.objects := 1200; Clean.versions := 0; Clean.delete_markers := 0 |}, world0) /\
  fst run = Returned true /\
  Clean.deleted_count (snd run) = 1200.
Proof.
  intros s3 run.
  assert (Hc : Clean.count_objects s3 "bucket" None world0
               = (Ok {| Clean.objects := 1200; Clean.versions := 0;
                        Clean.delete_markers := 0 |}, world0))
    by (vm_compute; reflexivity).
  split; [exact Hc|].
  pose proof (fun a b c d =>
                X9_plain_clean_matches_count s3 Demo.plain_caller Demo.reversing_pool
                  0 "bucket" _ _ _ a b c d Hc) as H.
  specialize (H eq_refl eq_refl eq_refl eq_refl).
  assert (Hd : Clean.deletes_whole_batches s3 "bucket").
  { intros batch. exists {| Deleted := Some batch; Errors := None |}. split; reflexivity. }
  assert (Hn : never_cancelled Demo.plain_caller) by (intros f Hf; discriminate).
  assert (Hp : pause_released Demo.plain_caller 0) by (intros f Hf; discriminate).
  assert (Hy : yields_all Demo.reversing_pool).
  { intros A l. simpl. apply Permutation_sym, Permutation_rev. }
  destruct (H Hd Hn Hp Hy) as (H1 & H2 & _).
  split; [exact H1 | exact H2].
Defined.

(** X10. [count_objects] raises exactly the exception that ends one of its
    listings or an exception of the versioning query other than a
    [ClientError]; a [ClientError] of the versioning query never makes it
    raise: the bucket is then counted as one without versioning, and the
    versions listing is not consulted.  It logs its own record for a
    [ClientError] it raises, and for no other exception. *)
Theorem X10_count_objects_raises_listing_errors
  (s3 : S3Client) (bucket_name : string) (prefix : option string) (w : World) :
  let p := Some match prefix with
                | Some p => p
                | None => EmptyString
                end in
  let plain := list_objects_v2 s3 bucket_name p in
  let listing := list_object_versions s3 bucket_name p in
  let run := Clean.count_objects s3 bucket_name prefix w in
  (forall e,
      fst run = Raise e <->
      failure plain = Some e \/
      (failure plain = None /\
       get_bucket_versioning s3 bucket_name = Raise e /\ is_ClientError e = false) \/
      (failure plain = None /\
       Clean.versioning s3 bucket_name = Ok true /\ failure listing = Some e)) /\
  (forall e,
      failure plain = None ->
      get_bucket_versioning s3 bucket_name = Raise e -> is_ClientError e = true ->
      run = (Ok {| Clean.objects :=
                     list_sum (map (fun page => length (get_list (Contents page)))
                                   (pages plain));
                   Clean.versions := 0; Clean.delete_markers := 0 |},
             log (LogCheckingVersioning e) w)) /\
  (forall e,
      fst run = Raise e ->
      logged (snd run)
      = if is_ClientError e then logged w ++ [LogCountingObjects e] else logged w).
Proof.
  cbv zeta. rewrite count_objects_cases. cbv zeta.
  unfold Clean.versioning, is_versioned.
  destruct (failure (list_objects_v2 s3 bucket_name _)) as [e0|] eqn:Hf.
  - splits.
    + intros e. simpl. split.
      * intros H. injection H as <-. now left.
      * intros [H|[(H & _)|(H & _)]]; congruence.
    + discriminate.
    + intros e H. simpl in H. injection H as <-. simpl.
      now destruct (is_ClientError e0).
  - destruct (get_bucket_versioning s3 bucket_name) as [status|e0] eqn:Hv; simpl.
    + destruct (match status with
                | Some s => String.eqb s "Enabled"
                | None => false
                end) eqn:Hs.
      * destruct (failure (list_object_versions s3 bucket_name _)) as [e1|] eqn:Hl;
          simpl; splits; try discriminate.
        -- intros e. split.
           ++ intros H. injection H as <-. right. right. auto.
           ++ intros [H|[(_ & H & _)|(_ & _ & H)]]; congruence.
        -- intros e H. injection H as <-. now destruct (is_ClientError e1).
        -- intros e. split; [discriminate|].
           intros [H|[(_ & H & _)|(_ & _ & H)]]; congruence.
      * simpl. splits; try discriminate.
        intros e. split; [discriminate|].
        intros [H|[(_ & H & _)|(_ & H & _)]]; congruence.
    + destruct (is_ClientError e0) eqn:Ee; simpl.
      * splits.
        -- intros e. split; [discriminate|].
           intros [H|[(_ & H & H')|(_ & H & _)]]; congruence.
        -- intros e _ H _. injection H as <-. reflexivity.
        -- discriminate.
      * splits.
        -- intros e. split.
           ++ intros H. injection H as <-. right. left. auto.
           ++ intros [H|[(_ & H & _)|(_ & H & _)]]; congruence.
        -- intros e _ H He. injection H as <-. congruence.
        -- intros e H. injection H as <-. now rewrite Ee.
Qed.

End CountProperties.

(** ** Tallies of [copy_objects] *)

Section CopyCounts.
Import Store Runtime Copy.
Variable s3 : S3Client.
Variable caller : Caller.
Variable pool : Pool.
Variable fuel : nat.


Lemma tasks_of_app (sp dp : string) (l l' : list ObjectPage) :
  tasks_of sp dp (l ++ l') = tasks_of sp dp l ++ tasks_of sp dp l'.
Proof. unfold tasks_of. apply flat_map_app. Qed.





Lemma successes_bound (source_bucket dest_bucket : string) (l : list CopyTask) :
  Tally.successes s3 source_bucket dest_bucket l <= length l.
Proof.
  unfold Tally.successes. induction l as [|task l IH]; simpl; [lia|].
  destruct (Tally.copy_succeeds s3 source_bucket dest_bucket task); simpl; lia.
Qed.


Lemma task_of_copy_of (source_prefix dest_prefix : string) (obj : ObjectSummary) :
  task_of (DestKey.normalize_prefix source_prefix) (DestKey.normalize_prefix dest_prefix) obj
  = Tally.copy_of source_prefix dest_prefix (obj_Key obj).
Proof. reflexivity. Qed.

Lemma tasks_of_keys (source_prefix dest_prefix : string) (pgs : list ObjectPage) :
  tasks_of (DestKey.normalize_prefix source_prefix) (DestKey.normalize_prefix dest_prefix) pgs
  = map (Tally.copy_of source_prefix dest_prefix) (flat_map Tally.keys_of pgs).
Proof.
  unfold tasks_of, Tally.keys_of.
  induction pgs as [|page pgs IH]; simpl; [reflexivity|].
  rewrite map_app, IH, map_map. f_equal.
Qed.

End CopyCounts.

Section CopyProperties.
Import Store Runtime.



(** X12. When a run of [copy_objects] observes a cancellation, it returns
    [False]; the copies submitted are those of the first pages of the
    listing, in listing order, and no other; every copy that had started
    when the pending futures were cancelled runs, and the futures cancelled
    were still queued. *)
Theorem X12_cancelled_copy_lets_started_copies_run
  (s3 : S3Client) (caller : Caller) (pool : Pool) (fuel : nat)
  (source_bucket source_prefix dest_bucket dest_prefix : string) :
  let run := Copy.copy_objects s3 caller pool fuel
               source_bucket source_prefix dest_bucket dest_prefix in
  let st := snd run in
  let listing :=
    list_objects_v2 s3 source_bucket (Some (DestKey.normalize_prefix source_prefix)) in
  observed caller (cancel_polls (Copy.world st)) ->
  fst run = Returned false /\
  (exists n,
      Copy.futures st
      = map (Tally.copy_of source_prefix dest_prefix)
            (flat_map Tally.keys_of (firstn n (pages listing)))) /\
  (forall i task,
      nth_error (Copy.futures st) i = Some task ->
      queued_at_cancel pool i = false ->
      In task (Copy.executed st)) /\
  Forall (fun i => i < length (Copy.futures st) /\ queued_at_cancel pool i = true)
         (Copy.revoked st).
Proof.
  simpl.
  destruct (Copy.copy_objects s3 caller pool fuel
              source_bucket source_prefix dest_bucket dest_prefix) as [exit st] eqn:E.
  simpl. intros Ho. apply copy_objects_spec in E. destruct E as (_ & E).
  assert (H : exit = Returned false /\
              (exists n,
                  Copy.futures st
                  = map (Tally.copy_of source_prefix dest_prefix)
                        (flat_map Tally.keys_of
                           (firstn n (pages (list_objects_v2 s3 source_bucket
                                               (Some (DestKey.normalize_prefix
                                                        source_prefix))))))) /\
              (Copy.revoked st = [] \/
               Copy.revoked st = cancel_all pool (Copy.futures st))).
  { destruct (bucket_exists s3 source_bucket) as [[|]|e];
      destruct (bucket_exists s3 dest_bucket) as [[|]|e'];
      try (destruct E as (-> & -> & ->); splits; auto; exists 0; reflexivity).
    destruct E as (done & rest & F1 & F2 & F3 & F4 & _).
    splits.
    - destruct F4 as [F4|F4]; [exact F4|].
      destruct (observed_not_unobserved _ _ Ho F4).
    - exists (length done).
      rewrite F1, firstn_app, Nat.sub_diag, firstn_O, firstn_all, app_nil_r, F2.
      apply tasks_of_keys.
    - destruct F3 as [F3|(_ & F3)]; auto. }
  destruct H as (H1 & H2 & H3). splits; auto.
  - intros i task Hn Hq. apply not_revoked_keeps with (i := i); [exact Hn|].
    destruct H3 as [-> | ->]; [tauto|].
    intros Hin. apply cancel_all_spec in Hin. destruct Hin as [_ Hin]. congruence.
  - apply Forall_forall. intros i Hi. destruct H3 as [R|R]; rewrite R in Hi.
    + contradiction.
    + now apply cancel_all_spec in Hi.
Qed.

Lemma X12_cancelled_copy_lets_started_copies_run_witness :
  let run :=
    Copy.copy_objects (Demo.plain_store [Demo.page 0 2; Demo.page 2 1; Demo.page 3 1])
      (Demo.cancelling_caller 2) (Demo.pool_with_queued [1; 2]) 0
      "source" "" "dest" "copy" in
  observed (Demo.cancelling_caller 2) (cancel_polls (Copy.world (snd run))) /\
  fst run = Returned false /\
  map Copy.task_dest_key (Copy.futures (snd run)) = ["copy/k0"; "copy/k1"; "copy/k2"]%string /\
  map Copy.task_dest_key (Copy.executed (snd run)) = ["copy/k0"]%string.
Proof.
  intros run.
  assert (Ho : observed (Demo.cancelling_caller 2) (cancel_polls (Copy.world (snd run)))).
  { exists (fun k => 2 <=? k), 2. vm_compute. auto. }
  split; [exact Ho|].
  destruct (X12_cancelled_copy_lets_started_copies_run _ _ _ _ _ _ _ _ Ho) as (H1 & _).
  split; [exact H1|]. vm_compute. auto.
Defined.

End CopyProperties.

(** ** Failures of the listing and of the pool *)

Section FailureProperties.
Import Store Runtime.

Lemma exit_false (exit : Exit) :
  (forall e, exit <> Raised e) -> exit <> Spinning -> exit <> Returned true ->
  exit = Returned false.
Proof.
  intros Hr Hs Ht. destruct exit as [[|]|e|]; try reflexivity.
  - now destruct Ht.
  - now destruct (Hr e).
  - now destruct Hs.
Qed.

(** X13. A listing that raises after it has yielded some pages makes the
    run return [False], but what those pages gave was submitted and runs:
    [clean_bucket] has every batch of the pages yielded deleted, and
    [copy_objects] every object of the pages yielded copied, when nothing
    else interrupts the run. *)
Theorem X13_failing_listing_keeps_submitted_work
  (s3 : S3Client) (caller : Caller) (pool : Pool) (fuel : nat)
  (bucket_name : string) (versioned : bool)
  (source_bucket source_prefix dest_bucket dest_prefix : string) :
  (0 < max_workers caller)%Z ->
  never_cancelled caller ->
  pause_released caller fuel ->
  (bucket_exists s3 bucket_name = Ok true ->
   Clean.versioning s3 bucket_name = Ok versioned ->
   Clean.listing_failure s3 bucket_name versioned <> None ->
   let run := Clean.clean_bucket s3 caller pool fuel bucket_name in
   fst run = Returned false /\
   Clean.executed (snd run)
   = flat_map split_batches (Clean.listed_items s3 bucket_name versioned)) /\
  (let listing :=
     list_objects_v2 s3 source_bucket (Some (DestKey.normalize_prefix source_prefix)) in
   bucket_exists s3 source_bucket = Ok true ->
   bucket_exists s3 dest_bucket = Ok true ->
   failure listing <> None ->
   let run := Copy.copy_objects s3 caller pool fuel
                source_bucket source_prefix dest_bucket dest_prefix in
   fst run = Returned false /\
   Copy.executed (snd run)
   = map (Tally.copy_of source_prefix dest_prefix)
         (flat_map Tally.keys_of (pages listing))).
Proof.
  intros Hz Hn Hp. split.
  - intros Hb Hv Hf run. destruct run as [exit st] eqn:E. unfold run in E. simpl.
    destruct (uninterrupted_run _ _ _ _ _ versioned _ _ E Hb Hv Hz Hn Hp)
      as (F1 & F2 & _).
    rewrite F2, F1. split; [|reflexivity].
    apply clean_bucket_spec in E. destruct E as (Hr & E). rewrite Hb, Hv in E.
    destruct E as (done & rest & _ & _ & _ & _ & _ & _ & G1 & G2 & _).
    apply exit_false; auto.
    intros Ht. destruct (G2 Ht) as (_ & G & _). contradiction.
  - intros listing Hs Hd Hf run. destruct run as [exit st] eqn:E. unfold run in E. simpl.
    apply copy_objects_spec in E. destruct E as (Hr & E). rewrite Hs, Hd in E.
    destruct E as (done & rest & F1 & F2 & _ & _ & F5 & F6 & F7).
    destruct (F7 Hn Hp Hz) as (-> & Hrev & _).
    rewrite app_nil_r in F1. fold listing in F1. subst done. split.
    + apply exit_false; auto.
      intros Ht. destruct (F6 Ht) as (_ & G & _). contradiction.
    + unfold Copy.executed. rewrite Hrev, not_revoked_nil, F2. apply tasks_of_keys.
Qed.

Lemma X13_failing_listing_keeps_submitted_work_witness :
  let s3 := Demo.listing_failing_store [Demo.page 0 2] (ClientError "SlowDown") in
  let clean := Clean.clean_bucket s3 Demo.plain_caller Demo.reversing_pool 0 "bucket" in
  let copy := Copy.copy_objects s3 Demo.plain_caller Demo.reversing_pool 0
                "bucket" "" "dest" "" in
  (fst clean = Returned false /\
   Clean.executed (snd clean)
   = [ [ {| Key := "k0"; VersionId := None |}; {| Key := "k1"; VersionId := None |} ] ]) /\
  (fst copy = Returned false /\
   map Copy.task_source_key (Copy.executed (snd copy)) = ["k0"; "k1"]%string).
Proof.
  intros s3 clean copy.
  assert (Hn : never_cancelled Demo.plain_caller) by (intros f Hf; discriminate).
  assert (Hp : pause_released Demo.plain_caller 0) by (intros f Hf; discriminate).
  destruct (X13_failing_listing_keeps_submitted_work s3 Demo.plain_caller
              Demo.reversing_pool 0 "bucket" false "bucket" "" "dest" ""
              eq_refl Hn Hp) as (H1 & H2).
  split.
  - destruct (H1 eq_refl eq_refl) as (G1 & G2); [discriminate|].
    split; [exact G1|]. unfold clean. rewrite G2. vm_compute. reflexivity.
  - destruct (H2 eq_refl eq_refl) as (G1 & G2); [discriminate|].
    split; [exact G1|]. unfold copy. rewrite G2. vm_compute. reflexivity.
Defined.

(** X14. With [max_workers <= 0] the pool cannot be built: [clean_bucket]
    and [copy_objects] return [False] without listing a page or submitting
    anything, and when the buckets pass verification they report the
    [ValueError] of the pool as their last message. *)
Theorem X14_no_worker_no_work
  (s3 : S3Client) (caller : Caller) (pool : Pool) (fuel : nat)
  (bucket_name source_bucket source_prefix dest_bucket dest_prefix : string) :
  (max_workers caller <= 0)%Z ->
  let clean := Clean.clean_bucket s3 caller pool fuel bucket_name in
  let copy := Copy.copy_objects s3 caller pool fuel
                source_bucket source_prefix dest_bucket dest_prefix in
  let error := ValueError "max_workers must be greater than 0" in
  (fst clean = Returned false /\
   Clean.futures (snd clean) = [] /\
   Clean.pages_processed (snd clean) = 0 /\
   cancel_polls (Clean.world (snd clean)) = 0 /\
   (bucket_exists s3 bucket_name = Ok true ->
    forall versioned, Clean.versioning s3 bucket_name = Ok versioned ->
    exists records,
      logged (Clean.world (snd clean)) = records ++ [LogCleaningBucket error] /\
      (progress_callback caller = true ->
       exists messages,
         progress (Clean.world (snd clean)) = messages ++ [ErrorCleaning error]))) /\
  (fst copy = Returned false /\
   Copy.futures (snd copy) = [] /\
   Copy.pages_processed (snd copy) = 0 /\
   cancel_polls (Copy.world (snd copy)) = 0 /\
   (bucket_exists s3 source_bucket = Ok true ->
    bucket_exists s3 dest_bucket = Ok true ->
    logged (Copy.world (snd copy)) = [LogCopyingObjects error] /\
    (progress_callback caller = true ->
     progress (Copy.world (snd copy))
     = [VerifyingBuckets; CopyingStarted (max_workers caller); ErrorCopying error]))).
Proof.
  intros Hz. apply Z.leb_le in Hz. cbv zeta. split.
  - unfold Clean.clean_bucket.
    destruct (bucket_exists s3 bucket_name) as [[|]|e].
    + destruct (is_versioned_spec s3 bucket_name
                  (emit caller (VerifyingBucket bucket_name) world0)) as (Hv & Hc).
      rewrite cancel_polls_emit in Hc.
      destruct (is_versioned s3 bucket_name _) as [[versioned|e] w1]; simpl in Hv, Hc.
      * assert (E : (if versioned
                     then Clean._clean_versioned_bucket s3 caller pool fuel bucket_name
                            (emit caller (VersioningReport versioned) w1)
                     else Clean._clean_non_versioned_bucket s3 caller pool fuel bucket_name
                            (emit caller (VersioningReport versioned) w1))
                    = (Raised (ValueError "max_workers must be greater than 0"),
                       Clean.start
                         (emit caller (DeletingStarted versioned (max_workers caller))
                            (emit caller (VersioningReport versioned) w1)))).
        { unfold Clean._clean_versioned_bucket, Clean._clean_non_versioned_bucket.
          rewrite Hz. now destruct versioned. }
        rewrite E. simpl. rewrite !cancel_polls_emit. unfold log at 1. simpl.
        rewrite !cancel_polls_emit. splits; auto.
        intros _ v _. eexists. split.
        -- unfold emit, log. destruct (progress_callback caller); reflexivity.
        -- intros Hcb. unfold emit at 1. rewrite Hcb. simpl. eexists. reflexivity.
      * simpl. rewrite cancel_polls_emit. simpl. splits; auto.
        intros _ v Hv'. congruence.
    + simpl. rewrite !cancel_polls_emit. splits; auto. discriminate.
    + unfold Clean.clean_failed, log. simpl. rewrite !cancel_polls_emit.
      splits; auto. discriminate.
  - unfold Copy.copy_objects, Copy.copy_failed, log.
    destruct (bucket_exists s3 source_bucket) as [[|]|e];
      [|simpl; rewrite !cancel_polls_emit; splits; auto; discriminate
       |simpl; rewrite !cancel_polls_emit; splits; auto; discriminate].
    destruct (bucket_exists s3 dest_bucket) as [[|]|e];
      [|simpl; rewrite !cancel_polls_emit; splits; auto; discriminate
       |simpl; rewrite !cancel_polls_emit; splits; auto; discriminate].
    rewrite Hz. simpl. rewrite !cancel_polls_emit. simpl. splits; auto.
    intros _ _. unfold emit. destruct (progress_callback caller); simpl; split; auto.
    discriminate.
Qed.

Lemma X14_no_worker_no_work_witness :
  let caller := {| progress_callback := true; max_workers := 0;
                   cancel_flag := None; pause_flag := None |} in
  let s3 := Demo.plain_store [Demo.page 0 3] in
  (max_workers caller <= 0)%Z /\
  fst (Clean.clean_bucket s3 caller Demo.reversing_pool 0 "bucket") = Returned false /\
  fst (Copy.copy_objects s3 caller Demo.reversing_pool 0 "bucket" "" "dest" "")
  = Returned false.
Proof.
  intros caller s3.
  assert (Hz : (max_workers caller <= 0)%Z) by (simpl; lia).
  split; [exact Hz|].
  destruct (X14_no_worker_no_work s3 caller Demo.reversing_pool 0
              "bucket" "bucket" "" "dest" "" Hz) as ((H1 & _) & (H2 & _)).
  split; [exact H1 | exact H2].
Defined.

End FailureProperties.

(** ** Progress messages *)

Section TraceFacts.
Import Store Runtime Clean.
Variable s3 : S3Client.
Variable caller : Caller.
Variable pool : Pool.
Variable fuel : nat.

Lemma progress_emit (m : Msg) (w : World) :
  progress_callback caller = true -> progress (emit caller m w) = progress w ++ [m].
Proof. unfold emit. now intros ->. Qed.

Lemma deleted_so_far_nth (versioned : bool) (n : nat) (results : list nat) :
  forall d c k,
    k < length results ->
    nth_error (Trace.deleted_so_far versioned n d c results) k
    = Some (DeletedSoFar versioned (d + list_sum (firstn (S k) results)) (c + S k) n).
Proof.
  induction results as [|x results IH]; intros d c k Hk; simpl in Hk; [lia|].
  destruct k as [|k].
  - simpl. now rewrite Nat.add_0_r, Nat.add_1_r.
  - cbn [Trace.deleted_so_far nth_error]. rewrite IH by lia.
    replace (list_sum (firstn (S (S k)) (x :: results)))
      with (x + list_sum (firstn (S k) results)) by reflexivity.
    f_equal. f_equal; lia.
Qed.

Lemma deleted_so_far_length (versioned : bool) (n : nat) (results : list nat) :
  forall d c, length (Trace.deleted_so_far versioned n d c results) = length results.
Proof.
  induction results as [|x results IH]; intros d c; simpl; [reflexivity|].
  now rewrite IH.
Qed.

Lemma drain_progress (versioned : bool) (bucket_name : string)
      (done : list (list WorkItem)) :
  progress_callback caller = true ->
  forall st st',
    drain s3 caller versioned bucket_name done st = (None, st') ->
    progress (world st')
    = progress (world st)
      ++ Trace.deleted_so_far versioned (batches_created st)
           (deleted_count st) (completed_batches st)
           (map (reported s3 bucket_name) done).
Proof.
  intros Hcb. induction done as [|future rest IH]; intros st st' E; simpl in E.
  - injection E as <-. simpl. now rewrite app_nil_r.
  - destruct (poll_cancel_keeps caller (world st)) as (Hp & _).
    destruct (poll_cancel caller (world st)) as [c w1]; simpl in Hp.
    destruct c; [discriminate|].
    apply IH in E. simpl in E. rewrite E, progress_emit, Hp, <- app_assoc by exact Hcb.
    reflexivity.
Qed.

Lemma finish_progress {P : Type} (versioned : bool) (items_of : P -> list WorkItem)
      (pgs : list P) (failure : option Exn) (bucket_name : string) (w : World)
      (st : CleanState) :
  progress_callback caller = true ->
  finish s3 caller pool versioned bucket_name failure
         (page_loop caller pool fuel versioned items_of pgs (start w))
  = (Returned true, st) ->
  exists messages,
    progress (world st)
    = messages
      ++ TotalBatches (pages_processed st) (batches_created st)
         :: Trace.deleted_so_far versioned (batches_created st) 0 0
              (map (reported s3 bucket_name) (as_completed pool _ (futures st)))
      ++ [CleanupCompleted versioned (deleted_count st)].
Proof.
  intros Hcb E.
  destruct (page_loop caller pool fuel versioned items_of pgs (start w))
    as [r st1] eqn:E1.
  apply (page_loop_spec _ _ _ versioned items_of pgs []) in E1;
    [|unfold tallies; simpl; auto | reflexivity].
  destruct E1 as (done & rest & _ & (T1 & T2 & T3 & T4 & T5) & M & _).
  unfold finish in E. destruct r as [exit1|].
  { injection E as -> <-. destruct M as [(M & _)|(M & _)]; discriminate. }
  destruct failure as [e|].
  { destruct (is_ClientError e); discriminate. }
  match type of E with
  | context [drain _ _ _ _ ?l ?s] =>
      destruct (drain s3 caller versioned bucket_name l s) as [r2 st2] eqn:E2
  end.
  pose proof (drain_spec _ _ _ _ _ _ _ _ E2) as (D1 & _ & D3 & D4 & D5 & _).
  destruct r2 as [exit2|].
  { injection E as -> <-. destruct D5 as (D5 & _). discriminate. }
  injection E as <-. apply (drain_progress _ _ _ Hcb) in E2. simpl in *.
  rewrite progress_emit, E2, progress_emit, D3, D4, D1, T4, T5 by exact Hcb.
  exists (progress (world st1)). rewrite <- !app_assoc. reflexivity.
Qed.

End TraceFacts.

Section TraceProperties.
Import Store Runtime.

(** X15. When [clean_bucket] returns [True] and a callback is given, the
    messages end with the summary of the pages and batches, then one
    message per batch in completion order, the k-th of which reports k
    batches completed out of [batches_created] and the deletions reported
    by the first k batches, then the completion message with
    [deleted_count]. *)
Theorem X15_progress_of_a_successful_clean
  (s3 : S3Client) (caller : Caller) (pool : Pool) (fuel : nat) (bucket_name : string) :
  progress_callback caller = true ->
  fst (Clean.clean_bucket s3 caller pool fuel bucket_name) = Returned true ->
  let st := snd (Clean.clean_bucket s3 caller pool fuel bucket_name) in
  let versioned := Clean.path s3 bucket_name in
  let results :=
    map (Clean.reported s3 bucket_name) (as_completed pool _ (Clean.futures st)) in
  let batches := Trace.deleted_so_far versioned (Clean.batches_created st) 0 0 results in
  (exists messages,
      progress (Clean.world st)
      = messages
        ++ TotalBatches (Clean.pages_processed st) (Clean.batches_created st)
           :: batches
        ++ [CleanupCompleted versioned (Clean.deleted_count st)]) /\
  length batches = Clean.completed_batches st /\
  (forall k,
      k < Clean.completed_batches st ->
      nth_error batches k
      = Some (DeletedSoFar versioned (list_sum (firstn (S k) results)) (S k)
                           (Clean.batches_created st))) /\
  Clean.deleted_count st = list_sum results.
Proof.
  intros Hcb. simpl.
  destruct (Clean.clean_bucket s3 caller pool fuel bucket_name) as [exit st] eqn:E.
  simpl. intros ->.
  pose proof (clean_bucket_spec _ _ _ _ _ _ _ E) as (_ & S).
  unfold Clean.path. unfold Clean.clean_bucket in E.
  destruct (bucket_exists s3 bucket_name) as [[|]|e];
    [|destruct S as (S & _); discriminate | destruct S as (S & _); discriminate].
  match type of E with
  | context [is_versioned s3 bucket_name ?w0] =>
      destruct (is_versioned_spec s3 bucket_name w0) as (Hv & _);
      destruct (is_versioned s3 bucket_name w0) as [v w1]
  end.
  simpl in Hv. rewrite <- Hv in *. destruct v as [versioned|e]; [|discriminate].
  destruct S as (done & rest & _ & _ & _ & _ & _ & _ & _ & S & _).
  destruct (S eq_refl) as (_ & _ & _ & S1 & S2).
  assert (H : exists messages,
             progress (Clean.world st)
             = messages
               ++ TotalBatches (Clean.pages_processed st) (Clean.batches_created st)
                  :: Trace.deleted_so_far versioned (Clean.batches_created st) 0 0
                       (map (Clean.reported s3 bucket_name)
                            (as_completed pool _ (Clean.futures st)))
               ++ [CleanupCompleted versioned (Clean.deleted_count st)]).
  { unfold Clean._clean_versioned_bucket, Clean._clean_non_versioned_bucket in E.
    destruct (max_workers caller <=? 0)%Z; [destruct versioned; discriminate|].
    destruct versioned.
    - destruct (Clean.finish s3 caller pool true bucket_name _ _) as [exit1 st1] eqn:E1.
      assert (exit1 = Returned true /\ st1 = st) as (-> & ->)
        by (destruct exit1; try discriminate; injection E as -> ->; auto).
      eapply finish_progress; eauto.
    - destruct (Clean.finish s3 caller pool false bucket_name _ _) as [exit1 st1] eqn:E1.
      assert (exit1 = Returned true /\ st1 = st) as (-> & ->)
        by (destruct exit1; try discriminate; injection E as -> ->; auto).
      eapply finish_progress; eauto. }
  splits; auto.
  - now rewrite deleted_so_far_length, length_map.
  - intros k Hk. rewrite deleted_so_far_nth; [reflexivity|].
    rewrite length_map. lia.
Qed.

Lemma X15_progress_of_a_successful_clean_witness :
  let s3 := Demo.plain_store [Demo.page 0 1000; Demo.page 1000 200] in
  let run := Clean.clean_bucket s3 Demo.plain_caller Demo.reversing_pool 0 "bucket" in
  fst run = Returned true /\
  exists messages,
    progress (Clean.world (snd run))
    = messages
      ++ [TotalBatches 2 2; DeletedSoFar false 200 1 2; DeletedSoFar false 1200 2 2;
          CleanupCompleted false 1200].
Proof.
  intros s3 run.
  assert (Hr : fst run = Returned true) by (vm_compute; reflexivity).
  split; [exact Hr|].
  destruct (X15_progress_of_a_successful_clean s3 Demo.plain_caller
              Demo.reversing_pool 0 "bucket" eq_refl Hr) as ((messages & H) & _).
  exists messages. unfold run. rewrite H.
  apply (f_equal (fun l => messages ++ l)). vm_compute. reflexivity.
Defined.

End TraceProperties.

(** ** The operation thread *)

Section GuiFacts.
Import Store Runtime.

Lemma copy_objects_observed
  (s3 : S3Client) (caller : Caller) (pool : Pool) (fuel : nat)
  (source_bucket source_prefix dest_bucket dest_prefix : string)
  (exit : Exit) (st : Copy.CopyState) :
  Copy.copy_objects s3 caller pool fuel source_bucket source_prefix dest_bucket dest_prefix
  = (exit, st) ->
  observed caller (cancel_polls (Copy.world st)) ->
  exit = Returned false.
Proof.
  intros E Ho. apply copy_objects_spec in E. destruct E as (_ & E).
  destruct (bucket_exists s3 source_bucket) as [[|]|e];
    destruct (bucket_exists s3 dest_bucket) as [[|]|e'];
    try (destruct E as (E & _); exact E).
  destruct E as (done & rest & _ & _ & _ & [F|F] & _); [exact F|].
  destruct (observed_not_unobserved _ _ Ho F).
Qed.

Lemma engine_spec
  (s3 : S3Client) (caller : Caller) (pool : Pool) (fuel : nat)
  (operation : Gui.Operation) (exit : Exit) (polls : nat) :
  Gui.engine s3 caller pool fuel operation = Some (exit, polls) ->
  (forall e, exit <> Raised e) /\
  (observed caller polls -> exit = Returned false).
Proof.
  destruct operation as [bucket_name|source_bucket source_prefix dest_bucket dest_prefix|];
    simpl; [| |discriminate].
  - destruct (Clean.clean_bucket s3 caller pool fuel bucket_name) as [exit' st] eqn:E.
    simpl. intros H. injection H as -> <-. split.
    + now apply clean_bucket_spec in E.
    + now apply (clean_bucket_observed _ _ _ _ _ _ _ E).
  - destruct (Copy.copy_objects s3 caller pool fuel
                source_bucket source_prefix dest_bucket dest_prefix) as [exit' st] eqn:E.
    simpl. intros H. injection H as -> <-. split.
    + now apply copy_objects_spec in E.
    + now apply (copy_objects_observed _ _ _ _ _ _ _ _ _ _ E).
Qed.

Lemma run_report
  (s3 : S3Client) (max_workers : Z) (cancelled paused : nat -> bool)
  (cancelled_now : bool) (pool : Pool) (fuel : nat)
  (operation : Gui.Operation) (exit : Exit) (polls : nat) :
  Gui.engine s3 (Gui.thread_caller max_workers cancelled paused) pool fuel operation
  = Some (exit, polls) ->
  Gui.run (Ok s3) max_workers cancelled paused cancelled_now pool fuel operation
  = Gui.report cancelled_now (Gui.succeeded operation) (Gui.failed operation) exit.
Proof.
  destruct operation; simpl; [| |discriminate]; intros H; now injection H as <- _.
Qed.

End GuiFacts.

Section GuiProperties.
Import Store Runtime.

(** X16. The thread signals the text of an exception exactly when building
    the client raised it: [clean_bucket] and [copy_objects] never raise, so
    the [except] clause of [run] is reached from nowhere else. *)
Theorem X16_error_text_only_when_connecting_fails
  (connect : Res S3Client) (max_workers : Z) (cancelled paused : nat -> bool)
  (cancelled_now : bool) (pool : Pool) (fuel : nat) (operation : Gui.Operation)
  (success : bool) (e : Exn) :
  Gui.run connect max_workers cancelled paused cancelled_now pool fuel operation
  = Gui.Finished success (Gui.ErrorText e)
  <-> connect = Raise e /\ success = false.
Proof.
  destruct connect as [s3|e']; simpl.
  - split; [|intros (H & _); discriminate].
    destruct (Gui.engine s3 (Gui.thread_caller max_workers cancelled paused)
                pool fuel operation) as [[exit polls]|] eqn:E.
    + pose proof (engine_spec _ _ _ _ _ _ _ E) as (Hr & _).
      pose proof (run_report s3 max_workers cancelled paused cancelled_now
                    pool fuel operation exit polls E) as R.
      simpl in R. rewrite R. unfold Gui.report.
      destruct exit as [b|e''|]; [|now destruct (Hr e'')|discriminate].
      destruct cancelled_now; [discriminate|].
      destruct b, operation; discriminate.
    + destruct operation; simpl in E; discriminate.
  - split.
    + intros H. injection H as <- <-. auto.
    + intros (H & ->). now injection H as <-.
Qed.

(** X17. What the [finished] signal tells, [_cancelled] being a flag that
    is never reset: success is signalled exactly when the engine returned
    [True] and no stop was requested; the cancellation text exactly when a
    stop was requested by the time the engine returned; a run in which the
    engine saw the stop request is always signalled as cancelled; and the
    failure text means that the engine returned [False] without having seen
    any stop request. *)
Theorem X17_signal_tells_cancelled_from_failed
  (s3 : S3Client) (max_workers : Z) (cancelled paused : nat -> bool)
  (cancelled_now : bool) (pool : Pool) (fuel : nat) (operation : Gui.Operation)
  (exit : Exit) (polls : nat) :
  (forall k, cancelled k = true -> cancelled_now = true) ->
  let caller := Gui.thread_caller max_workers cancelled paused in
  let signal :=
    Gui.run (Ok s3) max_workers cancelled paused cancelled_now pool fuel operation in
  Gui.engine s3 caller pool fuel operation = Some (exit, polls) ->
  (signal = Gui.Finished true (Gui.succeeded operation)
   <-> exit = Returned true /\ cancelled_now = false) /\
  (forall message, signal = Gui.Finished true message -> message = Gui.succeeded operation) /\
  (signal = Gui.Finished false Gui.CancelledByUser
   <-> cancelled_now = true /\ exit <> Spinning) /\
  (observed caller polls -> signal = Gui.Finished false Gui.CancelledByUser) /\
  (signal = Gui.Finished false (Gui.failed operation)
   <-> exit = Returned false /\ cancelled_now = false) /\
  (signal = Gui.Finished false (Gui.failed operation) ->
   forall k, k < polls -> cancelled k = false) /\
  (signal = Gui.StillRunning <-> exit = Spinning).
Proof.
  intros Hmono caller signal E.
  pose proof (engine_spec _ _ _ _ _ _ _ E) as (Hr & Ho).
  assert (R : signal
              = Gui.report cancelled_now (Gui.succeeded operation)
                           (Gui.failed operation) exit)
    by (apply (run_report _ _ _ _ _ _ _ _ _ polls); exact E).
  assert (Hne : Gui.failed operation <> Gui.CancelledByUser /\
                Gui.succeeded operation <> Gui.CancelledByUser)
    by (destruct operation; split; discriminate).
  destruct Hne as (Hf & Hs).
  assert (Hseen : observed caller polls -> cancelled_now = true).
  { intros (f & k & Hflag & _ & Hk). simpl in Hflag. injection Hflag as <-.
    exact (Hmono k Hk). }
  rewrite R. unfold Gui.report.
  destruct exit as [b|e|]; [| now destruct (Hr e) |].
  - destruct cancelled_now.
    + splits; try (split; [discriminate | intros (_ & H); discriminate]);
        try discriminate; auto.
      * split; [intros _; split; [reflexivity | discriminate] | reflexivity].
      * split; [intros H; injection H as H; now destruct Hf | intros (_ & H); discriminate].
      * intros H. injection H as H. now destruct Hf.
      * split; discriminate.
    + destruct b.
      * splits; try discriminate; auto.
        -- split; auto.
        -- intros message H. now injection H as <-.
        -- split; [discriminate | intros (H & _); discriminate].
        -- intros H. specialize (Ho H). discriminate.
        -- split; [discriminate | intros (H & _); discriminate].
        -- split; discriminate.
      * splits; try discriminate; auto.
        -- split; [discriminate | intros (H & _); discriminate].
        -- split; [intros H; injection H as H; now destruct Hs
                  | intros (H & _); discriminate].
        -- intros H. specialize (Hseen H). discriminate.
        -- split; auto.
        -- intros _ k Hk. destruct (cancelled k) eqn:Ek; [|reflexivity].
           specialize (Hmono k Ek). discriminate.
        -- split; discriminate.
  - splits; try discriminate; auto.
    + split; [discriminate | intros (H & _); discriminate].
    + split; [discriminate | intros (_ & H); now destruct H].
    + intros H. specialize (Ho H). discriminate.
    + split; [discriminate | intros (H & _); discriminate].
    + split; auto.
Qed.

Lemma X17_signal_tells_cancelled_from_failed_witness :
  let s3 := Demo.plain_store [Demo.page 0 1; Demo.page 1 1; Demo.page 2 1] in
  let cancelled := fun k => 2 <=? k in
  let paused := fun _ : nat => false in
  Gui.run (Ok s3) 1 cancelled paused true (Demo.pool_with_queued [1]) 0
          (Gui.CleanOperation "bucket")
  = Gui.Finished false Gui.CancelledByUser.
Proof.
  intros s3 cancelled paused.
  assert (Hmono : forall k, cancelled k = true -> true = true) by reflexivity.
  assert (E : Gui.engine s3 (Gui.thread_caller 1 cancelled paused)
                (Demo.pool_with_queued [1]) 0 (Gui.CleanOperation "bucket")
              = Some (Returned false, 3)) by (vm_compute; reflexivity).
  destruct (X17_signal_tells_cancelled_from_failed s3 1 cancelled paused true
              (Demo.pool_with_queued [1]) 0 (Gui.CleanOperation "bucket")
              (Returned false) 3 Hmono E) as (_ & _ & _ & H & _).
  apply H. exists cancelled, 2. vm_compute. auto.
Defined.

(** X18. A stop requested after the last checkpoint of the engine: the
    engine sees no cancellation, deletes every batch and returns [True];
    the thread then reads [_cancelled], signals failure with the
    cancellation text, and the success of the cleanup is not reported. *)
Theorem X18_stop_after_the_last_checkpoint
  (s3 : S3Client) (max_workers : Z) (cancelled paused : nat -> bool)
  (pool : Pool) (fuel : nat) (bucket_name : string) (versioned : bool) :
  (0 < max_workers)%Z ->
  head_bucket s3 bucket_name = Ok tt ->
  Clean.versioning s3 bucket_name = Ok versioned ->
  Clean.listing_failure s3 bucket_name versioned = None ->
  (forall k, cancelled k = false) ->
  (forall k, paused k = false) ->
  let caller := Gui.thread_caller max_workers cancelled paused in
  let engine := Clean.clean_bucket s3 caller pool fuel bucket_name in
  fst engine = Returned true /\
  Clean.executed (snd engine)
  = flat_map split_batches (Clean.listed_items s3 bucket_name versioned) /\
  Gui.run (Ok s3) max_workers cancelled paused true pool fuel
          (Gui.CleanOperation bucket_name)
  = Gui.Finished false Gui.CancelledByUser /\
  Gui.run (Ok s3) max_workers cancelled paused false pool fuel
          (Gui.CleanOperation bucket_name)
  = Gui.Finished true Gui.CleanupCompletedSuccessfully.
Proof.
  intros Hz Hb Hv Hf Hc Hp caller engine.
  assert (Hn : never_cancelled caller).
  { intros f Hflag k. simpl in Hflag. injection Hflag as <-. apply Hc. }
  assert (Hr : pause_released caller fuel).
  { intros f Hflag n. simpl in Hflag. injection Hflag as <-.
    exists 0. split; [lia | apply Hp]. }
  destruct engine as [exit st] eqn:E. unfold engine in E.
  destruct (uninterrupted_run _ _ _ _ _ versioned _ _ E (bucket_exists_head _ _ Hb)
              Hv Hz Hn Hr) as (F1 & F2 & _ & F4).
  destruct (F4 Hf) as (-> & _).
  simpl. fold caller. rewrite E. simpl. rewrite F2, F1. auto.
Qed.

Lemma X18_stop_after_the_last_checkpoint_witness :
  let s3 := Demo.plain_store [Demo.page 0 2] in
  let never := fun _ : nat => false in
  Clean.executed
    (snd (Clean.clean_bucket s3 (Gui.thread_caller 10 never never)
            Demo.reversing_pool 0 "bucket"))
  = [ [ {| Key := "k0"; VersionId := None |}; {| Key := "k1"; VersionId := None |} ] ] /\
  Gui.run (Ok s3) 10 never never true Demo.reversing_pool 0 (Gui.CleanOperation "bucket")
  = Gui.Finished false Gui.CancelledByUser.
Proof.
  intros s3 never.
  destruct (X18_stop_after_the_last_checkpoint s3 10 never never Demo.reversing_pool 0
              "bucket" false eq_refl eq_refl eq_refl eq_refl
              (fun _ => eq_refl) (fun _ => eq_refl)) as (_ & H2 & H3 & _).
  split; [rewrite H2; vm_compute; reflexivity | exact H3].
Defined.

End GuiProperties.

(** ** A stop requested during a pause *)


Section PauseProperties.
Import Store Runtime.

(** X19. A stop requested while the run is paused at the head of a page is
    seen inside the pause loop: [clean_bucket] returns [False] at once,
    without the cancellation message and without cancelling any future, so
    that every batch submitted from the pages before runs. *)
Theorem X19_stop_while_paused_is_silent
  (s3 : S3Client) (caller : Caller) (pool : Pool) (fuel : nat)
  (bucket_name : string) (versioned : bool) (f g : nat -> bool) (k : nat) :
  (0 < max_workers caller)%Z ->
  bucket_exists s3 bucket_name = Ok true ->
  Clean.versioning s3 bucket_name = Ok versioned ->
  cancel_flag caller = Some f ->
  pause_flag caller = Some g ->
  0 < fuel ->
  k < length (Clean.listed_items s3 bucket_name versioned) ->
  (forall i, i <= k -> f i = false) ->
  f (S k) = true ->
  (forall i, i < k -> g i = false) ->
  g k = true ->
  let run := Clean.clean_bucket s3 caller pool fuel bucket_name in
  let st := snd run in
  fst run = Returned false /\
  Clean.pages_processed st = k /\
  Clean.futures st
  = flat_map split_batches (firstn k (Clean.listed_items s3 bucket_name versioned)) /\
  Clean.revoked st = [] /\
  Clean.executed st = Clean.futures st /\
  ~ In OperationCancelled (progress (Clean.world st)).
Proof.
  intros Hz Hb Hv Hf Hg Hfuel Hk Hc Hc' Hp Hp'.
  destruct (clean_bucket_unfold s3 caller pool fuel bucket_name versioned Hb Hv Hz)
    as (w & W1 & W2 & W3 & E).
  cbv zeta. rewrite E. clear E.
  assert (H : forall (P : Type) (items_of : P -> list WorkItem) (pgs : list P)
                     (failure : option Exn),
             k < length pgs ->
             let r := Clean.finish s3 caller pool versioned bucket_name failure
                        (Clean.page_loop caller pool fuel versioned items_of pgs
                           (Clean.start w)) in
             fst r = Returned false /\
             Clean.pages_processed (snd r) = k /\
             Clean.futures (snd r)
             = flat_map split_batches (firstn k (map items_of pgs)) /\
             Clean.revoked (snd r) = [] /\
             Trace.silent (Clean.world (snd r))).
  { intros P items_of pgs failure Hlen.
    destruct (page_loop_stopped_in_pause caller pool fuel versioned items_of f g
                Hf Hg Hfuel k pgs (Clean.start w) Hlen) as (st' & L1 & L2 & L3 & L4 & L5);
      simpl; rewrite ?W1, ?W2; simpl; auto.
    rewrite L1. simpl. rewrite L2, L3, L4, firstn_map, <- batches_of_map. simpl.
    splits; auto. }
  unfold Clean.listed_items in *.
  destruct versioned; cbv iota; rewrite length_map in Hk.
  - pose proof (H _ Clean.versioned_items _
                  (failure (list_object_versions s3 bucket_name None)) Hk) as Hr.
    cbv zeta in Hr.
    destruct (Clean.finish s3 caller pool true bucket_name _ _) as [e0 st0].
    simpl in Hr. destruct Hr as (-> & H2 & H3 & H4 & H5). simpl. splits; auto.
    unfold Clean.executed. rewrite H4. apply not_revoked_nil.
  - pose proof (H _ Clean.plain_items _
                  (failure (list_objects_v2 s3 bucket_name None)) Hk) as Hr.
    cbv zeta in Hr.
    destruct (Clean.finish s3 caller pool false bucket_name _ _) as [e0 st0].
    simpl in Hr. destruct Hr as (-> & H2 & H3 & H4 & H5). simpl. splits; auto.
    unfold Clean.executed. rewrite H4. apply not_revoked_nil.
Qed.

Lemma X19_stop_while_paused_is_silent_witness :
  let caller := {| progress_callback := true; max_workers := 1;
                   cancel_flag := Some (fun i => 2 <=? i);
                   pause_flag := Some (fun i => 1 <=? i) |} in
  let run :=
    Clean.clean_bucket (Demo.plain_store [Demo.page 0 1; Demo.page 1 1; Demo.page 2 1])
      caller (Demo.pool_with_queued [0]) 1 "bucket" in
  fst run = Returned false /\
  Clean.executed (snd run) = [ [ {| Key := "k0"; VersionId := None |} ] ] /\
  ~ In OperationCancelled (progress (Clean.world (snd run))).
Proof.
  intros caller run.
  destruct (X19_stop_while_paused_is_silent
              (Demo.plain_store [Demo.page 0 1; Demo.page 1 1; Demo.page 2 1])
              caller (Demo.pool_with_queued [0]) 1 "bucket" false
              (fun i => 2 <=? i) (fun i => 1 <=? i) 1)
    as (H1 & _ & H3 & _ & H5 & H6); try reflexivity; try (simpl; lia).
  - intros i Hi. apply Nat.leb_gt. lia.
  - intros i Hi. apply Nat.leb_gt. lia.
  - split; [exact H1|]. split; [|exact H6].
    unfold run. rewrite H5, H3. vm_compute. reflexivity.
Defined.

End PauseProperties.

(** ** Flags that never answer true *)

Ltac same :=
  unfold Quiet.same_clean, Quiet.same_copy, Quiet.same_world in *;
  simpl in *; intuition congruence.

Section QuietFacts.
Import Store Runtime.
Variable s3 : S3Client.
Variable caller : Caller.
Variable pool : Pool.
Variable fuel fuel' : nat.
Hypothesis Hn : never_cancelled caller.
Hypothesis Hp : pause_released caller fuel.

Local Abbreviation caller' := (Quiet.without_flags caller).

Lemma same_emit (m : Msg) (w w' : World) :
  Quiet.same_world w w' -> Quiet.same_world (emit caller m w) (emit caller' m w').
Proof. unfold emit. simpl. destruct (progress_callback caller); same. Qed.

Lemma same_emit_if (c : bool) (m : Msg) (w w' : World) :
  Quiet.same_world w w' ->
  Quiet.same_world (emit_if caller c m w) (emit_if caller' c m w').
Proof. destruct c; simpl; [apply same_emit | auto]. Qed.

Lemma same_log (r : LogRecord) (w w' : World) :
  Quiet.same_world w w' -> Quiet.same_world (log r w) (log r w').
Proof. unfold log. same. Qed.

Lemma poll_cancel_quiet (w : World) :
  exists w1, poll_cancel caller w = (false, w1) /\ Quiet.same_world w1 w.
Proof.
  destruct (poll_cancel_spec caller w) as (_ & _ & _ & _ & H).
  destruct (poll_cancel_keeps caller w) as (K1 & K2).
  destruct (poll_cancel caller w) as [c w1]. simpl in *. rewrite (H Hn).
  exists w1. same.
Qed.

Lemma wait_quiet (w : World) :
  exists w2, wait_while_paused caller fuel w = (Resumed, w2) /\ Quiet.same_world w2 w.
Proof.
  pose proof (wait_while_paused_resumes caller fuel Hn Hp w) as H.
  destruct (wait_while_paused_spec caller fuel w) as (_ & K1 & K2 & _).
  destruct (wait_while_paused caller fuel w) as [p w2]. simpl in *. subst p.
  exists w2. same.
Qed.

Lemma poll_cancel_unflagged (w : World) : poll_cancel caller' w = (false, w).
Proof. reflexivity. Qed.

Lemma wait_unflagged (n : nat) (w : World) :
  wait_while_paused caller' n w = (Resumed, w).
Proof. destruct n; reflexivity. Qed.

Lemma same_is_versioned (bucket_name : string) (w w' : World) :
  Quiet.same_world w w' ->
  fst (is_versioned s3 bucket_name w) = fst (is_versioned s3 bucket_name w') /\
  Quiet.same_world (snd (is_versioned s3 bucket_name w))
                   (snd (is_versioned s3 bucket_name w')).
Proof.
  intros H. unfold is_versioned.
  destruct (get_bucket_versioning s3 bucket_name) as [status|e]; simpl; auto.
  destruct (is_ClientError e); simpl; auto. split; [reflexivity|]. now apply same_log.
Qed.

(** *** Cleaning *)

Lemma same_submit_batch (st st' : Clean.CleanState) (batch : list WorkItem) :
  Quiet.same_clean st st' ->
  Quiet.same_clean (Clean.submit_batch caller st batch)
                   (Clean.submit_batch caller' st' batch).
Proof.
  intros (H1 & H2 & H3 & H4 & H5 & H6 & H7).
  unfold Clean.submit_batch, Quiet.same_clean. simpl. rewrite <- H3, <- H4.
  splits; try congruence. now apply same_emit_if.
Qed.

Lemma same_submit_batches (bs : list (list WorkItem)) :
  forall st st',
    Quiet.same_clean st st' ->
    Quiet.same_clean (fold_left (Clean.submit_batch caller) bs st)
                     (fold_left (Clean.submit_batch caller') bs st').
Proof.
  induction bs as [|b bs IH]; intros st st' H; simpl; [exact H|].
  apply IH. now apply same_submit_batch.
Qed.

Lemma same_enter_page (st st' : Clean.CleanState) :
  Quiet.same_clean st st' ->
  exists st1 st1',
    Clean.enter_page caller pool fuel st = (None, st1) /\
    Clean.enter_page caller' pool fuel' st' = (None, st1') /\
    Quiet.same_clean st1 st1'.
Proof.
  intros H. unfold Clean.enter_page.
  destruct (poll_cancel_quiet (Clean.world st)) as (w1 & -> & S1).
  destruct (wait_quiet w1) as (w2 & -> & S2).
  rewrite poll_cancel_unflagged, wait_unflagged.
  eexists. eexists. split; [reflexivity|]. split; [reflexivity|]. same.
Qed.

Lemma same_page_loop {P : Type} (versioned : bool) (items_of : P -> list WorkItem)
      (pgs : list P) :
  forall st st',
    Quiet.same_clean st st' ->
    exists st1 st1',
      Clean.page_loop caller pool fuel versioned items_of pgs st = (None, st1) /\
      Clean.page_loop caller' pool fuel' versioned items_of pgs st' = (None, st1') /\
      Quiet.same_clean st1 st1'.
Proof.
  induction pgs as [|page rest IH]; intros st st' H; simpl.
  - exists st, st'. auto.
  - destruct (same_enter_page st st' H) as (st1 & st1' & -> & -> & H1).
    destruct (items_of page) as [|x l].
    + apply IH. destruct H1 as (G1 & G2 & G3 & G4 & G5 & G6 & G7).
      unfold Quiet.same_clean. simpl. rewrite <- G3. splits; auto.
      now apply same_emit_if.
    + apply IH. now apply same_submit_batches.
Qed.

Lemma same_drain (versioned : bool) (bucket_name : string)
      (done : list (list WorkItem)) :
  forall st st',
    Quiet.same_clean st st' ->
    exists st1 st1',
      Clean.drain s3 caller versioned bucket_name done st = (None, st1) /\
      Clean.drain s3 caller' versioned bucket_name done st' = (None, st1') /\
      Quiet.same_clean st1 st1'.
Proof.
  induction done as [|future rest IH]; intros st st' H; simpl.
  - exists st, st'. auto.
  - destruct (poll_cancel_quiet (Clean.world st)) as (w1 & -> & S1).
    apply IH. destruct H as (G1 & G2 & G3 & G4 & G5 & G6 & G7).
    unfold Quiet.same_clean. simpl. rewrite <- G4, <- G5, <- G6.
    splits; auto. apply same_emit. same.
Qed.

Lemma same_finish (versioned : bool) (bucket_name : string) (failure : option Exn)
      (st st' : Clean.CleanState) :
  Quiet.same_clean st st' ->
  let r := Clean.finish s3 caller pool versioned bucket_name failure (None, st) in
  let r' := Clean.finish s3 caller' pool versioned bucket_name failure (None, st') in
  fst r = fst r' /\ Quiet.same_clean (snd r) (snd r').
Proof.
  intros H. unfold Clean.finish. destruct failure as [e|].
  - destruct (is_ClientError e); simpl; [|auto].
    split; [reflexivity|]. destruct H as (G1 & G2 & G3 & G4 & G5 & G6 & G7).
    unfold Quiet.same_clean. simpl. splits; auto. now apply same_emit, same_log.
  - cbv zeta.
    assert (H1 : Quiet.same_clean
                   (Clean.with_world st
                      (emit caller
                         (TotalBatches (Clean.pages_processed st)
                                       (Clean.batches_created st)) (Clean.world st)))
                   (Clean.with_world st'
                      (emit caller'
                         (TotalBatches (Clean.pages_processed st')
                                       (Clean.batches_created st')) (Clean.world st')))).
    { destruct H as (G1 & G2 & G3 & G4 & G5 & G6 & G7).
      unfold Quiet.same_clean. simpl. rewrite <- G3, <- G4. splits; auto.
      now apply same_emit. }
    assert (Hf : Clean.futures st = Clean.futures st') by apply H.
    simpl Clean.futures. rewrite <- Hf.
    destruct (same_drain versioned bucket_name
                (as_completed pool _ (Clean.futures st)) _ _ H1)
      as (st2 & st2' & -> & -> & H2).
    simpl. split; [reflexivity|].
    destruct H2 as (G1 & G2 & G3 & G4 & G5 & G6 & G7).
    unfold Quiet.same_clean. simpl. rewrite <- G6. splits; auto.
    now apply same_emit.
Qed.

Lemma same_clean_functions (versioned : bool) (bucket_name : string) (w w' : World) :
  Quiet.same_world w w' ->
  let r := if versioned
           then Clean._clean_versioned_bucket s3 caller pool fuel bucket_name w
           else Clean._clean_non_versioned_bucket s3 caller pool fuel bucket_name w in
  let r' := if versioned
            then Clean._clean_versioned_bucket s3 caller' pool fuel' bucket_name w'
            else Clean._clean_non_versioned_bucket s3 caller' pool fuel' bucket_name w' in
  fst r = fst r' /\ Quiet.same_clean (snd r) (snd r').
Proof.
  intros H. cbv zeta.
  assert (H0 : Quiet.same_clean
                 (Clean.start
                    (emit caller (DeletingStarted versioned (max_workers caller)) w))
                 (Clean.start
                    (emit caller' (DeletingStarted versioned (max_workers caller)) w'))).
  { unfold Quiet.same_clean. simpl. splits; auto. now apply same_emit. }
  unfold Clean._clean_versioned_bucket, Clean._clean_non_versioned_bucket.
  simpl max_workers.
  destruct (max_workers caller <=? 0)%Z.
  - destruct versioned; simpl; auto.
  - destruct versioned.
    + destruct (same_page_loop true Clean.versioned_items
                  (pages (list_object_versions s3 bucket_name None)) _ _ H0)
        as (st1 & st1' & -> & -> & H1).
      now apply same_finish.
    + destruct (same_page_loop false Clean.plain_items
                  (pages (list_objects_v2 s3 bucket_name None)) _ _ H0)
        as (st1 & st1' & -> & -> & H1).
      now apply same_finish.
Qed.

Lemma same_clean_bucket (bucket_name : string) :
  let r := Clean.clean_bucket s3 caller pool fuel bucket_name in
  let r' := Clean.clean_bucket s3 caller' pool fuel' bucket_name in
  fst r = fst r' /\ Quiet.same_clean (snd r) (snd r').
Proof.
  cbv zeta. unfold Clean.clean_bucket.
  assert (H0 : forall m, Quiet.same_world (emit caller m world0) (emit caller' m world0))
    by (intros m; apply same_emit; same).
  assert (Hfail : forall e st st',
             Quiet.same_clean st st' ->
             fst (Clean.clean_failed caller e st) = fst (Clean.clean_failed caller' e st') /\
             Quiet.same_clean (snd (Clean.clean_failed caller e st))
                              (snd (Clean.clean_failed caller' e st'))).
  { intros e st st' (G1 & G2 & G3 & G4 & G5 & G6 & G7).
    unfold Clean.clean_failed, Quiet.same_clean. simpl. splits; auto.
    now apply same_emit, same_log. }
  assert (Hstart : forall w w', Quiet.same_world w w' ->
                                Quiet.same_clean (Clean.start w) (Clean.start w'))
    by (intros w w' H; unfold Quiet.same_clean; simpl; splits; auto).
  destruct (bucket_exists s3 bucket_name) as [[|]|e].
  - destruct (same_is_versioned bucket_name _ _ (H0 (VerifyingBucket bucket_name)))
      as (V1 & V2).
    destruct (is_versioned s3 bucket_name (emit caller _ world0)) as [v w1].
    destruct (is_versioned s3 bucket_name (emit caller' _ world0)) as [v' w1'].
    simpl in V1, V2. subst v'. destruct v as [versioned|e].
    + pose proof (same_clean_functions versioned bucket_name _ _
                    (same_emit (VersioningReport versioned) _ _ V2)) as F.
      cbv zeta in F.
      destruct (if versioned
                then Clean._clean_versioned_bucket s3 caller pool fuel bucket_name _
                else Clean._clean_non_versioned_bucket s3 caller pool fuel bucket_name _)
        as [exit st].
      destruct (if versioned
                then Clean._clean_versioned_bucket s3 caller' pool fuel' bucket_name _
                else Clean._clean_non_versioned_bucket s3 caller' pool fuel' bucket_name _)
        as [exit' st'].
      simpl in F. destruct F as (<- & F).
      destruct exit as [b|e|]; [simpl; auto | exact (Hfail e st st' F) | simpl; auto].
    + apply Hfail. now apply Hstart.
  - simpl. split; [reflexivity|]. apply Hstart. apply same_emit, H0.
  - apply Hfail. apply Hstart, H0.
Qed.

End QuietFacts.

Section QuietCopyFacts.
Import Store Runtime.
Variable s3 : S3Client.
Variable caller : Caller.
Variable pool : Pool.
Variable fuel fuel' : nat.
Hypothesis Hn : never_cancelled caller.
Hypothesis Hp : pause_released caller fuel.

Local Abbreviation caller' := (Quiet.without_flags caller).

Lemma same_submit_objects (sp dp : string) (contents : list ObjectSummary) :
  forall st st',
    Quiet.same_copy st st' ->
    Quiet.same_copy (fold_left (Copy.submit_object sp dp) contents st)
                    (fold_left (Copy.submit_object sp dp) contents st').
Proof.
  induction contents as [|obj contents IH]; intros st st' H; simpl; [exact H|].
  apply IH. unfold Copy.submit_object. same.
Qed.

Lemma same_copy_pages (sp dp : string) (pgs : list ObjectPage) :
  forall st st',
    Quiet.same_copy st st' ->
    exists st1 st1',
      Copy.copy_pages caller pool fuel sp dp pgs st = (None, st1) /\
      Copy.copy_pages caller' pool fuel' sp dp pgs st' = (None, st1') /\
      Quiet.same_copy st1 st1'.
Proof.
  induction pgs as [|page rest IH]; intros st st' H; cbn [Copy.copy_pages].
  - exists st, st'. auto.
  - destruct (poll_cancel_quiet caller Hn (Copy.world st)) as (w1 & -> & S1).
    destruct (wait_quiet caller fuel Hn Hp w1) as (w2 & -> & S2).
    rewrite (poll_cancel_unflagged caller), (wait_unflagged caller).
    destruct (Contents page) as [contents|].
    + apply IH.
      assert (H1 : Quiet.same_copy
                     (fold_left (Copy.submit_object sp dp) contents
                        (Copy.next_page (Copy.with_world st w2)))
                     (fold_left (Copy.submit_object sp dp) contents
                        (Copy.next_page (Copy.with_world st' (Copy.world st')))))
        by (apply same_submit_objects; same).
      destruct H1 as (G1 & G2 & G3 & G4 & G5 & G6 & G7).
      unfold Quiet.same_copy. cbn [Copy.with_world Copy.futures Copy.revoked
        Copy.pages_processed Copy.total_objects_submitted Copy.copied_count
        Copy.completed_count Copy.world].
      rewrite <- G3, <- G4. splits; auto. now apply same_emit.
    + apply IH. same.
Qed.

Lemma same_copy_drain (source_bucket dest_bucket : string) (done : list Copy.CopyTask) :
  forall st st',
    Quiet.same_copy st st' ->
    exists st1 st1',
      Copy.drain s3 caller fuel source_bucket dest_bucket done st = (None, st1) /\
      Copy.drain s3 caller' fuel' source_bucket dest_bucket done st' = (None, st1') /\
      Quiet.same_copy st1 st1'.
Proof.
  induction done as [|future rest IH]; intros st st' H; cbn [Copy.drain].
  - exists st, st'. auto.
  - destruct (poll_cancel_quiet caller Hn (Copy.world st)) as (w1 & -> & S1).
    destruct (wait_quiet caller fuel Hn Hp w1) as (w2 & -> & S2).
    rewrite (poll_cancel_unflagged caller), (wait_unflagged caller).
    unfold Copy.future_result.
    destruct (fst (Copy._copy_single_object s3 source_bucket (Copy.task_source_key future)
                     dest_bucket (Copy.task_dest_key future))).
    + apply IH. destruct H as (G1 & G2 & G3 & G4 & G5 & G6 & G7).
      unfold Quiet.same_copy. simpl. rewrite <- G4, <- G5, <- G6.
      splits; auto. apply same_emit_if. same.
    + apply IH. destruct H as (G1 & G2 & G3 & G4 & G5 & G6 & G7).
      unfold Quiet.same_copy. simpl. splits; auto; try congruence.
      apply same_log. same.
Qed.

Lemma same_copy_objects
      (source_bucket source_prefix dest_bucket dest_prefix : string) :
  let r := Copy.copy_objects s3 caller pool fuel
             source_bucket source_prefix dest_bucket dest_prefix in
  let r' := Copy.copy_objects s3 caller' pool fuel'
              source_bucket source_prefix dest_bucket dest_prefix in
  fst r = fst r' /\ Quiet.same_copy (snd r) (snd r').
Proof.
  cbv zeta. unfold Copy.copy_objects.
  assert (H0 : forall m, Quiet.same_world (emit caller m world0) (emit caller' m world0))
    by (intros m; apply same_emit; same).
  assert (Hfail : forall e st st',
             Quiet.same_copy st st' ->
             fst (Copy.copy_failed caller e st) = fst (Copy.copy_failed caller' e st') /\
             Quiet.same_copy (snd (Copy.copy_failed caller e st))
                             (snd (Copy.copy_failed caller' e st'))).
  { intros e st st' (G1 & G2 & G3 & G4 & G5 & G6 & G7).
    unfold Copy.copy_failed, Quiet.same_copy. simpl. splits; auto.
    now apply same_emit, same_log. }
  assert (Hstart : forall w w', Quiet.same_world w w' ->
                                Quiet.same_copy (Copy.start w) (Copy.start w'))
    by (intros w w' H; unfold Quiet.same_copy; simpl; splits; auto).
  destruct (bucket_exists s3 source_bucket) as [[|]|e];
    [|simpl; split; [reflexivity|]; apply Hstart, same_emit, H0
     |apply Hfail, Hstart, H0].
  destruct (bucket_exists s3 dest_bucket) as [[|]|e];
    [|simpl; split; [reflexivity|]; apply Hstart, same_emit, H0
     |apply Hfail, Hstart, H0].
  simpl max_workers.
  assert (Hs : Quiet.same_copy
                 (Copy.start (emit caller (CopyingStarted (max_workers caller))
                                (emit caller VerifyingBuckets world0)))
                 (Copy.start (emit caller' (CopyingStarted (max_workers caller))
                                (emit caller' VerifyingBuckets world0))))
    by (apply Hstart, same_emit, H0).
  destruct (max_workers caller <=? 0)%Z; [now apply Hfail|].
  destruct (same_copy_pages (DestKey.normalize_prefix source_prefix)
              (DestKey.normalize_prefix dest_prefix)
              (pages (list_objects_v2 s3 source_bucket
                        (Some (DestKey.normalize_prefix source_prefix)))) _ _ Hs)
    as (st1 & st1' & -> & -> & H1).
  destruct (failure (list_objects_v2 s3 source_bucket
                       (Some (DestKey.normalize_prefix source_prefix)))) as [e|];
    [now apply Hfail|].
  assert (H2 : Quiet.same_copy
                 (Copy.with_world st1
                    (emit caller
                       (TotalQueued (Copy.pages_processed st1)
                                    (Copy.total_objects_submitted st1)) (Copy.world st1)))
                 (Copy.with_world st1'
                    (emit caller'
                       (TotalQueued (Copy.pages_processed st1')
                                    (Copy.total_objects_submitted st1'))
                       (Copy.world st1')))).
  { destruct H1 as (G1 & G2 & G3 & G4 & G5 & G6 & G7).
    unfold Quiet.same_copy. simpl. rewrite <- G3, <- G4. splits; auto.
    now apply same_emit. }
  assert (Hf : Copy.futures st1 = Copy.futures st1') by apply H1.
  cbv zeta. simpl Copy.futures. rewrite <- Hf.
  destruct (same_copy_drain source_bucket dest_bucket
              (as_completed pool _ (Copy.futures st1)) _ _ H2)
    as (st2 & st2' & -> & -> & H3).
  simpl. split; [reflexivity|].
  destruct H3 as (G1 & G2 & G3 & G4 & G5 & G6 & G7).
  unfold Quiet.same_copy. simpl. rewrite <- G5. splits; auto.
  now apply same_emit.
Qed.

End QuietCopyFacts.

Section QuietProperties.
Import Store Runtime.

(** X20. Flags that never fire change nothing: when [cancel_flag] never
    answers true and every pause is released, [clean_bucket] and
    [copy_objects] return what they return when both flags are left out,
    with the same futures, the same counts, the same progress messages and
    the same log records; a pause delays the run and does nothing else. *)
Theorem X20_flags_that_never_fire_change_nothing
  (s3 : S3Client) (caller : Caller) (pool : Pool) (fuel fuel' : nat)
  (bucket_name source_bucket source_prefix dest_bucket dest_prefix : string) :
  never_cancelled caller ->
  pause_released caller fuel ->
  let plain := Quiet.without_flags caller in
  let clean := Clean.clean_bucket s3 caller pool fuel bucket_name in
  let clean' := Clean.clean_bucket s3 plain pool fuel' bucket_name in
  let copy := Copy.copy_objects s3 caller pool fuel
                source_bucket source_prefix dest_bucket dest_prefix in
  let copy' := Copy.copy_objects s3 plain pool fuel'
                 source_bucket source_prefix dest_bucket dest_prefix in
  (fst clean = fst clean' /\ Quiet.same_clean (snd clean) (snd clean')) /\
  (fst copy = fst copy' /\ Quiet.same_copy (snd copy) (snd copy')).
Proof.
  intros Hn Hp. cbv zeta. split.
  - apply same_clean_bucket; assumption.
  - apply same_copy_objects; assumption.
Qed.

Lemma X20_flags_that_never_fire_change_nothing_witness :
  let caller := {| progress_callback := true; max_workers := 4;
                   cancel_flag := Some (fun _ => false);
                   pause_flag := Some (fun i => (1 <=? i) && (i <=? 2)) |} in
  let s3 := Demo.plain_store [Demo.page 0 2; Demo.page 2 1] in
  let clean := Clean.clean_bucket s3 caller Demo.reversing_pool 2 "bucket" in
  pause_polls (Clean.world (snd clean)) = 4 /\
  fst clean = Returned true /\
  Clean.deleted_count (snd clean) = 3 /\
  length (progress (Clean.world (snd clean))) = 7.
Proof.
  intros caller s3 clean.
  assert (Hn : never_cancelled caller).
  { intros f Hf k. simpl in Hf. now injection Hf as <-. }
  assert (Hp : pause_released caller 2).
  { intros f Hf n. simpl in Hf. injection Hf as <-.
    destruct (Nat.le_gt_cases 3 n) as [H|H].
    - exists 0. split; [lia|]. rewrite Nat.add_0_r.
      apply andb_false_iff. right. apply Nat.leb_gt. lia.
    - destruct n as [|[|[|n]]]; [exists 0|exists 2|exists 1|lia];
        (split; [lia | reflexivity]). }
  destruct (X20_flags_that_never_fire_change_nothing s3 caller Demo.reversing_pool 2 0
              "bucket" "bucket" "" "dest" "" Hn Hp) as ((H1 & H2) & _).
  fold clean in H1, H2.
  destruct H2 as (_ & _ & _ & _ & _ & H6 & H7 & _).
  split; [vm_compute; reflexivity|].
  split; [rewrite H1; vm_compute; reflexivity|].
  split; [rewrite H6; vm_compute; reflexivity|].
  rewrite H7. vm_compute. reflexivity.
Defined.

End QuietProperties.

(** ** The account *)

Section AccountFacts.
Import Store Account.

Local Abbreviation le := (fun a b : string => String.leb a b = true).

Lemma insert_permutation (s : string) (l : list string) :
  Permutation (insert s l) (s :: l).
Proof.
  induction l as [|x l IH]; simpl; [reflexivity|].
  destruct (String.leb s x); [reflexivity|].
  rewrite IH. apply perm_swap.
Qed.

Lemma sorted_permutation (l : list string) : Permutation (sorted l) l.
Proof.
  induction l as [|x l IH]; simpl; [reflexivity|].
  rewrite insert_permutation. now constructor.
Qed.

Lemma insert_hd (s a : string) (l : list string) :
  le a s -> HdRel le a l -> HdRel le a (insert s l).
Proof.
  intros Has H. destruct l as [|x l]; simpl; [now constructor|].
  destruct (String.leb s x); constructor; [exact Has|].
  now inversion H.
Qed.

Lemma insert_sorted (s : string) (l : list string) :
  Sorted le l -> Sorted le (insert s l).
Proof.
  induction 1 as [|x l Hs IH Hh]; simpl; [repeat constructor|].
  destruct (String.leb s x) eqn:E.
  - constructor; [now constructor | now constructor].
  - constructor; [exact IH|]. apply insert_hd; [|exact Hh].
    destruct (String.leb_total s x) as [H|H]; [congruence | exact H].
Qed.

Lemma sorted_sorted (l : list string) : Sorted le (sorted l).
Proof.
  induction l as [|x l IH]; simpl; [constructor | now apply insert_sorted].
Qed.

Lemma insert_fixed (s : string) (l : list string) :
  HdRel le s l -> insert s l = s :: l.
Proof.
  destruct l as [|x l]; simpl; [reflexivity|].
  intros H. inversion H as [|? ? Hle]; subst. now rewrite Hle.
Qed.

Lemma sorted_fixed (l : list string) : Sorted le l -> sorted l = l.
Proof.
  induction 1 as [|x l Hs IH Hh]; simpl; [reflexivity|].
  rewrite IH. now apply insert_fixed.
Qed.

End AccountFacts.

Section AccountProperties.
Import Store Account.

(** X21. [list_buckets] returns the names of the response in ascending
    order, each as often as the response holds it, and leaves a list that is
    already in order as it is; for a [ClientError] or a
    [NoCredentialsError] it returns the empty list, as for an account
    without bucket, and [test_connection] returns [False]; both functions
    raise exactly the other exceptions of the call; and [test_connection]
    returns [True] exactly when the call answers. *)
Theorem X21_list_buckets_sorts_the_names (call : Res ListBucketsResponse) :
  (forall response,
      call = Ok response ->
      let names := map Name (get_list (Buckets response)) in
      exists l,
        fst (list_buckets call) = Ok l /\
        Sorted (fun a b => String.leb a b = true) l /\
        Permutation l names /\
        (Sorted (fun a b => String.leb a b = true) names -> l = names)) /\
  (forall e,
      call = Raise e -> is_caught e = true ->
      list_buckets call = (Ok [], [LogListingBuckets e]) /\
      test_connection call = (Ok false, [LogConnectionError e]) /\
      fst (list_buckets call) = fst (list_buckets (Ok {| Buckets := None |}))) /\
  (forall e,
      fst (list_buckets call) = Raise e <-> call = Raise e /\ is_caught e = false) /\
  (forall e,
      fst (test_connection call) = Raise e <-> call = Raise e /\ is_caught e = false) /\
  (fst (test_connection call) = Ok true <-> exists response, call = Ok response).
Proof.
  splits.
  - intros response -> names. exists (sorted names). simpl. splits; auto.
    + apply sorted_sorted.
    + apply sorted_permutation.
    + apply sorted_fixed.
  - intros e -> He. simpl. rewrite He. auto.
  - intros e. destruct call as [response|e']; simpl.
    + split; [discriminate | intros (H & _); discriminate].
    + destruct (is_caught e') eqn:E; simpl.
      * split; [discriminate | intros (H & H'); injection H as ->; congruence].
      * split; [intros H; injection H as ->; auto | intros (H & _); congruence].
  - intros e. destruct call as [response|e']; simpl.
    + split; [discriminate | intros (H & _); discriminate].
    + destruct (is_caught e') eqn:E; simpl.
      * split; [discriminate | intros (H & H'); injection H as ->; congruence].
      * split; [intros H; injection H as ->; auto | intros (H & _); congruence].
  - destruct call as [response|e']; simpl.
    + split; [eauto | reflexivity].
    + destruct (is_caught e'); simpl;
        (split; [discriminate | intros (response & H); discriminate]).
Qed.

(** Three buckets, listed out of order. *)
Example list_buckets_in_order :
  list_buckets
    (Ok {| Buckets := Some [ {| Name := "logs" |}; {| Name := "archive" |};
                             {| Name := "log" |} ] |})
  = (Ok ["archive"; "log"; "logs"]%string, []).
Proof. vm_compute. reflexivity. Qed.

End AccountProperties.
